(** * Chunk-boundary calculators of unblob: gzip, LZH, NTFS, UBIFS, UBI

    A shallow embedding of the [calculate_chunk] methods of

      - unblob/handlers/compression/gzip.py
      - unblob/handlers/compression/lzh.py
      - unblob/handlers/filesystem/ntfs.py
      - unblob/handlers/filesystem/ubi.py

    The handlers are imperative Python over a seekable binary file.  The
    file object is modelled as a byte list with a cursor, and the handlers
    run in a small state-and-exception monad over it. *)

From Stdlib Require Import String ZArith List Bool Lia.
From Stdlib Require Import Strings.Byte.
Import ListNotations.

Local Open Scope Z_scope.

(* ================================================================== *)
(** ** ByteSource: [io.BufferedIOBase] *)
(* ================================================================== *)

(** Exceptions that the handlers and their helpers can raise, under
    their Python names ([TruncatedHeader] is the spec's name). *)
Inductive Exn : Type :=
| EOFError              (* compressed data ended before its end marker *)
| TruncatedHeader       (* fewer bytes available than a struct layout needs *)
| OSError               (* seek to a negative position *)
| BadGzipFile           (* gzip.BadGzipFile *)
| ZlibError             (* zlib.error *)
| InvalidInputFormat    (* unblob.file_utils.InvalidInputFormat *)
| PEBSizeNotFound       (* unblob.handlers.filesystem.ubi.PEBSizeNotFound *)
| StatisticsError.      (* statistics.StatisticsError *)

Record File : Type := mkFile {
  content : list byte;   (* the immutable bytes of the blob *)
  pos : nat              (* the cursor; may lie past the end after a seek *)
}.

(** Outcome of running a piece of handler code on a file.  [OutOfFuel] is
    the outcome of a [while True] loop whose iteration budget ran out; it
    has no Python counterpart and the theorems show when it cannot occur. *)
Inductive Outcome (A : Type) : Type :=
| Ok (a : A) (f : File)
| Raise (e : Exn)
| OutOfFuel.
Arguments Ok {A} a f.
Arguments Raise {A} e.
Arguments OutOfFuel {A}.

Definition IO (A : Type) : Type := File -> Outcome A.

Definition ret {A} (a : A) : IO A := fun f => Ok a f.

Definition bind {A B} (m : IO A) (k : A -> IO B) : IO B :=
  fun f => match m f with
           | Ok a f' => k a f'
           | Raise e => Raise e
           | OutOfFuel => OutOfFuel
           end.

Definition raise {A} (e : Exn) : IO A := fun _ => Raise e.

(** [try: m  except <caught>: h]. *)
Definition try_except {A} (m : IO A) (caught : Exn -> bool) (h : Exn -> IO A) : IO A :=
  fun f => match m f with
           | Raise e => if caught e then h e f else Raise e
           | r => r
           end.

Declare Scope io_scope.
Delimit Scope io_scope with io.
Notation "x <- m ;; k" := (bind m (fun x => k))
  (at level 61, m at next level, right associativity) : io_scope.
Notation "m ;;; k" := (bind m (fun _ => k))
  (at level 61, right associativity) : io_scope.
Local Open Scope io_scope.

(** [file.tell()] *)
Definition tell : IO Z := fun f => Ok (Z.of_nat (pos f)) f.

(** [file.read(n)]: up to [n] bytes from the cursor, fewer at end of data,
    [b""] at or past the end. *)
Definition read (n : nat) : IO (list byte) :=
  fun f => let bs := firstn n (skipn (pos f) (content f)) in
           Ok bs (mkFile (content f) (pos f + length bs)).

(** [file.seek(off)] (absolute).  A negative target is refused. *)
Definition seek (off : Z) : IO unit :=
  fun f => if off <? 0 then Raise OSError
           else Ok tt (mkFile (content f) (Z.to_nat off)).

(** [file.seek(off, io.SEEK_CUR)] *)
Definition seek_cur (off : Z) : IO unit :=
  fun f => seek (Z.of_nat (pos f) + off) f.

(** [file.seek(off, io.SEEK_END)] *)
Definition seek_end (off : Z) : IO unit :=
  fun f => seek (Z.of_nat (length (content f)) + off) f.

(** ** ValidChunk and the result of a calculator *)

(** Modelled from the spec: [ValidChunk] of unblob/models.py, which is not
    among the sources.  Section 3: a pair of offsets, created by a
    calculator. *)
Record ValidChunk : Type := mkValidChunk {
  start_offset : Z;
  end_offset : Z
}.

(** Modelled from the spec: the constructor call
    [ValidChunk(start_offset=..., end_offset=...)] of unblob/models.py,
    which is not among the sources.  Section 3 gives a chunk the
    invariant [end_offset > start_offset]: a chunk that would break it is
    not built, and the calculator fails with the format error.  The
    other half of the invariant, [end_offset <= source length], cannot be
    checked from the two offsets and is not. *)
Definition make_ValidChunk (start_offset end_offset : Z) : IO ValidChunk :=
  if start_offset <? end_offset
  then ret (mkValidChunk start_offset end_offset)
  else raise InvalidInputFormat.

(** [calculate_chunk] has type [Optional[ValidChunk]] and may raise:
    [Ok None] is the spec's NoChunk, [Ok (Some c)] is Chunk,
    [Raise InvalidInputFormat] is FormatInvalid. *)
Definition Calculator : Type := Z -> IO (option ValidChunk).

(** Value of one byte as an unsigned integer. *)
Definition byte_val (b : byte) : Z := Z.of_N (Byte.to_N b).

Definition bytes_eqb (a b : list byte) : bool :=
  if list_eq_dec Byte.byte_eq_dec a b then true else false.

(* ================================================================== *)
(** ** StructView: [StructHandler.parse_header] *)
(* ================================================================== *)

Module StructView.

Inductive Endian : Type := LITTLE | BIG.

(** Field kinds that occur in the handlers' C_DEFINITIONS: unsigned
    integers of [w] bytes, and [uint8]/[char] arrays of [n] bytes. *)
Inductive ctype : Type :=
| UInt (w : nat)
| Bytes (n : nat).

Definition layout : Type := list (string * ctype).

Inductive value : Type :=
| VInt (v : Z)
| VBytes (bs : list byte).

(** A HeaderRecord: field name to value, in declaration order. *)
Definition Header : Type := list (string * value).

Definition sizeof (t : ctype) : nat :=
  match t with UInt w => w | Bytes n => n end.

(** [len(header)] *)
Fixpoint layout_size (l : layout) : nat :=
  match l with
  | [] => 0
  | (_, t) :: r => sizeof t + layout_size r
  end.

Fixpoint le_uint (bs : list byte) : Z :=
  match bs with
  | [] => 0
  | b :: r => byte_val b + 256 * le_uint r
  end.

Definition decode_uint (e : Endian) (bs : list byte) : Z :=
  match e with
  | LITTLE => le_uint bs
  | BIG => le_uint (rev bs)
  end.

Definition decode_field (e : Endian) (t : ctype) (bs : list byte) : value :=
  match t with
  | UInt _ => VInt (decode_uint e bs)
  | Bytes _ => VBytes bs
  end.

Fixpoint decode_fields (e : Endian) (l : layout) (data : list byte) : Header :=
  match l with
  | [] => []
  | (name, t) :: r =>
      (name, decode_field e t (firstn (sizeof t) data))
        :: decode_fields e r (skipn (sizeof t) data)
  end.

(** A struct member that is itself a struct ([ubifs_ch_t ch]) is laid
    out in place; its fields are addressed as [ch.magic], ... *)
Definition nest (prefix : string) (l : layout) : layout :=
  map (fun p => (prefix ++ "." ++ fst p, snd p)%string) l.

(** [header.<name>] for an integer field. *)
Fixpoint field (h : Header) (name : string) : Z :=
  match h with
  | [] => 0
  | (n, v) :: r =>
      if String.eqb n name
      then match v with VInt z => z | VBytes _ => 0 end
      else field r name
  end.

(** [header.<name>] for an array field. *)
Fixpoint field_bytes (h : Header) (name : string) : list byte :=
  match h with
  | [] => []
  | (n, v) :: r =>
      if String.eqb n name
      then match v with VBytes bs => bs | VInt _ => [] end
      else field_bytes r name
  end.

(** Modelled from the spec: [StructHandler.parse_header] of
    unblob/models.py, which is not among the sources.  Section 4.1:
    read exactly the layout's size in bytes at the cursor, decode the
    integer fields in the declared byte order, return arrays verbatim,
    leave the cursor right after the consumed bytes, and fail when fewer
    bytes are available than the layout requires. *)
Definition parse_header (l : layout) (e : Endian) : IO Header :=
  data <- read (layout_size l) ;;
  if (length data <? layout_size l)%nat then raise TruncatedHeader
  else ret (decode_fields e l data).

End StructView.
Import StructView.

(* ================================================================== *)
(** ** Signatures: the strings of the handlers' YARA_RULE *)
(* ================================================================== *)

(** The strings of the rules are hex strings, a text string and one
    regular expression made of bytes, byte classes and counted jumps:
    each is a sequence of one-byte atoms, matched at one offset. *)
Module Yara.

Inductive atom : Type :=
| Lit (b : byte)            (* a byte: [1F], [\x55] *)
| OneOf (bs : list byte)    (* an alternation of bytes: [( 00 | 01 | 02 )] *)
| Range (lo hi : byte)      (* a class: [[\x01-\xFF]] *)
| Wild.                     (* one byte of a jump: [[16]] *)

Definition pattern : Type := list atom.

Definition atom_matches (a : atom) (b : byte) : bool :=
  match a with
  | Lit x => Byte.eqb x b
  | OneOf bs => existsb (Byte.eqb b) bs
  | Range lo hi => (Byte.to_N lo <=? Byte.to_N b)%N && (Byte.to_N b <=? Byte.to_N hi)%N
  | Wild => true
  end.

(** The pattern matches at the head of [data]. *)
Fixpoint matches (p : pattern) (data : list byte) : bool :=
  match p, data with
  | [], _ => true
  | _ :: _, [] => false
  | a :: p', b :: data' => atom_matches a b && matches p' data'
  end.

(** A text string: ["-lh5-"]. *)
Definition text (s : string) : pattern := map Lit (list_byte_of_string s).

(** A jump: [[n]]. *)
Definition jump (n : nat) : pattern := repeat Wild n.

End Yara.

(* ================================================================== *)
(** ** Helpers of unblob/file_utils.py and unblob/iter_utils.py *)
(* ================================================================== *)

Module FileUtils.

(** Modelled from the spec: [get_endian] of unblob/file_utils.py, which
    is not among the sources.  Section 4.6: the 4-byte magic is either
    the big-endian constant or its byte-reversed counterpart; both
    readings of the four bytes at the cursor are tested against the
    constant and the matching one is the byte order.  The cursor is left
    where it was, since the header is parsed from the same offset next.
    The spec names no outcome for four bytes that match neither reading;
    the default byte order of [parse_header] stands in for it. *)
Definition get_endian (big_endian_magic : Z) : IO Endian :=
  magic_bytes <- read 4 ;;
  seek_cur (- Z.of_nat (length magic_bytes)) ;;;
  if decode_uint BIG magic_bytes =? big_endian_magic then ret BIG
  else if decode_uint LITTLE magic_bytes =? big_endian_magic then ret LITTLE
  else ret LITTLE.

(** Modelled from the spec: helper of [iterate_patterns] (unblob/file_utils.py,
    not among the sources).  Does [data] start with [pattern]? *)
Fixpoint starts_with (pattern data : list byte) : bool :=
  match pattern, data with
  | [], _ => true
  | _ :: _, [] => false
  | p :: ps, d :: ds => Byte.eqb p d && starts_with ps ds
  end.

(** Modelled from the spec: helper of [iterate_patterns] (unblob/file_utils.py,
    not among the sources).  The offsets, counted from [offset], at which
    [pattern] occurs in [data]. *)
Fixpoint find_from (pattern data : list byte) (offset : nat) : list Z :=
  match data with
  | [] => []
  | _ :: rest =>
      if starts_with pattern data
      then Z.of_nat offset :: find_from pattern rest (S offset)
      else find_from pattern rest (S offset)
  end.

(** Modelled from the spec: [iterate_patterns] of unblob/file_utils.py,
    which is not among the sources.  Section 4.7: scan the source for
    every occurrence of the pattern; the offsets come in increasing
    order.  The cursor is not part of the result: the caller seeks to an
    absolute offset afterwards. *)
Definition iterate_patterns (pattern : list byte) : IO (list Z) :=
  fun f => Ok (find_from pattern (content f) 0) f.

(** Modelled from the spec: helper of [read_until_past] (unblob/file_utils.py,
    not among the sources).  Length of the run of bytes drawn from
    [pattern] at the head of [data]. *)
Fixpoint skip_run (pattern : list byte) (data : list byte) : nat :=
  match data with
  | [] => 0
  | b :: rest =>
      if existsb (Byte.eqb b) pattern then S (skip_run pattern rest) else 0
  end.

(** Modelled from the spec: [read_until_past] of unblob/file_utils.py,
    which is not among the sources.  Section 4.3: skip forward over any
    run of bytes drawn from [pattern] (the zero padding) and return the
    position immediately after the run; at or past the end of the data
    there is nothing to skip. *)
Definition read_until_past (pattern : list byte) : IO Z :=
  fun f =>
    let n := skip_run pattern (skipn (pos f) (content f)) in
    Ok (Z.of_nat (pos f + n)) (mkFile (content f) (pos f + n)).

End FileUtils.

Module IterUtils.

(** Modelled from the spec: [get_intervals] of unblob/iter_utils.py,
    which is not among the sources.  Section 4.7: the distances between
    each value and the next one (sequential intervals, not all pairs). *)
Fixpoint get_intervals (values : list Z) : list Z :=
  match values with
  | [] => []
  | a :: rest =>
      match rest with
      | [] => []
      | b :: _ => (b - a) :: get_intervals rest
      end
  end.

End IterUtils.

(** Python's [statistics.mode]: the most common value, the first one
    encountered among equally common ones; [StatisticsError] on no data. *)
Module Statistics.

Definition count (x : Z) (data : list Z) : nat := count_occ Z.eq_dec data x.

Definition more_common (data : list Z) (best y : Z) : Z :=
  if (count best data <? count y data)%nat then y else best.

Definition mode (data : list Z) : option Z :=
  match data with
  | [] => None
  | x :: rest => Some (fold_left (more_common data) rest x)
  end.

End Statistics.

(* ================================================================== *)
(** ** gzip: unblob/handlers/compression/gzip.py *)
(* ================================================================== *)

Module GZIPHandler.

Definition GZIP2_CRC_LEN : Z := 4.
Definition GZIP2_SIZE_LEN : Z := 4.
Definition GZIP2_FOOTER_LEN : Z := GZIP2_CRC_LEN + GZIP2_SIZE_LEN.

(** What the inflate engine (zlib's decompress object) reports once a
    given input has been fed to it: it wants more input, or the final
    block ended after [consumed] bytes of the input (the rest is its
    [unused_data]), or the input is not a deflate stream. *)
Inductive InflateStatus : Type :=
| NeedInput
| StreamEnd (consumed : nat)
| DataError.

Definition status_eqb (a b : InflateStatus) : bool :=
  match a, b with
  | NeedInput, NeedInput => true
  | StreamEnd n, StreamEnd m => Nat.eqb n m
  | DataError, DataError => true
  | _, _ => false
  end.

Section SingleMemberGzipReader.

(** zlib is an external library: the engine is a parameter, given as
    its verdict on everything fed to it so far. *)
Variable inflate : list byte -> InflateStatus.
(** Number of bytes pulled from the file per step. *)
Variable buffer_size : nat.

(** Modelled from the spec: helper of [read_header]
    (unblob/handlers/compression/_gzip_reader.py, not among the sources).
    Read [n] bytes or fail on a short read. *)
Definition read_exact (n : nat) : IO (list byte) :=
  bs <- read n ;;
  if (length bs <? n)%nat then raise EOFError else ret bs.

(** Modelled from the spec: helper of [read_header].  Length of a
    zero-terminated string at the head of [data], its terminator
    included; all of [data] when there is no terminator. *)
Fixpoint zero_terminated_len (data : list byte) : nat :=
  match data with
  | [] => 0
  | b :: rest => if Byte.eqb b x00 then 1 else S (zero_terminated_len rest)
  end.

(** Modelled from the spec: helper of [read_header].  Skip a
    zero-terminated field (FNAME, FCOMMENT). *)
Definition skip_zero_terminated : IO unit :=
  fun f => Ok tt (mkFile (content f)
                         (pos f + zero_terminated_len (skipn (pos f) (content f)))).

(** [if b: m] *)
Definition when (b : bool) (m : IO unit) : IO unit :=
  if b then m else ret tt.

(** Modelled from the spec: [SingleMemberGzipReader.read_header] of
    unblob/handlers/compression/_gzip_reader.py, which is not among
    the sources.  Section 4.2: parse the fixed prefix (magic,
    compression method, flag byte, then modification time, extra
    flags and operating system) and the optional fields that the flag
    byte announces (FEXTRA, FNAME, FCOMMENT, FHCRC).  The docstring of
    gzip.py names the reader: Python's [gzip._GzipReader] with its
    [read] patched.  Its header parser, [_read_gzip_header], is followed
    where the spec departs from it: the result is false only when no byte
    is left at the cursor, and another magic or a compression method
    other than 8 raises [BadGzipFile]. *)
Definition read_header : IO bool :=
  magic <- read 2 ;;
  if bytes_eqb magic [] then ret false
  else if negb (bytes_eqb magic [x1f; x8b]) then raise BadGzipFile
  else
    fixed <- read_exact 8 ;;
    let method := byte_val (nth 0 fixed x00) in
    let flag := byte_val (nth 1 fixed x00) in
    if negb (method =? 8) then raise BadGzipFile
    else
      when (Z.testbit flag 2)
           (xlen <- read_exact 2 ;;
            read_exact (Z.to_nat (le_uint xlen)) ;;; ret tt) ;;;
      when (Z.testbit flag 3) skip_zero_terminated ;;;
      when (Z.testbit flag 4) skip_zero_terminated ;;;
      when (Z.testbit flag 1) (read_exact 2 ;;; ret tt) ;;;
      ret true.

(** Modelled from the spec: the loop of [read_until_eof]
    (unblob/handlers/compression/_gzip_reader.py, not among the sources).
    One step pulls a buffer from the file and feeds it to the engine;
    [fed] is the input fed so far.  The result is the engine's
    [unused_data]. *)
Fixpoint read_until_eof_loop (fuel : nat) (fed : list byte) : IO (list byte) :=
  match fuel with
  | O => fun _ => OutOfFuel
  | S fuel' =>
      buf <- read buffer_size ;;
      if bytes_eqb buf [] then raise EOFError
      else
        match inflate (fed ++ buf) with
        | DataError => raise ZlibError
        | StreamEnd consumed => ret (skipn consumed (fed ++ buf))
        | NeedInput => read_until_eof_loop fuel' (fed ++ buf)
        end
  end.

(** Modelled from the spec: [SingleMemberGzipReader.read_until_eof]
    and [unused_data] of unblob/handlers/compression/_gzip_reader.py,
    which is not among the sources.  Section 4.2: repeatedly pull
    compressed bytes and feed them to the inflate engine until it
    reports the end of this member; malformed data is an error of the
    engine; the bytes pulled but not consumed are the unused data.
    Every step pulls at least one byte, so one step per byte of the
    source and one more always suffice. *)
Definition read_until_eof : IO (list byte) :=
  fun f => read_until_eof_loop (S (length (content f))) [] f.

Definition is_gzip_error (e : Exn) : bool :=
  match e with BadGzipFile | ZlibError => true | _ => false end.

Definition calculate_chunk : Calculator := fun start_offset =>
  header_ok <- read_header ;;
  if negb header_ok then ret None
  else
    unused_data <- try_except read_until_eof is_gzip_error
                              (fun _ => raise InvalidInputFormat) ;;
    seek_cur (GZIP2_FOOTER_LEN - Z.of_nat (length unused_data)) ;;;
    end_offset <- FileUtils.read_until_past [x00] ;;
    chunk <- make_ValidChunk start_offset end_offset ;;
    ret (Some chunk).

End SingleMemberGzipReader.

(** An inflate engine for deflate streams made of stored blocks only
    (RFC 1951, 3.2.4): a concrete engine to run the reader on. *)
Fixpoint stored_inflate_from (fuel : nat) (consumed : nat) (data : list byte)
  : InflateStatus :=
  match fuel with
  | O => NeedInput
  | S fuel' =>
      match data with
      | hdr :: l0 :: l1 :: n0 :: n1 :: rest =>
          let len := le_uint [l0; l1] in
          if negb (Z.land (Z.shiftr (byte_val hdr) 1) 3 =? 0) then DataError
          else if negb (len + le_uint [n0; n1] =? 65535) then DataError
          else if (length rest <? Z.to_nat len)%nat then NeedInput
          else if Z.testbit (byte_val hdr) 0
               then StreamEnd (consumed + 5 + Z.to_nat len)
               else stored_inflate_from fuel' (consumed + 5 + Z.to_nat len)
                                        (skipn (Z.to_nat len) rest)
      | _ => NeedInput
      end
  end.

Definition stored_inflate (data : list byte) : InflateStatus :=
  stored_inflate_from (S (length data)) 0 data.


End GZIPHandler.

(* ================================================================== *)
(** ** LZH: unblob/handlers/compression/lzh.py *)
(* ================================================================== *)

Module LZHHandler.

Definition PADDING_LEN : Z := 2.

(** C_DEFINITIONS, [lzh_default_header_t] *)
Definition lzh_default_header_t : layout :=
  [ ("header_size", UInt 1);
    ("header_checksum", UInt 1);
    ("method_id", Bytes 5);
    ("compressed_size", UInt 4);
    ("uncompressed_size", UInt 4);
    ("timestamp", UInt 4);
    ("fd_attribute", UInt 1);
    ("level_identifier", UInt 1) ]%string.

Definition HEADER_STRUCT : layout := lzh_default_header_t.

(** The header size that [calculate_chunk] derives from a parsed header
    (the [if header.level_identifier == 0x2] statement). *)
Definition real_header_size (header : Header) : Z :=
  if field header "level_identifier" =? 2
  then field header "header_size" + Z.shiftl (field header "header_checksum") 8
  else field header "header_size" + PADDING_LEN.

Definition calculate_chunk : Calculator := fun start_offset =>
  header <- parse_header HEADER_STRUCT LITTLE ;;
  let header_size := real_header_size header in
  seek_cur (- Z.of_nat (layout_size HEADER_STRUCT)) ;;;
  seek_cur (header_size + field header "compressed_size") ;;;
  end_offset <- tell ;;
  seek_end 0 ;;;
  end_pos <- tell ;;
  let end_offset := if end_pos - end_offset =? 1 then end_pos else end_offset in
  chunk <- make_ValidChunk start_offset end_offset ;;
  ret (Some chunk).

(** YARA_RULE, the strings [$lzh_magic_lh0] ... [$lzh_magic_lhd]. *)
Definition lzh_magics : list string :=
  [ "-lh0-"; "-lzs-"; "-lz4-"; "-lh1-"; "-lh2-"; "-lh3-";
    "-lh4-"; "-lh5-"; "-lh6-"; "-lh7-"; "-lh8-"; "-lhd-" ]%string.

(** YARA_RULE, the offset after a magic of the byte that the condition
    compares with 0x02: [uint8(@lzh_magic_lh0 + 18) <= 0x02]. *)
Definition level_check_offset : Z := 18.

Definition YARA_MATCH_OFFSET : Z := -2.

(** C_DEFINITIONS, [level_2_header_t] *)
Definition level_2_header_t : layout :=
  [ ("header_size", UInt 2);
    ("method_id", Bytes 5);
    ("compressed_size", UInt 4);
    ("uncompressed_size", UInt 4);
    ("timestamp", UInt 4);
    ("fd_attribute", UInt 1);
    ("level_identifier", UInt 1) ]%string.


End LZHHandler.

(* ================================================================== *)
(** ** NTFS: unblob/handlers/filesystem/ntfs.py *)
(* ================================================================== *)

Module NTFSHandler.

(** C_DEFINITIONS, [ntfs_boot_t] *)
Definition ntfs_boot_t : layout :=
  [ ("jmp_ins", Bytes 3);
    ("oem_id", Bytes 8);
    ("bytes_per_sector", UInt 2);
    ("sectors_per_clusters", UInt 1);
    ("unused1", Bytes 7);
    ("media_descriptor", UInt 1);
    ("unused2", Bytes 2);
    ("sectors_per_track", UInt 2);
    ("heads", UInt 2);
    ("hidden_sectors", UInt 4);
    ("unused3", Bytes 4);
    ("unused4", Bytes 4);
    ("total_sectors", UInt 8);
    ("mft_cluster_number", UInt 8);
    ("mft_mirror_cluster_number", UInt 8);
    ("record_size", UInt 1);
    ("unused5", Bytes 3);
    ("index_size", UInt 1);
    ("unused6", Bytes 3);
    ("serial_num", UInt 8);
    ("checksum", UInt 4);
    ("bootstrap_code", Bytes 426);
    ("boot_magic", UInt 2) ]%string.

Definition HEADER_STRUCT : layout := ntfs_boot_t.

(** [self.parse_header(file)] is called without a byte order; the
    boot sector is a little-endian structure. *)
Definition calculate_chunk : Calculator := fun start_offset =>
  header <- parse_header HEADER_STRUCT LITTLE ;;
  let fsize := field header "total_sectors" * field header "bytes_per_sector" in
  if fsize =? 0 then ret None
  else
    let end_offset := start_offset + Z.of_nat (layout_size HEADER_STRUCT) + fsize in
    chunk <- make_ValidChunk start_offset end_offset ;;
    ret (Some chunk).

(** YARA_RULE, [$ntfs_magic]: the jump instruction, the OEM name, a
    bytes-per-sector field whose high byte is not zero, 497 bytes, and
    the end-of-sector marker. *)
Definition ntfs_magic : Yara.pattern :=
  map Yara.Lit [xeb; x52; x90; x4e; x54; x46; x53; x20; x20; x20; x20]
  ++ [Yara.Range x00 xff; Yara.Range x01 xff]
  ++ repeat (Yara.Range x00 xff) 497
  ++ map Yara.Lit [x55; xaa].


End NTFSHandler.

(* ================================================================== *)
(** ** UBIFS and UBI: unblob/handlers/filesystem/ubi.py *)
(* ================================================================== *)

Module UBIFSHandler.

Definition _BIG_ENDIAN_MAGIC : Z := 0x06101831.

(** C_DEFINITIONS, [ubifs_ch_t] *)
Definition ubifs_ch_t : layout :=
  [ ("magic", UInt 4);
    ("crc", UInt 4);
    ("sqnum", UInt 8);
    ("len", UInt 4);
    ("node_type", UInt 1);
    ("group_type", UInt 1);
    ("padding", Bytes 2) ]%string.

(** C_DEFINITIONS, [ubifs_sb_node_t] *)
Definition ubifs_sb_node_t : layout :=
  nest "ch" ubifs_ch_t ++
  [ ("padding", Bytes 2);
    ("key_hash", UInt 1);
    ("key_fmt", UInt 1);
    ("flags", UInt 4);
    ("min_io_size", UInt 4);
    ("leb_size", UInt 4);
    ("leb_cnt", UInt 4);
    ("max_leb_cnt", UInt 4);
    ("max_bud_bytes", UInt 8);
    ("log_lebs", UInt 4);
    ("lpt_lebs", UInt 4);
    ("orph_lebs", UInt 4);
    ("jhead_cnt", UInt 4);
    ("fanout", UInt 4);
    ("lsave_cnt", UInt 4);
    ("fmt_version", UInt 4);
    ("default_compr", UInt 2);
    ("padding1", Bytes 2);
    ("rp_uid", UInt 4);
    ("rp_gid", UInt 4);
    ("rp_size", UInt 8);
    ("time_gran", UInt 4);
    ("uuid", Bytes 16);
    ("ro_compat_version", UInt 4);
    ("hmac", Bytes 64);
    ("hmac_wkm", Bytes 64);
    ("hash_algo", UInt 2);
    ("hash_mst", Bytes 64);
    ("padding2", Bytes 3774) ]%string.

Definition HEADER_STRUCT : layout := ubifs_sb_node_t.

Definition calculate_chunk : Calculator := fun start_offset =>
  endian <- FileUtils.get_endian _BIG_ENDIAN_MAGIC ;;
  sb_header <- parse_header HEADER_STRUCT endian ;;
  let ubifs_length := field sb_header "leb_size" * field sb_header "leb_cnt" in
  chunk <- make_ValidChunk start_offset (start_offset + ubifs_length) ;;
  ret (Some chunk).

(** YARA_RULE, [$ubifs_superblock_magic_le] and
    [$ubifs_superblock_magic_be]: the magic, 16 bytes, node type 6, a
    group type, two zero bytes. *)
Definition ubifs_superblock_magic_le : Yara.pattern :=
  map Yara.Lit [x31; x18; x10; x06] ++ Yara.jump 16
  ++ [Yara.Lit x06; Yara.OneOf [x00; x01; x02]; Yara.Lit x00; Yara.Lit x00].

Definition ubifs_superblock_magic_be : Yara.pattern :=
  map Yara.Lit [x06; x10; x18; x31] ++ Yara.jump 16
  ++ [Yara.Lit x06; Yara.OneOf [x00; x01; x02]; Yara.Lit x00; Yara.Lit x00].


End UBIFSHandler.

Module UBIHandler.

(** [b"UBI#"] *)
Definition _UBI_EC_HEADER : list byte := [x55; x42; x49; x23].

Definition _guess_peb_size : IO Z :=
  all_ubi_eraseblock_offsets <- FileUtils.iterate_patterns _UBI_EC_HEADER ;;
  let offset_intervals := IterUtils.get_intervals all_ubi_eraseblock_offsets in
  match offset_intervals with
  | [] => raise PEBSizeNotFound
  | _ :: _ =>
      match Statistics.mode offset_intervals with
      | Some m => ret m
      | None => raise StatisticsError
      end
  end.

(** The [while True] loop of [_walk_ubi], [fuel] iterations at most. *)
Fixpoint _walk_ubi (fuel : nat) (peb_size : Z) : IO Z :=
  match fuel with
  | O => fun _ => OutOfFuel
  | S fuel' =>
      offset <- tell ;;
      first_bytes <- read (length _UBI_EC_HEADER) ;;
      if bytes_eqb first_bytes [] || negb (bytes_eqb first_bytes _UBI_EC_HEADER)
      then ret offset
      else seek (offset + peb_size) ;;; _walk_ubi fuel' peb_size
  end.

Definition is_PEBSizeNotFound (e : Exn) : bool :=
  match e with PEBSizeNotFound => true | _ => false end.

(** [try: peb_size = self._guess_peb_size(file)  except PEBSizeNotFound: return];
    the early [return] is the [None] branch. *)
Definition calculate_chunk (fuel : nat) : Calculator := fun start_offset =>
  guessed <- try_except (peb_size <- _guess_peb_size ;; ret (Some peb_size))
                        is_PEBSizeNotFound
                        (fun _ => ret None) ;;
  match guessed with
  | None => ret None
  | Some peb_size =>
      seek start_offset ;;;
      end_offset <- _walk_ubi fuel peb_size ;;
      chunk <- make_ValidChunk start_offset end_offset ;;
      ret (Some chunk)
  end.

(** YARA_RULE, [$ubi_magic]: [UBI#] and version 1. *)
Definition ubi_magic : Yara.pattern :=
  map Yara.Lit [x55; x42; x49; x23; x01].


End UBIHandler.

(* ================================================================== *)
(** ** Vocabulary of the statements *)
(* ================================================================== *)

(** At least [n] bytes lie between the cursor and the end of the data. *)
Definition available (n : nat) (f : File) : Prop :=
  (pos f + n <= length (content f))%nat.

(** The [n] bytes at the cursor. *)
Definition peek (n : nat) (f : File) : list byte :=
  firstn n (skipn (pos f) (content f)).

(** The [w] bytes found [off] bytes after the cursor. *)
Definition slice (off w : nat) (f : File) : list byte :=
  firstn w (skipn (pos f + off) (content f)).

(** The same file with the cursor at [p]. *)
Definition at_pos (f : File) (p : nat) : File := mkFile (content f) p.

(** The computation returns [a]; the cursor it leaves behind is not part
    of a calculator's contract. *)
Definition returns {A} (o : Outcome A) (a : A) : Prop :=
  exists f', o = Ok a f'.

(** The calculator builds the chunk [start .. e]: it returns it when it
    is not empty, and fails with the format error when it is, as
    [make_ValidChunk] refuses an empty chunk. *)
Definition yields (o : Outcome (option ValidChunk)) (start e : Z) : Prop :=
  (start < e -> returns o (Some (mkValidChunk start e)))
  /\ (e <= start -> o = Raise InvalidInputFormat).

(** What a calculator gives once it builds the chunk [start .. e] with
    the cursor at [f']: the chunk, or the format error of
    [make_ValidChunk] when the chunk would be empty. *)
Definition built (start e : Z) (f' : File) : Outcome (option ValidChunk) :=
  if start <? e then Ok (Some (mkValidChunk start e)) f'
  else Raise InvalidInputFormat.

(** Length of the source. *)
Definition source_length (f : File) : Z := Z.of_nat (length (content f)).

(** Offset and kind of the first field called [name]. *)
Fixpoint field_offset (name : string) (l : layout) : option (nat * ctype) :=
  match l with
  | [] => None
  | (n, t) :: r =>
      if String.eqb n name then Some (O, t)
      else match field_offset name r with
           | Some (o, t') => Some ((sizeof t + o)%nat, t')
           | None => None
           end
  end.

(** The header that [parse_header] decodes at the cursor. *)
Definition header_at (l : layout) (e : Endian) (f : File) : Header :=
  decode_fields e l (peek (layout_size l) f).

(** [n]-byte encoding of [v] in a byte order, for stating what a field
    holds. *)
Fixpoint le_bytes (n : nat) (v : Z) : list byte :=
  match n with
  | O => []
  | S n' =>
      match Byte.of_N (Z.to_N (v mod 256)) with
      | Some b => b :: le_bytes n' (v / 256)
      | None => x00 :: le_bytes n' (v / 256)
      end
  end.

Definition encode_uint (e : Endian) (n : nat) (v : Z) : list byte :=
  match e with
  | LITTLE => le_bytes n v
  | BIG => rev (le_bytes n v)
  end.

(** The LZH end-of-file rule: a computed end one byte short of the end of
    the data is moved to the end. *)
Definition absorb_terminator (end_pos computed : Z) : Z :=
  if end_pos - computed =? 1 then end_pos else computed.

(** The byte order that [get_endian] settles on for the bytes at the
    cursor. *)
Definition chosen_endian (f : File) : Endian :=
  if decode_uint BIG (peek 4 f) =? UBIFSHandler._BIG_ENDIAN_MAGIC then BIG else LITTLE.

(** Offsets of the erase-block marker in the source. *)
Definition occurrences (f : File) : list Z :=
  FileUtils.find_from UBIHandler._UBI_EC_HEADER (content f) 0.

(** The marker-sized window at offset [o] holds the marker. *)
Definition marker_at (f : File) (o : Z) : bool :=
  (0 <=? o) && bytes_eqb (peek 4 (at_pos f (Z.to_nat o))) UBIHandler._UBI_EC_HEADER.

(** Offsets [start], [start + step], ..., [start + (N-1) * step]. *)
Definition every (step : Z) (N : nat) (start : Z) : list Z :=
  map (fun i => start + Z.of_nat i * step) (seq 0 N).

(** The deflate stream at the head of [payload] is complete after exactly
    [clen] bytes: the engine asks for more input on every shorter prefix
    and reports the end after [clen] bytes on every prefix that holds
    them. *)
Definition member_ends_at (inflate : list byte -> GZIPHandler.InflateStatus)
    (payload : list byte) (clen : nat) : bool :=
  forallb (fun n =>
             GZIPHandler.status_eqb
               (inflate (firstn n payload))
               (if (n <? clen)%nat then GZIPHandler.NeedInput
                else GZIPHandler.StreamEnd clen))
          (seq 0 (S (length payload))).

(** The engine rejects the payload when it is fed the [j]-th buffer:
    every earlier buffer left it asking for more, and the [j]-th buffer
    is not empty. *)
Definition rejected_at (inflate : list byte -> GZIPHandler.InflateStatus)
    (buffer_size : nat) (payload : list byte) (j : nat) : Prop :=
  (j * buffer_size < length payload)%nat
  /\ (forall i, (0 < i <= j)%nat ->
                inflate (firstn (i * buffer_size) payload) = GZIPHandler.NeedInput)
  /\ inflate (firstn (S j * buffer_size) payload) = GZIPHandler.DataError.

(** A computation that only moves the cursor forward. *)
Definition advances {A} (m : IO A) : Prop :=
  forall f a f', m f = Ok a f' -> content f' = content f /\ (pos f <= pos f')%nat.

(* ================================================================== *)
(** ** Sample inputs *)
(* ================================================================== *)

(** A level-2 header with size bytes 0x05, 0x01, method [-lh5-],
    compressed size 3, followed by eight bytes. *)
Definition lzh_level2_sample : File :=
  mkFile ([x05; x01; x2d; x6c; x68; x35; x2d; x03; x00; x00; x00;
           x09; x00; x00; x00; x00; x00; x00; x00; x20; x02] ++ repeat x41 8) 0.

(** A level-0 header of declared size 0x16 with 4 compressed bytes,
    followed by exactly one more byte than the stream needs. *)
Definition lzh_level0_sample : File :=
  mkFile ([x16; x7a; x2d; x6c; x68; x30; x2d; x04; x00; x00; x00;
           x04; x00; x00; x00; x00; x00; x00; x00; x20; x00]
          ++ repeat x41 7 ++ [x00]) 0.

(** A level-1 header of declared size 0x16 with 4 compressed bytes in a
    blob that goes on for longer. *)
Definition lzh_level1_sample : File :=
  mkFile ([x41; x41]
          ++ [x16; x7a; x2d; x6c; x68; x35; x2d; x04; x00; x00; x00;
              x04; x00; x00; x00; x00; x00; x00; x00; x20; x01]
          ++ repeat x41 20) 2.

(** A boot sector with 512 bytes per sector and [sectors] (below 256)
    sectors in total. *)
Definition ntfs_sample (sectors : byte) : File :=
  mkFile ([xeb; x52; x90; x4e; x54; x46; x53; x20; x20; x20; x20; x00; x02]
          ++ repeat x00 27 ++ [sectors] ++ repeat x00 469 ++ [x55; xaa]) 0.

(** A superblock in byte order [e] with the given leb_size and leb_cnt
    and zeroes in every other field. *)
Definition ubifs_sample (e : Endian) (leb_size leb_cnt : Z) : File :=
  mkFile (encode_uint e 4 UBIFSHandler._BIG_ENDIAN_MAGIC
          ++ repeat x00 16 ++ [x06; x00; x00; x00] ++ repeat x00 12
          ++ encode_uint e 4 leb_size ++ encode_uint e 4 leb_cnt
          ++ repeat x00 4052) 0.

(** Markers at offsets 2, 10 and 18 of a 29-byte blob. *)
Definition ubi_sample : File :=
  mkFile ([x00; xff]
          ++ [x55; x42; x49; x23; x01; x00; x00; x00]
          ++ [x55; x42; x49; x23; x01; x00; x00; x01]
          ++ [x55; x42; x49; x23; x01; x00; x00; x02]
          ++ [xff; xff; xff]) 0.

(** One marker only. *)
Definition ubi_single_sample : File :=
  mkFile ([x55; x42; x49; x23; x01; x00; x00; x00; xff; xff]) 0.

(** A gzip member (ten-byte header, one stored block holding two bytes,
    eight-byte trailer) at offset 3, then three zero bytes, then other
    bytes. *)
Definition gzip_sample : File :=
  mkFile ([x99; x99; x99]
          ++ [x1f; x8b; x08; x00; x00; x00; x00; x00; x02; xff]
          ++ [x01; x02; x00; xfd; xff; x68; x69]
          ++ [xac; x2a; x93; xd8; x02; x00; x00; x00]
          ++ [x00; x00; x00]
          ++ [x07; x07]) 3.

(** A gzip header followed by a stored block whose length check fails
    (NLEN is not the complement of LEN). *)
Definition gzip_corrupt_sample : File :=
  mkFile ([x1f; x8b; x08; x00; x00; x00; x00; x00; x02; xff]
          ++ [x01; x02; x00; xfd; xfe; x68; x69]
          ++ [xac; x2a; x93; xd8; x02; x00; x00; x00]) 0.

(** Bytes that do not start with the gzip magic. *)
Definition not_gzip_sample : File :=
  mkFile [x1f; x8c; x08; x00; x00; x00; x00; x00; x02; xff; x03; x00] 0.

(** The level-1 sample with another method id, other sizes and dates and
    another payload. *)
Definition lzh_level1_variant : File :=
  mkFile ([x00; x00]
          ++ [x16; x7a; x2d; x6c; x7a; x73; x2d; x04; x00; x00; x00;
              xff; xff; x00; x00; x11; x22; x33; x44; x10; x01]
          ++ repeat x00 20) 2.

(** A boot sector with the fields of [ntfs_sample x03] and other bytes
    everywhere else, in a longer source. *)
Definition ntfs_variant : File :=
  mkFile (repeat xff 11 ++ [x00; x02] ++ repeat xff 27 ++ [x03] ++ repeat x00 7
          ++ repeat xff 464 ++ repeat x41 100) 0.

(** The little-endian sample superblock with other bytes in every field
    that is not read, in a longer source. *)
Definition ubifs_variant : File :=
  mkFile ([x31; x18; x10; x06] ++ repeat xff 32
          ++ encode_uint LITTLE 4 0x1f000 ++ encode_uint LITTLE 4 0x40
          ++ repeat xff 4052 ++ repeat x41 50) 0.

(** A gzip header followed by the first bytes of a stored block and
    nothing else. *)
Definition gzip_truncated_sample : File :=
  mkFile ([x1f; x8b; x08; x00; x00; x00; x00; x00; x02; xff]
          ++ [x01; x02; x00; xfd; xff; x68]) 0.

(* ================================================================== *)
(** ** The file object and the monad *)
(* ================================================================== *)

Lemma bind_Ok {A B} (m : IO A) (k : A -> IO B) f a f' :
  m f = Ok a f' -> bind m k f = k a f'.
Proof. intros H. unfold bind. now rewrite H. Qed.

Lemma bind_Raise {A B} (m : IO A) (k : A -> IO B) f e :
  m f = Raise e -> bind m k f = Raise e.
Proof. intros H. unfold bind. now rewrite H. Qed.

Lemma make_chunk_built start e f :
  (chunk <- make_ValidChunk start e ;; ret (Some chunk)) f = built start e f.
Proof.
  unfold bind, make_ValidChunk, built, ret, raise.
  destruct (start <? e); reflexivity.
Qed.

Lemma built_nonempty start e f :
  start < e -> built start e f = Ok (Some (mkValidChunk start e)) f.
Proof. intros H. unfold built. destruct (Z.ltb_spec start e); [reflexivity | lia]. Qed.

Lemma built_empty start e f :
  e <= start -> built start e f = Raise InvalidInputFormat.
Proof. intros H. unfold built. destruct (Z.ltb_spec start e); [lia | reflexivity]. Qed.

Lemma built_yields start e f : yields (built start e f) start e.
Proof.
  split; intros H.
  - eexists. now apply built_nonempty.
  - now apply built_empty.
Qed.

(** A chunk that [built] returns is the one asked for, and is not empty. *)
Lemma built_inversion start e f c f' :
  built start e f = Ok (Some c) f' ->
  c = mkValidChunk start e /\ start < e /\ f' = f.
Proof.
  unfold built. destruct (Z.ltb_spec start e) as [Hlt|Hge]; [|discriminate].
  intros Heq. injection Heq as <- <-. auto.
Qed.

Lemma tell_spec f : tell f = Ok (Z.of_nat (pos f)) f.
Proof. reflexivity. Qed.

Lemma length_peek n f : available n f -> length (peek n f) = n.
Proof.
  unfold available, peek. intros H.
  rewrite length_firstn, length_skipn. lia.
Qed.

Lemma read_spec n f :
  read n f = Ok (peek n f) (at_pos f (pos f + length (peek n f))).
Proof. reflexivity. Qed.

Lemma read_available n f :
  available n f -> read n f = Ok (peek n f) (at_pos f (pos f + n)).
Proof. intros H. rewrite read_spec, (length_peek n f H). reflexivity. Qed.

Lemma seek_nonneg off f :
  0 <= off -> seek off f = Ok tt (at_pos f (Z.to_nat off)).
Proof.
  intros H. unfold seek. destruct (Z.ltb_spec off 0); [lia | reflexivity].
Qed.

Lemma seek_cur_nonneg off f :
  0 <= Z.of_nat (pos f) + off ->
  seek_cur off f = Ok tt (at_pos f (Z.to_nat (Z.of_nat (pos f) + off))).
Proof. intros H. unfold seek_cur. now apply seek_nonneg. Qed.

Lemma seek_end_0 f : seek_end 0 f = Ok tt (at_pos f (length (content f))).
Proof.
  unfold seek_end. rewrite seek_nonneg by lia.
  f_equal. unfold at_pos. f_equal. lia.
Qed.

(* ================================================================== *)
(** ** StructView *)
(* ================================================================== *)

Lemma byte_val_range b : 0 <= byte_val b < 256.
Proof.
  unfold byte_val. pose proof (Byte.to_N_bounded b). lia.
Qed.

Lemma le_uint_nonneg bs : 0 <= le_uint bs.
Proof.
  induction bs as [|b r IH]; cbn [le_uint]; [lia|].
  pose proof (byte_val_range b). lia.
Qed.

Lemma le_uint_bound bs : le_uint bs < 256 ^ Z.of_nat (length bs).
Proof.
  induction bs as [|b r IH]; [simpl; lia|].
  cbn [le_uint length]. rewrite Nat2Z.inj_succ, Z.pow_succ_r by lia.
  pose proof (byte_val_range b). lia.
Qed.

Lemma decode_uint_nonneg e bs : 0 <= decode_uint e bs.
Proof. destruct e; apply le_uint_nonneg. Qed.

Lemma decode_uint_bound e bs : decode_uint e bs < 256 ^ Z.of_nat (length bs).
Proof.
  destruct e; simpl; [apply le_uint_bound|].
  rewrite <- length_rev. apply le_uint_bound.
Qed.

Lemma field_nonneg e l data name : 0 <= field (decode_fields e l data) name.
Proof.
  revert data. induction l as [|[n t] r IH]; intros data; simpl; [lia|].
  destruct (String.eqb n name); [|apply IH].
  destruct t; simpl; [apply decode_uint_nonneg | lia].
Qed.

(** A field's value is the decoding of the bytes at its offset. *)
Lemma field_decode_fields l : forall e data name off w,
  field_offset name l = Some (off, UInt w) ->
  field (decode_fields e l data) name = decode_uint e (firstn w (skipn off data)).
Proof.
  induction l as [|[n t] r IH]; intros e data name off w H; simpl in H; [discriminate|].
  simpl. destruct (String.eqb n name).
  - injection H as <- ->. reflexivity.
  - destruct (field_offset name r) as [[o t']|] eqn:E; [|discriminate].
    injection H as <- ->.
    rewrite (IH e _ name o w E), skipn_skipn.
    now rewrite (Nat.add_comm o).
Qed.

Lemma slice_peek n off w f :
  (off + w <= n)%nat -> firstn w (skipn off (peek n f)) = slice off w f.
Proof.
  intros H. unfold peek, slice.
  rewrite skipn_firstn_comm, firstn_firstn, skipn_skipn.
  rewrite (Nat.add_comm off). f_equal. lia.
Qed.

(** A field of the parsed header is the decoding of its slice of the file. *)
Lemma field_header_at l e f name off w :
  field_offset name l = Some (off, UInt w) ->
  (off + w <= layout_size l)%nat ->
  field (header_at l e f) name = decode_uint e (slice off w f).
Proof.
  intros H Hle. unfold header_at.
  rewrite (field_decode_fields l e _ name off w H).
  now rewrite slice_peek.
Qed.

Lemma parse_header_available l e f :
  available (layout_size l) f ->
  parse_header l e f = Ok (header_at l e f) (at_pos f (pos f + layout_size l)).
Proof.
  intros H. unfold parse_header.
  rewrite (bind_Ok _ _ _ _ _ (read_available _ _ H)).
  rewrite (length_peek _ _ H), Nat.ltb_irrefl. reflexivity.
Qed.

Lemma parse_header_truncated l e f :
  (0 < layout_size l)%nat ->
  ~ available (layout_size l) f -> parse_header l e f = Raise TruncatedHeader.
Proof.
  intros Hpos H. unfold parse_header, bind. rewrite read_spec.
  destruct (Nat.ltb_spec (length (peek (layout_size l) f)) (layout_size l)) as [_|Hge];
    [reflexivity|].
  exfalso. apply H. unfold available, peek in *.
  rewrite length_firstn, length_skipn in Hge. lia.
Qed.

(* ================================================================== *)
(** ** LZH *)
(* ================================================================== *)

Lemma add_shiftl8_lor a b :
  0 <= a < 256 -> a + Z.shiftl b 8 = Z.lor a (Z.shiftl b 8).
Proof.
  intros Ha.
  assert (H0 : Z.land a (Z.shiftl b 8) = 0).
  { apply Z.bits_inj'. intros n Hn. rewrite Z.land_spec, Z.bits_0.
    destruct (Z.lt_ge_cases n 8) as [Hlt|Hge].
    - rewrite Z.shiftl_spec_low by lia. apply andb_false_r.
    - destruct (Z.eq_dec a 0) as [->|Hne]; [now rewrite Z.bits_0|].
      rewrite Z.bits_above_log2; [reflexivity | lia |].
      apply Z.log2_lt_pow2; [lia|].
      apply Z.lt_le_trans with (2 ^ 8); [simpl; lia|].
      apply Z.pow_le_mono_r; lia. }
  now rewrite Z.add_nocarry_lxor, Z.lxor_lor.
Qed.

Lemma lzh_field_u8 f name off :
  field_offset name LZHHandler.HEADER_STRUCT = Some (off, UInt 1) ->
  (off + 1 <= 21)%nat ->
  0 <= field (header_at LZHHandler.HEADER_STRUCT LITTLE f) name < 256.
Proof.
  intros H Hle.
  rewrite (field_header_at _ LITTLE f name off 1 H) by exact Hle.
  split; [apply decode_uint_nonneg|].
  pose proof (decode_uint_bound LITTLE (slice off 1 f)) as Hb.
  assert (Hl : (length (slice off 1 f) <= 1)%nat) by apply firstn_le_length.
  apply Z.lt_le_trans with (1 := Hb).
  change 256 with (256 ^ 1). apply Z.pow_le_mono_r; lia.
Qed.

Lemma lzh_real_header_size_nonneg f :
  0 <= LZHHandler.real_header_size (header_at LZHHandler.HEADER_STRUCT LITTLE f).
Proof.
  unfold LZHHandler.real_header_size, LZHHandler.PADDING_LEN.
  pose proof (field_nonneg LITTLE LZHHandler.HEADER_STRUCT
                (peek (layout_size LZHHandler.HEADER_STRUCT) f)) as Hnn.
  fold (header_at LZHHandler.HEADER_STRUCT LITTLE f) in Hnn.
  pose proof (Hnn "header_size"%string).
  pose proof (Hnn "header_checksum"%string) as Hc.
  apply (Z.shiftl_nonneg _ 8) in Hc.
  destruct (_ =? 2); lia.
Qed.

(** What [calculate_chunk] does on any file that holds a whole header at
    the cursor: the end is computed from the cursor, the header size and
    the compressed size, then the end-of-file rule is applied. *)
Lemma lzh_calculate_chunk_run f start :
  available 21 f ->
  let header := header_at LZHHandler.HEADER_STRUCT LITTLE f in
  let computed := Z.of_nat (pos f) + LZHHandler.real_header_size header
                  + field header "compressed_size" in
  LZHHandler.calculate_chunk start f =
    built start (absorb_terminator (source_length f) computed)
          (at_pos f (length (content f))).
Proof.
  intros Hav header computed.
  pose proof (lzh_real_header_size_nonneg f) as Hh. fold header in Hh.
  assert (Hc : 0 <= field header "compressed_size") by apply field_nonneg.
  unfold LZHHandler.calculate_chunk.
  rewrite (bind_Ok _ _ _ _ _ (parse_header_available LZHHandler.HEADER_STRUCT LITTLE f Hav)).
  fold header. change (layout_size LZHHandler.HEADER_STRUCT) with 21%nat.
  rewrite (bind_Ok _ _ _ tt (at_pos f (pos f))).
  2:{ rewrite seek_cur_nonneg by (cbn [pos at_pos]; lia).
      f_equal. unfold at_pos. cbn [pos content]. f_equal. lia. }
  rewrite (bind_Ok _ _ _ tt (at_pos f (Z.to_nat computed))).
  2:{ rewrite seek_cur_nonneg by (cbn [pos at_pos]; lia).
      f_equal. unfold at_pos, computed. cbn [pos content]. do 2 f_equal. lia. }
  rewrite (bind_Ok _ _ _ _ _ (tell_spec _)).
  rewrite (bind_Ok _ _ _ _ _ (seek_end_0 _)).
  rewrite (bind_Ok _ _ _ _ _ (tell_spec _)).
  rewrite make_chunk_built.
  unfold absorb_terminator, source_length, at_pos. cbn [pos content].
  rewrite Z2Nat.id by (unfold computed; lia). reflexivity.
Qed.

Lemma absorb_terminator_ge end_pos computed :
  computed <= absorb_terminator end_pos computed.
Proof.
  unfold absorb_terminator.
  destruct (Z.eqb_spec (end_pos - computed) 1); lia.
Qed.

(** C4: for an LZH header with level_identifier 2 the real header size
    used by the calculator is header_size | (header_checksum << 8), the
    two leading bytes read as low and high byte of one 16-bit size; it is
    the size that enters the end of the chunk that the calculator builds;
    and the bytes 0x05, 0x01 give 0x0105. *)
Theorem lzh_level2_header_size (f : File) (start : Z) :
  available 21 f ->
  let header := header_at LZHHandler.HEADER_STRUCT LITTLE f in
  field header "level_identifier" = 2 ->
  let size16 := Z.lor (field header "header_size")
                      (Z.shiftl (field header "header_checksum") 8) in
  LZHHandler.real_header_size header = size16
  /\ field header "header_size" = decode_uint LITTLE (slice 0 1 f)
  /\ field header "header_checksum" = decode_uint LITTLE (slice 1 1 f)
  /\ size16 = decode_uint LITTLE (slice 0 2 f)
  /\ LZHHandler.calculate_chunk start f =
       built start
             (absorb_terminator (source_length f)
                (Z.of_nat (pos f) + size16 + field header "compressed_size"))
             (at_pos f (length (content f)))
  /\ (slice 0 2 f = [x05; x01] -> LZHHandler.real_header_size header = 0x0105).
Proof.
  intros Hav header Hlevel size16.
  assert (Hsize : LZHHandler.real_header_size header = size16).
  { unfold LZHHandler.real_header_size. rewrite Hlevel. simpl (2 =? 2).
    cbv iota. apply add_shiftl8_lor.
    apply (lzh_field_u8 f "header_size" 0); [reflexivity | lia]. }
  assert (H0 : field header "header_size" = decode_uint LITTLE (slice 0 1 f))
    by (apply (field_header_at _ LITTLE f "header_size" 0 1); [reflexivity | simpl; lia]).
  assert (H1 : field header "header_checksum" = decode_uint LITTLE (slice 1 1 f))
    by (apply (field_header_at _ LITTLE f "header_checksum" 1 1); [reflexivity | simpl; lia]).
  assert (Hpair : size16 = decode_uint LITTLE (slice 0 2 f)).
  { rewrite <- Hsize. unfold LZHHandler.real_header_size. rewrite Hlevel.
    simpl (2 =? 2). cbv iota. rewrite H0, H1.
    unfold slice, available in *. rewrite Nat.add_0_r.
    replace (pos f + 1)%nat with (1 + pos f)%nat by lia.
    rewrite <- skipn_skipn.
    destruct (skipn (pos f) (content f)) as [|a [|b r]] eqn:E.
    - apply (f_equal (@length byte)) in E. rewrite length_skipn in E. simpl in E. lia.
    - apply (f_equal (@length byte)) in E. rewrite length_skipn in E. simpl in E. lia.
    - cbn [skipn firstn decode_uint le_uint]. rewrite Z.shiftl_mul_pow2 by lia.
      change (2 ^ 8) with 256. lia. }
  repeat split; try assumption.
  - rewrite (lzh_calculate_chunk_run f start Hav). fold header. now rewrite Hsize.
  - intros Hb. rewrite Hsize, Hpair, Hb. reflexivity.
Qed.

Lemma lzh_level2_header_size_witness :
  LZHHandler.real_header_size
    (header_at LZHHandler.HEADER_STRUCT LITTLE lzh_level2_sample) = 0x0105
  /\ LZHHandler.calculate_chunk 0 lzh_level2_sample =
       Ok (Some (mkValidChunk 0 264)) (at_pos lzh_level2_sample 29).
Proof.
  assert (Hav : available 21 lzh_level2_sample) by (unfold available; simpl; lia).
  assert (Hlevel : field (header_at LZHHandler.HEADER_STRUCT LITTLE lzh_level2_sample)
                         "level_identifier" = 2) by reflexivity.
  destruct (lzh_level2_header_size lzh_level2_sample 0 Hav Hlevel)
    as (_ & _ & _ & _ & Hrun & Hbytes).
  split; [apply Hbytes; reflexivity | rewrite Hrun; reflexivity].
Defined.

(** C5: the end of the chunk that the calculator builds is the end of
    the data when the computed end is exactly one byte short of it, and
    the computed end, unchanged, for any other gap; the chunk is returned
    with that end when it is not empty, and the calculator fails with the
    format error when it is. *)
Theorem lzh_trailing_null_absorbed (f : File) (start : Z) :
  available 21 f ->
  let header := header_at LZHHandler.HEADER_STRUCT LITTLE f in
  let computed := Z.of_nat (pos f) + LZHHandler.real_header_size header
                  + field header "compressed_size" in
  exists e,
    (source_length f - computed = 1 -> e = source_length f)
    /\ (source_length f - computed <> 1 -> e = computed)
    /\ (start < e ->
        exists c f',
          LZHHandler.calculate_chunk start f = Ok (Some c) f'
          /\ start_offset c = start
          /\ end_offset c = e)
    /\ (e <= start ->
        LZHHandler.calculate_chunk start f = Raise InvalidInputFormat).
Proof.
  intros Hav header computed.
  pose proof (lzh_calculate_chunk_run f start Hav) as Hrun.
  cbv zeta in Hrun. fold header in Hrun. fold computed in Hrun.
  exists (absorb_terminator (source_length f) computed).
  split; [|split; [|split]].
  - intros H. unfold absorb_terminator.
    destruct (Z.eqb_spec (source_length f - computed) 1); congruence.
  - intros H. unfold absorb_terminator.
    destruct (Z.eqb_spec (source_length f - computed) 1); congruence.
  - intros H. eexists _, _. split; [rewrite Hrun; now apply built_nonempty|].
    split; reflexivity.
  - intros H. rewrite Hrun. now apply built_empty.
Qed.

Lemma lzh_trailing_null_absorbed_witness :
  exists c f',
    LZHHandler.calculate_chunk 0 lzh_level0_sample = Ok (Some c) f'
    /\ start_offset c = 0
    /\ end_offset c = 29.
Proof.
  assert (Hav : available 21 lzh_level0_sample) by (unfold available; simpl; lia).
  destruct (lzh_trailing_null_absorbed lzh_level0_sample 0 Hav)
    as (e & Habsorb & _ & Hchunk & _).
  assert (He : e = 29) by (rewrite Habsorb; reflexivity).
  destruct Hchunk as (c & f' & Hrun & Hs & Hend); [lia|].
  exists c, f'. repeat split; [exact Hrun | exact Hs | congruence].
Defined.

(** C6: for level_identifier 0 or 1 the real header size is
    header_size + 2 and the computed end is
    start + real header size + compressed_size; the result is a function
    of the header bytes, the cursor and the length of the data alone. *)
Theorem lzh_level01_end_offset (f : File) (start : Z) :
  available 21 f ->
  Z.of_nat (pos f) = start ->
  let header := header_at LZHHandler.HEADER_STRUCT LITTLE f in
  field header "level_identifier" = 0 \/ field header "level_identifier" = 1 ->
  let real_size := field header "header_size" + 2 in
  LZHHandler.real_header_size header = real_size
  /\ LZHHandler.calculate_chunk start f =
       Ok (Some (mkValidChunk start
                   (absorb_terminator (source_length f)
                      (start + real_size + field header "compressed_size"))))
          (at_pos f (length (content f)))
  /\ (forall g : File,
        pos g = pos f -> length (content g) = length (content f) ->
        peek 21 g = peek 21 f ->
        returns (LZHHandler.calculate_chunk start g)
                (Some (mkValidChunk start
                         (absorb_terminator (source_length f)
                            (start + real_size + field header "compressed_size"))))).
Proof.
  intros Hav Hpos header Hlevel real_size.
  assert (Hsize : LZHHandler.real_header_size header = real_size).
  { unfold LZHHandler.real_header_size, LZHHandler.PADDING_LEN.
    destruct Hlevel as [-> | ->]; reflexivity. }
  assert (Hne : start < absorb_terminator (source_length f)
                         (start + real_size + field header "compressed_size")).
  { pose proof (absorb_terminator_ge (source_length f)
                  (start + real_size + field header "compressed_size")).
    assert (0 <= field header "header_size") by apply field_nonneg.
    assert (0 <= field header "compressed_size") by apply field_nonneg.
    unfold real_size in *. lia. }
  split; [exact Hsize|]. split.
  - rewrite (lzh_calculate_chunk_run f start Hav). fold header.
    rewrite Hsize, Hpos. now apply built_nonempty.
  - intros g Hp Hl Hpeek.
    assert (Hg : available 21 g) by (unfold available in *; lia).
    eexists. rewrite (lzh_calculate_chunk_run g start Hg).
    assert (Hh : header_at LZHHandler.HEADER_STRUCT LITTLE g = header)
      by (unfold header, header_at; change (layout_size LZHHandler.HEADER_STRUCT) with 21%nat;
          now rewrite Hpeek).
    rewrite Hh, Hsize, Hp, Hpos. unfold source_length. rewrite Hl.
    now apply built_nonempty.
Qed.

Lemma lzh_level01_end_offset_witness :
  LZHHandler.calculate_chunk 2 lzh_level1_sample =
    Ok (Some (mkValidChunk 2 30)) (at_pos lzh_level1_sample 43).
Proof.
  assert (Hav : available 21 lzh_level1_sample) by (unfold available; simpl; lia).
  destruct (lzh_level01_end_offset lzh_level1_sample 2 Hav eq_refl (or_intror eq_refl))
    as (_ & Hrun & _).
  rewrite Hrun. reflexivity.
Defined.

(* ================================================================== *)
(** ** NTFS *)
(* ================================================================== *)

Lemma ntfs_calculate_chunk_run f start :
  available 512 f ->
  let header := header_at NTFSHandler.HEADER_STRUCT LITTLE f in
  let fsize := field header "total_sectors" * field header "bytes_per_sector" in
  NTFSHandler.calculate_chunk start f =
    Ok (if fsize =? 0 then None
        else Some (mkValidChunk start (start + 512 + fsize)))
       (at_pos f (pos f + 512)).
Proof.
  intros Hav header fsize. unfold NTFSHandler.calculate_chunk.
  rewrite (bind_Ok _ _ _ _ _ (parse_header_available NTFSHandler.HEADER_STRUCT LITTLE f Hav)).
  fold header. fold fsize.
  change (layout_size NTFSHandler.HEADER_STRUCT) with 512%nat.
  destruct (fsize =? 0); [reflexivity|].
  rewrite make_chunk_built. apply built_nonempty.
  assert (0 <= field header "total_sectors") by apply field_nonneg.
  assert (0 <= field header "bytes_per_sector") by apply field_nonneg.
  change (Z.of_nat 512) with 512. unfold fsize. nia.
Qed.

(** C7: when the boot sector parses, the calculator returns no chunk
    exactly when total_sectors * bytes_per_sector is 0, and otherwise a
    chunk that ends at start + header length + that product; the two
    factors are the little-endian fields at offsets 0x28 and 0x0B. *)
Theorem ntfs_chunk_iff_nonzero_volume (f : File) (start : Z) :
  available 512 f ->
  let header := header_at NTFSHandler.HEADER_STRUCT LITTLE f in
  let fsize := field header "total_sectors" * field header "bytes_per_sector" in
  (returns (NTFSHandler.calculate_chunk start f) None <-> fsize = 0)
  /\ (fsize <> 0 ->
      returns (NTFSHandler.calculate_chunk start f)
              (Some (mkValidChunk start
                       (start + Z.of_nat (layout_size NTFSHandler.HEADER_STRUCT) + fsize))))
  /\ (field header "total_sectors" = 0 ->
      returns (NTFSHandler.calculate_chunk start f) None)
  /\ field header "total_sectors" = decode_uint LITTLE (slice 40 8 f)
  /\ field header "bytes_per_sector" = decode_uint LITTLE (slice 11 2 f).
Proof.
  intros Hav header fsize.
  pose proof (ntfs_calculate_chunk_run f start Hav) as Hrun.
  cbv zeta in Hrun. fold header in Hrun. fold fsize in Hrun.
  change (Z.of_nat (layout_size NTFSHandler.HEADER_STRUCT)) with 512.
  repeat split.
  - intros [f' H]. rewrite Hrun in H.
    destruct (Z.eqb_spec fsize 0); [assumption | discriminate].
  - intros H0. eexists. rewrite Hrun, H0. reflexivity.
  - intros Hne. eexists. rewrite Hrun.
    destruct (Z.eqb_spec fsize 0); [contradiction | reflexivity].
  - intros H0. eexists. rewrite Hrun. unfold fsize. rewrite H0. reflexivity.
  - apply (field_header_at _ LITTLE f "total_sectors" 40 8); [reflexivity | simpl; lia].
  - apply (field_header_at _ LITTLE f "bytes_per_sector" 11 2); [reflexivity | simpl; lia].
Qed.

Lemma ntfs_chunk_iff_nonzero_volume_witness :
  returns (NTFSHandler.calculate_chunk 0 (ntfs_sample x03))
          (Some (mkValidChunk 0 2048))
  /\ returns (NTFSHandler.calculate_chunk 0 (ntfs_sample x00)) None.
Proof.
  assert (Hav : forall b, available 512 (ntfs_sample b))
    by (intros b; unfold available; simpl; lia).
  split.
  - destruct (ntfs_chunk_iff_nonzero_volume (ntfs_sample x03) 0 (Hav x03))
      as (_ & Hchunk & _).
    apply Hchunk. vm_compute. discriminate.
  - destruct (ntfs_chunk_iff_nonzero_volume (ntfs_sample x00) 0 (Hav x00))
      as (_ & _ & Hzero & _).
    apply Hzero. reflexivity.
Defined.

(* ================================================================== *)
(** ** UBIFS *)
(* ================================================================== *)

Lemma at_pos_same f : at_pos f (pos f) = f.
Proof. destruct f; reflexivity. Qed.

Lemma le_uint_le_bytes n : forall v, le_uint (le_bytes n v) = v mod 256 ^ Z.of_nat n.
Proof.
  induction n as [|n IH]; intros v.
  - simpl. now rewrite Z.mod_1_r.
  - cbn [le_bytes].
    assert (Hr : 0 <= v mod 256 < 256) by (apply Z.mod_pos_bound; lia).
    destruct (Byte.of_N (Z.to_N (v mod 256))) as [b|] eqn:E.
    + cbn [le_uint]. rewrite IH. unfold byte_val.
      rewrite (Byte.to_of_N _ E), Z2N.id by lia.
      rewrite Nat2Z.inj_succ, Z.pow_succ_r by lia.
      rewrite Z.rem_mul_r by (try apply Z.pow_pos_nonneg; lia). reflexivity.
    + apply Byte.of_N_None_iff in E. lia.
Qed.

(** Decoding undoes encoding in the same byte order. *)
Lemma decode_encode_uint e n v :
  0 <= v < 256 ^ Z.of_nat n -> decode_uint e (encode_uint e n v) = v.
Proof.
  intros Hv. destruct e; simpl; [|rewrite rev_involutive];
    rewrite le_uint_le_bytes; now apply Z.mod_small.
Qed.

Lemma get_endian_run f :
  FileUtils.get_endian UBIFSHandler._BIG_ENDIAN_MAGIC f = Ok (chosen_endian f) f.
Proof.
  unfold FileUtils.get_endian.
  rewrite (bind_Ok _ _ _ _ _ (read_spec 4 f)).
  rewrite (bind_Ok _ _ _ tt f).
  2:{ rewrite seek_cur_nonneg by (cbn [pos at_pos]; lia).
      destruct f as [bytes p]. unfold at_pos. cbn [pos content].
      do 2 f_equal. lia. }
  unfold chosen_endian.
  destruct (_ =? _); [reflexivity|]. destruct (_ =? _); reflexivity.
Qed.

Lemma ubifs_calculate_chunk_run f start :
  available (layout_size UBIFSHandler.HEADER_STRUCT) f ->
  let sb_header := header_at UBIFSHandler.HEADER_STRUCT (chosen_endian f) f in
  UBIFSHandler.calculate_chunk start f =
    built start (start + field sb_header "leb_size" * field sb_header "leb_cnt")
          (at_pos f (pos f + layout_size UBIFSHandler.HEADER_STRUCT)).
Proof.
  intros Hav sb_header. unfold UBIFSHandler.calculate_chunk.
  rewrite (bind_Ok _ _ _ _ _ (get_endian_run f)).
  rewrite (bind_Ok _ _ _ _ _ (parse_header_available _ (chosen_endian f) f Hav)).
  apply make_chunk_built.
Qed.

Lemma ubifs_length_nonneg e f :
  0 <= field (header_at UBIFSHandler.HEADER_STRUCT e f) "leb_size"
       * field (header_at UBIFSHandler.HEADER_STRUCT e f) "leb_cnt".
Proof. apply Z.mul_nonneg_nonneg; apply field_nonneg. Qed.

Lemma ubifs_field_u32 e f name off :
  field_offset name UBIFSHandler.HEADER_STRUCT = Some (off, UInt 4) ->
  (off + 4 <=? layout_size UBIFSHandler.HEADER_STRUCT)%nat = true ->
  field (header_at UBIFSHandler.HEADER_STRUCT e f) name = decode_uint e (slice off 4 f).
Proof.
  intros H Hle. apply field_header_at; [exact H | now apply Nat.leb_le].
Qed.

(** Availability of a header in a concrete file, by computation. *)
Ltac available_by_computation :=
  unfold available; apply Nat.leb_le; vm_compute; reflexivity.

(** C10: the UBIFS calculator has no rejection path of its own, yet it
    fails on a zero geometry.  Whenever a whole superblock can be read at
    the cursor it does not return nothing; when leb_size * leb_cnt is not
    0 it returns the chunk of that length; when the product is 0 the
    chunk would be empty, it is refused at its creation and the
    calculator fails with the format error, the only error it can fail
    with. *)
Theorem ubifs_rejects_only_empty_chunk (f : File) (start : Z) :
  available (layout_size UBIFSHandler.HEADER_STRUCT) f ->
  let sb_header := header_at UBIFSHandler.HEADER_STRUCT (chosen_endian f) f in
  let ubifs_length := field sb_header "leb_size" * field sb_header "leb_cnt" in
  ~ returns (UBIFSHandler.calculate_chunk start f) None
  /\ UBIFSHandler.calculate_chunk start f <> OutOfFuel
  /\ (ubifs_length <> 0 ->
      returns (UBIFSHandler.calculate_chunk start f)
              (Some (mkValidChunk start (start + ubifs_length))))
  /\ (ubifs_length = 0 ->
      UBIFSHandler.calculate_chunk start f = Raise InvalidInputFormat)
  /\ (forall e, UBIFSHandler.calculate_chunk start f = Raise e ->
                e = InvalidInputFormat /\ ubifs_length = 0).
Proof.
  intros Hav sb_header ubifs_length.
  pose proof (ubifs_calculate_chunk_run f start Hav) as Hrun.
  cbv zeta in Hrun. fold sb_header in Hrun. fold ubifs_length in Hrun.
  assert (Hnn : 0 <= ubifs_length) by apply ubifs_length_nonneg.
  unfold built in Hrun.
  destruct (Z.ltb_spec start (start + ubifs_length)) as [Hlt|Hge];
    rewrite Hrun; (split; [|split; [|split; [|split]]]).
  - intros [f' H]. discriminate.
  - discriminate.
  - intros _. eexists. reflexivity.
  - intros H0. lia.
  - intros e H. discriminate.
  - intros [f' H]. discriminate.
  - discriminate.
  - intros Hne. lia.
  - reflexivity.
  - intros e H. injection H as <-. split; [reflexivity | lia].
Qed.

Lemma ubifs_rejects_only_empty_chunk_witness :
  returns (UBIFSHandler.calculate_chunk 7 (ubifs_sample LITTLE 0x1f000 0x40))
          (Some (mkValidChunk 7 (7 + 0x7c0000)))
  /\ UBIFSHandler.calculate_chunk 7 (ubifs_sample LITTLE 0 5) = Raise InvalidInputFormat.
Proof.
  split.
  - assert (Hav : available (layout_size UBIFSHandler.HEADER_STRUCT)
                           (ubifs_sample LITTLE 0x1f000 0x40)) by available_by_computation.
    destruct (ubifs_rejects_only_empty_chunk (ubifs_sample LITTLE 0x1f000 0x40) 7 Hav)
      as (_ & _ & Hchunk & _).
    apply Hchunk. vm_compute. discriminate.
  - assert (Hav : available (layout_size UBIFSHandler.HEADER_STRUCT)
                           (ubifs_sample LITTLE 0 5)) by available_by_computation.
    destruct (ubifs_rejects_only_empty_chunk (ubifs_sample LITTLE 0 5) 7 Hav)
      as (_ & _ & _ & Hzero & _).
    apply Hzero. vm_compute. reflexivity.
Defined.

(** C10 as stated fails: a readable superblock with leb_size 0 and five
    erase blocks, found at offset 7, gives no chunk from 7 to 7; the
    calculator fails with the format error. *)
Lemma ubifs_no_rejection_path_counterexample :
  available (layout_size UBIFSHandler.HEADER_STRUCT) (ubifs_sample LITTLE 0 5)
  /\ field (header_at UBIFSHandler.HEADER_STRUCT LITTLE (ubifs_sample LITTLE 0 5)) "leb_size"
     * field (header_at UBIFSHandler.HEADER_STRUCT LITTLE (ubifs_sample LITTLE 0 5)) "leb_cnt"
     = 0
  /\ UBIFSHandler.calculate_chunk 7 (ubifs_sample LITTLE 0 5) = Raise InvalidInputFormat
  /\ ~ returns (UBIFSHandler.calculate_chunk 7 (ubifs_sample LITTLE 0 5))
               (Some (mkValidChunk 7 7)).
Proof.
  split; [available_by_computation|].
  split; [vm_compute; reflexivity|].
  split; [vm_compute; reflexivity|].
  intros [f' H]. vm_compute in H. discriminate.
Qed.

(** C9: the byte order is the one in which the four bytes at the
    candidate offset read as the superblock magic: the big-endian
    constant gives big-endian decoding, its byte-reversed form gives
    little-endian decoding; leb_size and leb_cnt are decoded in that
    order, so that both encodings of the same two values give a chunk
    with end_offset - start_offset = leb_size * leb_cnt: every chunk
    returned has that length, and one is returned unless the product is
    0, where the chunk would be empty and the calculator fails with the
    format error. *)
Theorem ubifs_length_in_either_byte_order
    (e : Endian) (f : File) (start leb_size leb_cnt : Z) :
  available (layout_size UBIFSHandler.HEADER_STRUCT) f ->
  slice 0 4 f = encode_uint e 4 UBIFSHandler._BIG_ENDIAN_MAGIC ->
  slice 36 4 f = encode_uint e 4 leb_size ->
  slice 40 4 f = encode_uint e 4 leb_cnt ->
  0 <= leb_size < 2 ^ 32 ->
  0 <= leb_cnt < 2 ^ 32 ->
  returns (FileUtils.get_endian UBIFSHandler._BIG_ENDIAN_MAGIC f) e
  /\ (let sb_header := header_at UBIFSHandler.HEADER_STRUCT e f in
      field sb_header "ch.magic" = UBIFSHandler._BIG_ENDIAN_MAGIC
      /\ field sb_header "leb_size" = leb_size
      /\ field sb_header "leb_cnt" = leb_cnt)
  /\ (leb_size * leb_cnt <> 0 ->
      exists c,
        returns (UBIFSHandler.calculate_chunk start f) (Some c)
        /\ start_offset c = start
        /\ end_offset c - start_offset c = leb_size * leb_cnt)
  /\ (forall c,
        returns (UBIFSHandler.calculate_chunk start f) (Some c) ->
        start_offset c = start
        /\ end_offset c - start_offset c = leb_size * leb_cnt)
  /\ (leb_size * leb_cnt = 0 ->
      UBIFSHandler.calculate_chunk start f = Raise InvalidInputFormat).
Proof.
  intros Hav Hmagic Hsize Hcnt Hs Hc.
  assert (Hpeek : peek 4 f = slice 0 4 f)
    by (unfold peek, slice; now rewrite Nat.add_0_r).
  assert (He : chosen_endian f = e).
  { unfold chosen_endian. rewrite Hpeek, Hmagic. now destruct e. }
  assert (Hfields :
    field (header_at UBIFSHandler.HEADER_STRUCT e f) "ch.magic" = UBIFSHandler._BIG_ENDIAN_MAGIC
    /\ field (header_at UBIFSHandler.HEADER_STRUCT e f) "leb_size" = leb_size
    /\ field (header_at UBIFSHandler.HEADER_STRUCT e f) "leb_cnt" = leb_cnt).
  { rewrite (ubifs_field_u32 e f "ch.magic" 0) by reflexivity.
    rewrite (ubifs_field_u32 e f "leb_size" 36) by reflexivity.
    rewrite (ubifs_field_u32 e f "leb_cnt" 40) by reflexivity.
    rewrite Hmagic, Hsize, Hcnt.
    change (2 ^ 32) with (256 ^ Z.of_nat 4) in Hs, Hc.
    rewrite !decode_encode_uint; auto.
    unfold UBIFSHandler._BIG_ENDIAN_MAGIC. simpl; lia. }
  assert (Hrun : UBIFSHandler.calculate_chunk start f
                 = built start (start + leb_size * leb_cnt)
                         (at_pos f (pos f + layout_size UBIFSHandler.HEADER_STRUCT))).
  { destruct Hfields as (_ & Hls & Hlc).
    now rewrite (ubifs_calculate_chunk_run f start Hav), He, Hls, Hlc. }
  assert (Hnn : 0 <= leb_size * leb_cnt) by (apply Z.mul_nonneg_nonneg; lia).
  split; [|split; [|split; [|split]]].
  - exists f. rewrite get_endian_run. now rewrite He.
  - exact Hfields.
  - intros Hne. eexists. split; [|split].
    + eexists. rewrite Hrun. apply built_nonempty. lia.
    + reflexivity.
    + cbn [start_offset end_offset]. lia.
  - intros c [f' H]. rewrite Hrun in H.
    apply built_inversion in H. destruct H as (-> & _ & _).
    cbn [start_offset end_offset]. lia.
  - intros H0. rewrite Hrun. apply built_empty. lia.
Qed.

Lemma ubifs_length_in_either_byte_order_witness :
  (exists c, returns (UBIFSHandler.calculate_chunk 16 (ubifs_sample LITTLE 0x1f000 0x40)) (Some c)
             /\ start_offset c = 16
             /\ end_offset c - start_offset c = 0x1f000 * 0x40)
  /\ (exists c, returns (UBIFSHandler.calculate_chunk 16 (ubifs_sample BIG 0x1f000 0x40)) (Some c)
                /\ start_offset c = 16
                /\ end_offset c - start_offset c = 0x1f000 * 0x40).
Proof.
  split.
  - apply (ubifs_length_in_either_byte_order LITTLE (ubifs_sample LITTLE 0x1f000 0x40) 16);
      [available_by_computation | reflexivity | reflexivity | reflexivity | lia | lia | lia].
  - apply (ubifs_length_in_either_byte_order BIG (ubifs_sample BIG 0x1f000 0x40) 16);
      [available_by_computation | reflexivity | reflexivity | reflexivity | lia | lia | lia].
Defined.

(* ================================================================== *)
(** ** UBI *)
(* ================================================================== *)

Lemma bytes_eqb_eq a b : bytes_eqb a b = true <-> a = b.
Proof.
  unfold bytes_eqb. destruct (list_eq_dec Byte.byte_eq_dec a b); split; congruence.
Qed.

Lemma starts_with_firstn pattern : forall data,
  FileUtils.starts_with pattern data = true <-> firstn (length pattern) data = pattern.
Proof.
  induction pattern as [|p ps IH]; intros [|d ds]; simpl; try (split; congruence).
  rewrite andb_true_iff, IH. split.
  - intros [Hb Ht]. apply Byte.byte_dec_bl in Hb. congruence.
  - intros H. injection H as -> Ht. split; [now apply Byte.byte_dec_lb | exact Ht].
Qed.

Lemma find_from_In pattern : forall data off z,
  In z (FileUtils.find_from pattern data off) <->
  exists i, z = Z.of_nat (off + i) /\ (i < length data)%nat
            /\ FileUtils.starts_with pattern (skipn i data) = true.
Proof.
  induction data as [|d ds IH]; intros off z.
  - simpl. split; [tauto | intros (i & _ & Hi & _); simpl in Hi; lia].
  - cbn [FileUtils.find_from].
    assert (Hrest : In z (FileUtils.find_from pattern ds (S off)) <->
                    exists i, z = Z.of_nat (off + S i) /\ (S i < length (d :: ds))%nat
                              /\ FileUtils.starts_with pattern (skipn (S i) (d :: ds)) = true).
    { rewrite IH. split; intros (i & Hz & Hi & Hs); exists i; simpl in *;
        (split; [lia | split; [lia | exact Hs]]). }
    destruct (FileUtils.starts_with pattern (d :: ds)) eqn:E.
    + cbn [In]. rewrite Hrest. split.
      * intros [<- | (i & Hz & Hi & Hs)].
        -- exists 0%nat. rewrite Nat.add_0_r. simpl. repeat split; [lia | exact E].
        -- exists (S i). auto.
      * intros ([|i] & Hz & Hi & Hs).
        -- left. rewrite Nat.add_0_r in Hz. congruence.
        -- right. exists i. auto.
    + rewrite Hrest. split.
      * intros (i & H). exists (S i). exact H.
      * intros ([|i] & Hz & Hi & Hs).
        -- simpl in Hs. congruence.
        -- exists i. auto.
Qed.

(** The scan finds exactly the offsets whose window holds the marker. *)
Lemma occurrences_marker_at f z : In z (occurrences f) <-> marker_at f z = true.
Proof.
  unfold occurrences, marker_at, peek, at_pos. cbn [pos content].
  rewrite find_from_In, andb_true_iff, bytes_eqb_eq. split.
  - intros (i & -> & Hi & Hs). rewrite Nat.add_0_l, Nat2Z.id.
    split; [apply Z.leb_le; lia|].
    now apply (starts_with_firstn UBIHandler._UBI_EC_HEADER).
  - intros [Hz Hw]. apply Z.leb_le in Hz.
    exists (Z.to_nat z). split; [simpl; lia|].
    assert (Hs : FileUtils.starts_with UBIHandler._UBI_EC_HEADER
                   (skipn (Z.to_nat z) (content f)) = true)
      by now apply (starts_with_firstn UBIHandler._UBI_EC_HEADER).
    split; [|exact Hs].
    destruct (Nat.lt_ge_cases (Z.to_nat z) (length (content f))) as [Hlt|Hge]; [exact Hlt|].
    rewrite skipn_all2 in Hs by exact Hge. discriminate.
Qed.

Lemma find_from_lower_bound pattern data off z :
  In z (FileUtils.find_from pattern data off) -> Z.of_nat off <= z.
Proof. rewrite find_from_In. intros (i & -> & _). lia. Qed.

(** Offsets come in increasing order: every interval is positive. *)
Lemma find_from_intervals_positive pattern : forall data off,
  Forall (fun d => 0 < d)
         (IterUtils.get_intervals (FileUtils.find_from pattern data off)).
Proof.
  induction data as [|d ds IH]; intros off; cbn [FileUtils.find_from]; [constructor|].
  destruct (FileUtils.starts_with pattern (d :: ds)); [|apply IH].
  cbn [IterUtils.get_intervals].
  destruct (FileUtils.find_from pattern ds (S off)) as [|b r] eqn:E; [constructor|].
  constructor; [|rewrite <- E; apply IH].
  assert (Hb : Z.of_nat (S off) <= b)
    by (apply (find_from_lower_bound pattern ds); rewrite E; now left).
  lia.
Qed.

Lemma get_intervals_short values :
  (length values < 2)%nat -> IterUtils.get_intervals values = [].
Proof. destruct values as [|a [|b r]]; simpl; [reflexivity | reflexivity | lia]. Qed.

Lemma get_intervals_long values :
  (2 <= length values)%nat -> IterUtils.get_intervals values <> [].
Proof. destruct values as [|a [|b r]]; simpl; [lia | lia | discriminate]. Qed.

Lemma get_intervals_length : forall values,
  length (IterUtils.get_intervals values) = (length values - 1)%nat.
Proof.
  induction values as [|a [|b r] IH]; [reflexivity | reflexivity |].
  change (IterUtils.get_intervals (a :: b :: r))
    with ((b - a) :: IterUtils.get_intervals (b :: r)).
  cbn [length] in *. rewrite IH. lia.
Qed.

(** The [i]-th interval is the distance from the [i]-th value to the next. *)
Lemma get_intervals_nth : forall values i,
  (S i < length values)%nat ->
  nth i (IterUtils.get_intervals values) 0 = nth (S i) values 0 - nth i values 0.
Proof.
  induction values as [|a [|b r] IH]; intros i Hi; cbn [length] in Hi; try lia.
  change (IterUtils.get_intervals (a :: b :: r))
    with ((b - a) :: IterUtils.get_intervals (b :: r)).
  destruct i as [|i]; [reflexivity|].
  change (nth (S i) ((b - a) :: IterUtils.get_intervals (b :: r)) 0)
    with (nth i (IterUtils.get_intervals (b :: r)) 0).
  rewrite IH by (cbn [length]; lia). reflexivity.
Qed.

Lemma get_intervals_cons2 a b r :
  IterUtils.get_intervals (a :: b :: r) = (b - a) :: IterUtils.get_intervals (b :: r).
Proof. reflexivity. Qed.

Lemma get_intervals_every step N : forall k start,
  IterUtils.get_intervals
    (map (fun i => start + Z.of_nat i * step) (seq k (S N))) = repeat step N.
Proof.
  induction N as [|N IH]; intros k start; [reflexivity|].
  specialize (IH (S k) start).
  cbn [seq map] in IH |- *. rewrite get_intervals_cons2, IH.
  cbn [repeat]. f_equal. lia.
Qed.

(** [statistics.mode] returns an element that no other value outnumbers. *)
Lemma fold_more_common data : forall rest x,
  let m := fold_left (Statistics.more_common data) rest x in
  (m = x \/ In m rest)
  /\ (Statistics.count x data <= Statistics.count m data)%nat
  /\ forall y, In y rest -> (Statistics.count y data <= Statistics.count m data)%nat.
Proof.
  induction rest as [|y rest IH]; intros x; cbn [fold_left].
  - repeat split; [now left | lia | intros y []].
  - assert (Hstep : (Statistics.more_common data x y = x
                     \/ Statistics.more_common data x y = y)
                    /\ (Statistics.count x data
                        <= Statistics.count (Statistics.more_common data x y) data)%nat
                    /\ (Statistics.count y data
                        <= Statistics.count (Statistics.more_common data x y) data)%nat).
    { unfold Statistics.more_common.
      destruct (Nat.ltb_spec (Statistics.count x data) (Statistics.count y data));
        repeat split; auto; lia. }
    destruct Hstep as (Hxy & Hx & Hy).
    destruct (IH (Statistics.more_common data x y)) as (Hin & Hge & Hall).
    repeat split.
    + destruct Hin as [-> | Hin]; [|right; now right].
      destruct Hxy as [-> | ->]; [now left | right; now left].
    + lia.
    + intros z [<- | Hz]; [lia | now apply Hall].
Qed.

Lemma mode_most_common data m :
  Statistics.mode data = Some m ->
  In m data /\ forall y, (Statistics.count y data <= Statistics.count m data)%nat.
Proof.
  destruct data as [|x rest]; [discriminate|]. cbn [Statistics.mode].
  intros H. injection H as <-.
  destruct (fold_more_common (x :: rest) rest x) as (Hin & Hge & Hall).
  split; [destruct Hin as [-> | Hin]; [now left | now right]|].
  intros y. destruct (in_dec Z.eq_dec y (x :: rest)) as [Hy | Hy].
  - destruct Hy as [<- | Hy]; [exact Hge | now apply Hall].
  - unfold Statistics.count at 1.
    apply (count_occ_not_In Z.eq_dec) in Hy. rewrite Hy. lia.
Qed.

Lemma mode_nonempty data : data <> [] -> exists m, Statistics.mode data = Some m.
Proof. destruct data; [congruence | eexists; reflexivity]. Qed.

Lemma marker_at_at_pos f p z : marker_at (at_pos f p) z = marker_at f z.
Proof. reflexivity. Qed.

Lemma marker_at_cursor f :
  marker_at f (Z.of_nat (pos f)) = bytes_eqb (peek 4 f) UBIHandler._UBI_EC_HEADER.
Proof.
  unfold marker_at. rewrite Nat2Z.id, at_pos_same.
  destruct (Z.leb_spec 0 (Z.of_nat (pos f))); [reflexivity | lia].
Qed.

Lemma marker_at_inside f z :
  marker_at f z = true -> 0 <= z /\ z + 4 <= source_length f.
Proof.
  unfold marker_at. rewrite andb_true_iff, bytes_eqb_eq. intros [Hz Hw].
  apply Z.leb_le in Hz. split; [exact Hz|].
  apply (f_equal (@length byte)) in Hw. unfold peek, at_pos in Hw.
  cbn [pos content] in Hw. rewrite length_firstn, length_skipn in Hw.
  change (length UBIHandler._UBI_EC_HEADER) with 4%nat in Hw.
  unfold source_length. lia.
Qed.

Lemma walk_ubi_stop fuel peb_size f :
  marker_at f (Z.of_nat (pos f)) = false ->
  returns (UBIHandler._walk_ubi (S fuel) peb_size f) (Z.of_nat (pos f)).
Proof.
  rewrite marker_at_cursor. intros Hm. cbn [UBIHandler._walk_ubi].
  rewrite (bind_Ok _ _ _ _ _ (tell_spec f)).
  rewrite (bind_Ok _ _ _ _ _ (read_spec _ f)).
  change (length UBIHandler._UBI_EC_HEADER) with 4%nat. rewrite Hm.
  rewrite orb_true_r. eexists. reflexivity.
Qed.

Lemma walk_ubi_step fuel peb_size f :
  marker_at f (Z.of_nat (pos f)) = true ->
  0 <= Z.of_nat (pos f) + peb_size ->
  UBIHandler._walk_ubi (S fuel) peb_size f =
  UBIHandler._walk_ubi fuel peb_size
    (at_pos f (Z.to_nat (Z.of_nat (pos f) + peb_size))).
Proof.
  rewrite marker_at_cursor. intros Hm Hnn. cbn [UBIHandler._walk_ubi].
  rewrite (bind_Ok _ _ _ _ _ (tell_spec f)).
  rewrite (bind_Ok _ _ _ _ _ (read_spec _ f)).
  change (length UBIHandler._UBI_EC_HEADER) with 4%nat. rewrite Hm.
  apply bytes_eqb_eq in Hm. rewrite Hm. cbn [bytes_eqb negb orb].
  change (bytes_eqb UBIHandler._UBI_EC_HEADER []) with false. cbn [orb].
  rewrite (bind_Ok _ _ _ _ _ (seek_nonneg _ _ Hnn)). reflexivity.
Qed.

(** The walk: with a positive stride and one iteration per byte left in
    the source (and one more) the loop ends; it returns the first offset
    cursor + n * stride whose window does not hold the marker. *)
Lemma walk_ubi_spec peb_size :
  0 < peb_size ->
  forall fuel f,
    (length (content f) - pos f < fuel)%nat ->
    exists n,
      returns (UBIHandler._walk_ubi fuel peb_size f)
              (Z.of_nat (pos f) + Z.of_nat n * peb_size)
      /\ (forall i, (i < n)%nat ->
                    marker_at f (Z.of_nat (pos f) + Z.of_nat i * peb_size) = true)
      /\ marker_at f (Z.of_nat (pos f) + Z.of_nat n * peb_size) = false.
Proof.
  intros Hpeb. induction fuel as [|fuel IH]; intros f Hfuel; [lia|].
  destruct (marker_at f (Z.of_nat (pos f))) eqn:Hm.
  - pose proof (marker_at_inside f _ Hm) as [_ Hin]. unfold source_length in Hin.
    set (f2 := at_pos f (Z.to_nat (Z.of_nat (pos f) + peb_size))).
    assert (Hp2 : Z.of_nat (pos f2) = Z.of_nat (pos f) + peb_size)
      by (unfold f2, at_pos; cbn [pos]; lia).
    destruct (IH f2) as (n & Hret & Hall & Hstop).
    { unfold f2, at_pos. cbn [pos content]. lia. }
    exists (S n). rewrite walk_ubi_step by (try exact Hm; lia). fold f2.
    rewrite Hp2 in Hret, Hall, Hstop.
    replace (Z.of_nat (pos f) + Z.of_nat (S n) * peb_size)
      with (Z.of_nat (pos f) + peb_size + Z.of_nat n * peb_size) by lia.
    split; [exact Hret|]. split; [|exact Hstop].
    intros [|i] Hi.
    + now rewrite Z.mul_0_l, Z.add_0_r.
    + replace (Z.of_nat (pos f) + Z.of_nat (S i) * peb_size)
        with (Z.of_nat (pos f) + peb_size + Z.of_nat i * peb_size) by lia.
      apply (Hall i). lia.
  - exists 0%nat. rewrite Z.mul_0_l, Z.add_0_r.
    split; [now apply walk_ubi_stop|]. split; [intros i Hi; lia | exact Hm].
Qed.

Lemma guess_peb_size_none f :
  (length (occurrences f) < 2)%nat ->
  UBIHandler._guess_peb_size f = Raise PEBSizeNotFound.
Proof.
  intros H. unfold UBIHandler._guess_peb_size, FileUtils.iterate_patterns, bind.
  fold (occurrences f). now rewrite (get_intervals_short _ H).
Qed.

Lemma guess_peb_size_mode f :
  (2 <= length (occurrences f))%nat ->
  exists stride,
    Statistics.mode (IterUtils.get_intervals (occurrences f)) = Some stride
    /\ UBIHandler._guess_peb_size f = Ok stride f
    /\ 0 < stride.
Proof.
  intros H. apply get_intervals_long in H.
  destruct (mode_nonempty _ H) as [m Hm]. exists m. split; [exact Hm|]. split.
  - unfold UBIHandler._guess_peb_size, FileUtils.iterate_patterns, bind.
    fold (occurrences f). rewrite Hm.
    destruct (IterUtils.get_intervals (occurrences f)); [congruence | reflexivity].
  - apply mode_most_common in Hm. destruct Hm as [Hin _].
    pose proof (find_from_intervals_positive UBIHandler._UBI_EC_HEADER (content f) 0) as Hpos.
    rewrite Forall_forall in Hpos. now apply Hpos.
Qed.

Lemma ubi_calculate_chunk_none fuel start f :
  (length (occurrences f) < 2)%nat ->
  UBIHandler.calculate_chunk fuel start f = Ok None f.
Proof.
  intros H. unfold UBIHandler.calculate_chunk, bind at 1, try_except, bind at 1.
  now rewrite (guess_peb_size_none f H).
Qed.

Lemma ubi_calculate_chunk_walk fuel start f stride :
  UBIHandler._guess_peb_size f = Ok stride f ->
  0 <= start ->
  UBIHandler.calculate_chunk fuel start f =
    (end_offset <- UBIHandler._walk_ubi fuel stride ;;
     chunk <- make_ValidChunk start end_offset ;;
     ret (Some chunk)) (at_pos f (Z.to_nat start)).
Proof.
  intros Hg Hs. unfold UBIHandler.calculate_chunk, bind at 1, try_except, bind at 1.
  rewrite Hg. unfold ret at 1.
  now rewrite (bind_Ok _ _ _ _ _ (seek_nonneg start f Hs)).
Qed.

Lemma every_In step N start z :
  In z (every step N start) <-> exists i, (i < N)%nat /\ z = start + Z.of_nat i * step.
Proof.
  unfold every. rewrite in_map_iff. split.
  - intros (i & <- & Hi). apply in_seq in Hi. exists i. split; [lia | reflexivity].
  - intros (i & Hi & ->). exists i. split; [reflexivity | apply in_seq; lia].
Qed.

(** C8: the intervals are the distances between each marker occurrence
    and the next.  With fewer than two occurrences in the source there is
    no interval and the UBI calculator returns no chunk.  Otherwise the
    stride is the mode of the intervals (an interval that no other value
    outnumbers), and the walk from the start offset advances by the
    stride while the window holds the marker and ends at the first offset
    where it does not; the chunk to that offset is returned when the walk
    made a step, and when it made none the chunk would be empty and the
    calculator fails with the format error.  When the markers are exactly
    the N >= 2 offsets start, start + step, ..., the chunk ends at
    start + N * step. *)
Theorem ubi_chunk_by_inferred_stride (f : File) (start : Z) (fuel : nat) :
  let offsets := occurrences f in
  let intervals := IterUtils.get_intervals offsets in
  (forall i, (S i < length offsets)%nat ->
             nth i intervals 0 = nth (S i) offsets 0 - nth i offsets 0)
  /\ ((length offsets < 2)%nat ->
     UBIHandler._guess_peb_size f = Raise PEBSizeNotFound
     /\ returns (UBIHandler.calculate_chunk fuel start f) None)
  /\ ((2 <= length offsets)%nat -> 0 <= start ->
      (length (content f) < fuel)%nat ->
      exists stride n,
        returns (UBIHandler._guess_peb_size f) stride
        /\ Statistics.mode intervals = Some stride
        /\ In stride intervals
        /\ (forall d, (Statistics.count d intervals <= Statistics.count stride intervals)%nat)
        /\ ((0 < n)%nat ->
            returns (UBIHandler.calculate_chunk fuel start f)
                    (Some (mkValidChunk start (start + Z.of_nat n * stride))))
        /\ (n = 0%nat ->
            UBIHandler.calculate_chunk fuel start f = Raise InvalidInputFormat)
        /\ (forall i, (i < n)%nat -> marker_at f (start + Z.of_nat i * stride) = true)
        /\ marker_at f (start + Z.of_nat n * stride) = false)
  /\ (forall step N,
        0 < step -> (2 <= N)%nat -> offsets = every step N start ->
        (length (content f) < fuel)%nat ->
        returns (UBIHandler._guess_peb_size f) step
        /\ returns (UBIHandler.calculate_chunk fuel start f)
                   (Some (mkValidChunk start (start + Z.of_nat N * step)))).
Proof.
  intros offsets intervals.
  assert (Hgeneral :
    (2 <= length offsets)%nat -> 0 <= start -> (length (content f) < fuel)%nat ->
    exists stride n,
      returns (UBIHandler._guess_peb_size f) stride
      /\ Statistics.mode intervals = Some stride
      /\ In stride intervals
      /\ (forall d, (Statistics.count d intervals <= Statistics.count stride intervals)%nat)
      /\ ((0 < n)%nat ->
          returns (UBIHandler.calculate_chunk fuel start f)
                  (Some (mkValidChunk start (start + Z.of_nat n * stride))))
      /\ (n = 0%nat ->
          UBIHandler.calculate_chunk fuel start f = Raise InvalidInputFormat)
      /\ (forall i, (i < n)%nat -> marker_at f (start + Z.of_nat i * stride) = true)
      /\ marker_at f (start + Z.of_nat n * stride) = false).
  { intros Hlen Hstart Hfuel.
    destruct (guess_peb_size_mode f Hlen) as (stride & Hmode & Hguess & Hpos).
    destruct (mode_most_common _ _ Hmode) as [Hin Hmost].
    destruct (walk_ubi_spec stride Hpos fuel (at_pos f (Z.to_nat start)))
      as (n & [f' Hwalk] & Hall & Hstop).
    { unfold at_pos. cbn [pos content]. lia. }
    unfold at_pos in Hwalk, Hall, Hstop. cbn [pos] in Hwalk, Hall, Hstop.
    rewrite Z2Nat.id in Hwalk, Hall, Hstop by exact Hstart.
    assert (Hrun : UBIHandler.calculate_chunk fuel start f
                   = built start (start + Z.of_nat n * stride) f').
    { rewrite (ubi_calculate_chunk_walk fuel start f stride Hguess Hstart).
      rewrite (bind_Ok _ _ _ _ _ Hwalk). apply make_chunk_built. }
    exists stride, n.
    split; [exists f; exact Hguess|].
    do 3 (split; [assumption|]).
    split; [|split; [|split; assumption]].
    - intros Hn. exists f'. rewrite Hrun. apply built_nonempty. nia.
    - intros ->. rewrite Hrun. apply built_empty. lia. }
  split; [apply get_intervals_nth|]. split; [|split].
  - intros Hlen. split.
    + now apply guess_peb_size_none.
    + exists f. now apply ubi_calculate_chunk_none.
  - exact Hgeneral.
  - intros step N Hstep HN Hocc Hfuel.
    assert (Hlen : (2 <= length offsets)%nat).
    { rewrite Hocc. unfold every. now rewrite length_map, length_seq. }
    assert (Hmark : forall i, marker_at f (start + Z.of_nat i * step) = true <-> (i < N)%nat).
    { intros i. rewrite <- occurrences_marker_at. fold offsets. rewrite Hocc, every_In.
      split.
      - intros (j & Hj & Heq). assert (i = j) by nia. lia.
      - intros Hi. exists i. auto. }
    assert (Hstart : 0 <= start).
    { assert (H0 : marker_at f (start + Z.of_nat 0 * step) = true) by (apply Hmark; lia).
      apply marker_at_inside in H0. lia. }
    destruct (Hgeneral Hlen Hstart Hfuel)
      as (stride & n & Hguess & Hmode & Hin & _ & Hchunk & _ & Hall & Hstop).
    assert (Hstride : stride = step).
    { unfold intervals in Hin. fold offsets in Hin. rewrite Hocc in Hin. unfold every in Hin.
      destruct N as [|N]; [lia|]. rewrite get_intervals_every in Hin.
      now apply repeat_spec in Hin. }
    subst stride.
    assert (Hn : n = N).
    { destruct (Nat.lt_trichotomy n N) as [Hlt | [Heq | Hgt]]; [|exact Heq|].
      - apply Hmark in Hlt. congruence.
      - specialize (Hall N Hgt). apply Hmark in Hall. lia. }
    subst n. split; [assumption | apply Hchunk; lia].
Qed.

Lemma ubi_chunk_by_inferred_stride_witness :
  returns (UBIHandler.calculate_chunk 64 2 ubi_sample) (Some (mkValidChunk 2 26))
  /\ returns (UBIHandler._guess_peb_size ubi_sample) 8
  /\ returns (UBIHandler.calculate_chunk 64 0 ubi_single_sample) None.
Proof.
  destruct (ubi_chunk_by_inferred_stride ubi_sample 2 64) as (_ & _ & _ & Hregular).
  destruct (Hregular 8 3%nat) as [Hguess Hchunk];
    [lia | lia | reflexivity | simpl; lia |].
  destruct (ubi_chunk_by_inferred_stride ubi_single_sample 0 64) as (_ & Hfew & _).
  destruct Hfew as [_ Hnone]; [simpl; lia|].
  repeat split; assumption.
Defined.

(* ================================================================== *)
(** ** gzip *)
(* ================================================================== *)

Lemma advances_ret {A} (a : A) : advances (ret a).
Proof. intros f a' f' H. injection H as _ <-. auto. Qed.

Lemma advances_raise {A} e : advances (@raise A e).
Proof. intros f a f' H. discriminate. Qed.

Lemma advances_bind {A B} (m : IO A) (k : A -> IO B) :
  advances m -> (forall a, advances (k a)) -> advances (bind m k).
Proof.
  intros Hm Hk f b f' H. unfold bind in H.
  destruct (m f) as [a f1| |] eqn:E; try discriminate.
  destruct (Hm _ _ _ E) as [Hc Hp]. destruct (Hk a _ _ _ H) as [Hc' Hp'].
  split; [congruence | lia].
Qed.

Lemma advances_read n : advances (read n).
Proof.
  intros f a f' H. rewrite read_spec in H. injection H as _ <-.
  unfold at_pos. cbn [pos content]. split; [reflexivity | lia].
Qed.

Lemma advances_read_exact n : advances (GZIPHandler.read_exact n).
Proof.
  unfold GZIPHandler.read_exact. apply advances_bind; [apply advances_read|].
  intros bs. destruct (_ <? _)%nat; [apply advances_raise | apply advances_ret].
Qed.

Lemma advances_skip_zero_terminated : advances GZIPHandler.skip_zero_terminated.
Proof.
  intros f a f' H. unfold GZIPHandler.skip_zero_terminated in H. injection H as _ <-.
  cbn [pos content]. split; [reflexivity | lia].
Qed.

Lemma advances_when b m : advances m -> advances (GZIPHandler.when b m).
Proof. intros H. destruct b; [exact H | apply advances_ret]. Qed.

Create HintDb advances.
#[local] Hint Resolve advances_ret advances_raise advances_read advances_read_exact
  advances_skip_zero_terminated advances_when : advances.

Lemma read_exact_Ok n f bs f' :
  GZIPHandler.read_exact n f = Ok bs f' ->
  bs = peek n f /\ length bs = n /\ f' = at_pos f (pos f + n).
Proof.
  unfold GZIPHandler.read_exact, bind. rewrite read_spec.
  destruct (Nat.ltb_spec (length (peek n f)) n) as [Hlt|Hge]; [discriminate|].
  intros H. injection H as <- <-.
  assert (Hl : length (peek n f) = n)
    by (pose proof (firstn_le_length n (skipn (pos f) (content f))); unfold peek in *; lia).
  now rewrite Hl.
Qed.

(** A header that parses starts with the magic and takes ten bytes at
    least; the cursor ends up after it. *)
Lemma read_header_true f f1 :
  GZIPHandler.read_header f = Ok true f1 ->
  peek 2 f = [x1f; x8b] /\ content f1 = content f /\ (pos f + 10 <= pos f1)%nat.
Proof.
  unfold GZIPHandler.read_header. unfold bind at 1. rewrite read_spec.
  destruct (bytes_eqb (peek 2 f) []); [intros H; discriminate|].
  destruct (bytes_eqb (peek 2 f) [x1f; x8b]) eqn:Hmagic; cbn [negb];
    [|intros H; discriminate].
  apply bytes_eqb_eq in Hmagic. rewrite Hmagic. cbn [length].
  unfold bind at 1.
  destruct (GZIPHandler.read_exact 8 (at_pos f (pos f + 2))) as [fixed f2| |] eqn:E;
    try discriminate.
  apply read_exact_Ok in E. destruct E as (_ & _ & ->).
  cbv zeta.
  destruct (negb (byte_val (nth 0 fixed x00) =? 8)); [intros H; discriminate|].
  intros H.
  assert (Hadv : forall flag, advances
            (GZIPHandler.when (Z.testbit flag 2)
               (xlen <- GZIPHandler.read_exact 2 ;;
                GZIPHandler.read_exact (Z.to_nat (le_uint xlen)) ;;; ret tt) ;;;
             GZIPHandler.when (Z.testbit flag 3) GZIPHandler.skip_zero_terminated ;;;
             GZIPHandler.when (Z.testbit flag 4) GZIPHandler.skip_zero_terminated ;;;
             GZIPHandler.when (Z.testbit flag 1) (GZIPHandler.read_exact 2 ;;; ret tt) ;;;
             ret true)).
  { intros flag.
    repeat first [ solve [auto with advances]
                 | apply advances_when
                 | apply advances_bind; [|intros ?] ]. }
  destruct (Hadv _ _ _ _ H) as [Hc Hp].
  unfold at_pos in Hc, Hp. cbn [pos content] in Hc, Hp.
  split; [reflexivity|]. split; [exact Hc | lia].
Qed.

(** No header is reported only when no byte is left at the cursor. *)
Lemma read_header_end_of_data f :
  peek 2 f = [] -> GZIPHandler.read_header f = Ok false f.
Proof.
  intros He. unfold GZIPHandler.read_header. unfold bind at 1. rewrite read_spec.
  rewrite He. cbn [bytes_eqb length]. unfold ret, at_pos.
  rewrite Nat.add_0_r. now destruct f.
Qed.

Lemma read_header_false f f1 :
  GZIPHandler.read_header f = Ok false f1 -> peek 2 f = [].
Proof.
  unfold GZIPHandler.read_header. unfold bind at 1. rewrite read_spec.
  destruct (bytes_eqb (peek 2 f) []) eqn:E; [intros _; now apply bytes_eqb_eq in E|].
  destruct (negb (bytes_eqb (peek 2 f) [x1f; x8b])); [intros H; discriminate|].
  unfold bind at 1.
  destruct (GZIPHandler.read_exact 8 _) as [fixed f2| |]; try discriminate.
  cbv zeta.
  destruct (negb (byte_val (nth 0 fixed x00) =? 8)); [intros H; discriminate|].
  intros H. exfalso. revert H.
  unfold bind, GZIPHandler.when, ret.
  repeat match goal with
         | |- context [match ?m ?x with _ => _ end] =>
             destruct (m x); try discriminate
         | |- context [if ?b then _ else _] => destruct b
         end; try discriminate.
Qed.

(** Bytes that are not the magic are an error of the header parser. *)
Lemma read_header_bad_magic f :
  peek 2 f <> [] -> peek 2 f <> [x1f; x8b] ->
  GZIPHandler.read_header f = Raise BadGzipFile.
Proof.
  intros Hne Hmagic. unfold GZIPHandler.read_header. unfold bind at 1. rewrite read_spec.
  destruct (bytes_eqb (peek 2 f) []) eqn:E0;
    [apply bytes_eqb_eq in E0; contradiction|].
  destruct (bytes_eqb (peek 2 f) [x1f; x8b]) eqn:E1;
    [apply bytes_eqb_eq in E1; contradiction|].
  reflexivity.
Qed.

(** So is a compression method other than deflate. *)
Lemma read_header_bad_method f m :
  peek 2 f = [x1f; x8b] -> available 10 f ->
  slice 2 1 f = [m] -> byte_val m <> 8 ->
  GZIPHandler.read_header f = Raise BadGzipFile.
Proof.
  intros Hmagic Hav Hm Hne. unfold GZIPHandler.read_header. unfold bind at 1.
  rewrite read_spec, Hmagic. cbn [bytes_eqb negb length].
  change (bytes_eqb [x1f; x8b] []) with false.
  change (bytes_eqb [x1f; x8b] [x1f; x8b]) with true. cbn [negb].
  unfold bind at 1, GZIPHandler.read_exact, bind at 1. rewrite read_spec.
  assert (Hav8 : available 8 (at_pos f (pos f + 2)))
    by (unfold available, at_pos in *; cbn [pos content]; lia).
  rewrite (length_peek 8 _ Hav8), Nat.ltb_irrefl. unfold ret at 1. cbv zeta.
  assert (Hnth : nth 0 (peek 8 (at_pos f (pos f + 2))) x00 = m).
  { unfold peek, at_pos, slice in *. cbn [pos content].
    destruct (skipn (pos f + 2) (content f)) as [|b r]; [discriminate|].
    cbn [firstn] in Hm. cbn [firstn nth]. congruence. }
  rewrite Hnth.
  destruct (Z.eqb_spec (byte_val m) 8); [contradiction | reflexivity].
Qed.

Lemma firstn_add_skipn {A} (a b : nat) : forall l : list A,
  firstn a l ++ firstn b (skipn a l) = firstn (a + b) l.
Proof.
  induction a as [|a IH]; intros l; [reflexivity|].
  destruct l as [|x l]; [now rewrite !firstn_nil|].
  cbn [firstn skipn Nat.add app]. now rewrite IH.
Qed.

Section ReaderLoop.

Variable inflate : list byte -> GZIPHandler.InflateStatus.
Variable buffer_size : nat.

Lemma read_until_eof_loop_unfold fuel fed f :
  GZIPHandler.read_until_eof_loop inflate buffer_size (S fuel) fed f =
  let buf := peek buffer_size f in
  if bytes_eqb buf [] then Raise EOFError
  else match inflate (fed ++ buf) with
       | GZIPHandler.DataError => Raise ZlibError
       | GZIPHandler.StreamEnd consumed =>
           Ok (skipn consumed (fed ++ buf)) (at_pos f (pos f + length buf))
       | GZIPHandler.NeedInput =>
           GZIPHandler.read_until_eof_loop inflate buffer_size fuel (fed ++ buf)
             (at_pos f (pos f + length buf))
       end.
Proof.
  cbn [GZIPHandler.read_until_eof_loop]. unfold bind. rewrite read_spec. cbv zeta.
  destruct (bytes_eqb (peek buffer_size f) []); [reflexivity|].
  destruct (inflate (fed ++ peek buffer_size f)); reflexivity.
Qed.

(** Whatever the engine, the unused data is no longer than what was
    pulled from the file and what had been fed before. *)
Lemma read_until_eof_loop_bound : forall fuel fed f unused f',
  GZIPHandler.read_until_eof_loop inflate buffer_size fuel fed f = Ok unused f' ->
  content f' = content f
  /\ (length unused + pos f <= length fed + pos f')%nat.
Proof.
  induction fuel as [|fuel IH]; intros fed f unused f' H; [discriminate|].
  rewrite read_until_eof_loop_unfold in H. cbv zeta in H.
  destruct (bytes_eqb (peek buffer_size f) []); [discriminate|].
  destruct (inflate (fed ++ peek buffer_size f)) as [|consumed|]; [| |discriminate].
  - apply IH in H. destruct H as [Hc Hl]. unfold at_pos in *. cbn [pos content] in *.
    rewrite length_app in Hl. split; [exact Hc | lia].
  - injection H as <- <-. unfold at_pos. cbn [pos content].
    rewrite length_skipn, length_app. split; [reflexivity | lia].
Qed.

Lemma peek_payload f p1 m :
  pos f = (p1 + m)%nat ->
  peek buffer_size f = firstn buffer_size (skipn m (skipn p1 (content f))).
Proof. intros Hp. unfold peek. now rewrite skipn_skipn, Hp, (Nat.add_comm m). Qed.

(** On a complete member the loop ends, and the cursor is then as far
    past the end of the compressed data as there is unused data. *)
Lemma read_until_eof_loop_ends (bytes : list byte) (p1 clen : nat) :
  (0 < buffer_size)%nat ->
  let payload := skipn p1 bytes in
  (clen < length payload)%nat ->
  (forall n, inflate (firstn n payload) =
             if (n <? clen)%nat then GZIPHandler.NeedInput
             else GZIPHandler.StreamEnd clen) ->
  forall fuel m,
    (m <= clen)%nat ->
    (length bytes - (p1 + m) < fuel)%nat ->
    exists unused p2,
      GZIPHandler.read_until_eof_loop inflate buffer_size fuel
        (firstn m payload) (mkFile bytes (p1 + m)) = Ok unused (mkFile bytes p2)
      /\ p2 = (p1 + clen + length unused)%nat.
Proof.
  intros Hbs payload Hclen Hends.
  assert (Hlen : length payload = (length bytes - p1)%nat) by apply length_skipn.
  induction fuel as [|fuel IH]; intros m Hm Hfuel; [lia|].
  rewrite read_until_eof_loop_unfold. cbv zeta.
  rewrite (peek_payload (mkFile bytes (p1 + m)) p1 m eq_refl). cbn [pos content].
  fold payload.
  set (buf := firstn buffer_size (skipn m payload)).
  assert (Hbuf : length buf = Nat.min buffer_size (length payload - m))
    by (unfold buf; now rewrite length_firstn, length_skipn).
  assert (Hne : bytes_eqb buf [] = false).
  { destruct (bytes_eqb buf []) eqn:E; [|reflexivity].
    apply bytes_eqb_eq in E. rewrite E in Hbuf. simpl in Hbuf. lia. }
  assert (Hfed : firstn m payload ++ buf = firstn (m + buffer_size) payload)
    by apply firstn_add_skipn.
  rewrite Hne, Hfed, Hends.
  destruct (Nat.ltb_spec (m + buffer_size) clen) as [Hlt | Hge].
  - unfold at_pos. cbn [pos content].
    assert (Hfull : length buf = buffer_size) by lia. rewrite Hfull.
    destruct (IH (m + buffer_size)%nat) as (unused & p2 & Hrun & Hp2); [lia | lia |].
    exists unused, p2. rewrite <- Hrun. split; [|exact Hp2].
    f_equal. unfold at_pos. f_equal. lia.
  - eexists _, _. unfold at_pos. cbn [pos content]. split; [reflexivity|].
    rewrite length_skipn, length_firstn. lia.
Qed.

(** When the engine rejects the [j]-th buffer the loop raises the
    engine's error. *)
Lemma read_until_eof_loop_rejects (bytes : list byte) (p1 j : nat) :
  (0 < buffer_size)%nat ->
  rejected_at inflate buffer_size (skipn p1 bytes) j ->
  forall fuel m,
    (m <= j)%nat ->
    (length bytes - (p1 + m * buffer_size) < fuel)%nat ->
    GZIPHandler.read_until_eof_loop inflate buffer_size fuel
      (firstn (m * buffer_size) (skipn p1 bytes))
      (mkFile bytes (p1 + m * buffer_size)) = Raise ZlibError.
Proof.
  intros Hbs (Hj & Hneed & Hbad).
  set (payload := skipn p1 bytes) in *.
  assert (Hlen : length payload = (length bytes - p1)%nat) by apply length_skipn.
  induction fuel as [|fuel IH]; intros m Hm Hfuel; [lia|].
  rewrite read_until_eof_loop_unfold. cbv zeta.
  rewrite (peek_payload (mkFile bytes (p1 + m * buffer_size)) p1 (m * buffer_size) eq_refl).
  cbn [pos content]. fold payload.
  set (buf := firstn buffer_size (skipn (m * buffer_size) payload)).
  assert (Hmj : (m * buffer_size <= j * buffer_size)%nat) by (apply Nat.mul_le_mono_r; lia).
  assert (Hbuf : length buf = Nat.min buffer_size (length payload - m * buffer_size))
    by (unfold buf; now rewrite length_firstn, length_skipn).
  assert (Hne : bytes_eqb buf [] = false).
  { destruct (bytes_eqb buf []) eqn:E; [|reflexivity].
    apply bytes_eqb_eq in E. rewrite E in Hbuf. simpl in Hbuf. lia. }
  assert (Hfed : firstn (m * buffer_size) payload ++ buf
                 = firstn (S m * buffer_size) payload).
  { unfold buf. rewrite firstn_add_skipn. f_equal. lia. }
  rewrite Hne, Hfed.
  destruct (Nat.eq_dec m j) as [-> | Hneq].
  - now rewrite Hbad.
  - rewrite Hneed by lia.
    assert (Hsm : (S m * buffer_size <= j * buffer_size)%nat)
      by (apply Nat.mul_le_mono_r; lia).
    assert (Hfull : length buf = buffer_size) by lia.
    unfold at_pos. cbn [pos content]. rewrite Hfull.
    replace (p1 + m * buffer_size + buffer_size)%nat with (p1 + S m * buffer_size)%nat by lia.
    apply IH; lia.
Qed.

End ReaderLoop.

Lemma member_ends_at_spec inflate payload clen :
  (clen <= length payload)%nat ->
  member_ends_at inflate payload clen = true ->
  forall n, inflate (firstn n payload) =
            if (n <? clen)%nat then GZIPHandler.NeedInput
            else GZIPHandler.StreamEnd clen.
Proof.
  intros Hclen H n. unfold member_ends_at in H. rewrite forallb_forall in H.
  assert (Hin : forall i, (i <= length payload)%nat ->
                inflate (firstn i payload) =
                if (i <? clen)%nat then GZIPHandler.NeedInput
                else GZIPHandler.StreamEnd clen).
  { intros i Hi. specialize (H i). rewrite in_seq in H. specialize (H ltac:(lia)).
    destruct (inflate (firstn i payload)) as [|c|], (i <? clen)%nat;
      simpl in H; try discriminate; try reflexivity.
    apply Nat.eqb_eq in H. now subst. }
  destruct (Nat.le_gt_cases n (length payload)) as [Hle | Hgt]; [now apply Hin|].
  rewrite firstn_all2 by lia. rewrite <- (firstn_all payload) at 1.
  rewrite Hin by lia.
  destruct (Nat.ltb_spec (length payload) clen), (Nat.ltb_spec n clen);
    try reflexivity; lia.
Qed.

Lemma skip_run_zeros k b rest :
  b <> x00 -> FileUtils.skip_run [x00] (repeat x00 k ++ b :: rest) = k.
Proof.
  intros Hb. induction k as [|k IH]; simpl.
  - destruct (Byte.eqb b x00) eqn:E; [|reflexivity].
    apply Byte.byte_dec_bl in E. contradiction.
  - now rewrite IH.
Qed.

(** A complete member of [member_length] bytes at offset [O], followed
    by [k] zero bytes and a non-zero byte: decoding leaves the cursor so
    that the seek by 8 minus the unused bytes lands right after the
    trailer, and the chunk is [O, O + member_length + k). *)
Lemma gzip_member_then_padding
    (inflate : list byte -> GZIPHandler.InflateStatus) (buffer_size : nat)
    (f f1 : File) (O clen k : nat) (b : byte) (rest : list byte) :
  (0 < buffer_size)%nat ->
  pos f = O ->
  GZIPHandler.read_header f = Ok true f1 ->
  member_ends_at inflate (skipn (pos f1) (content f)) clen = true ->
  let member_length := (pos f1 - O + clen + 8)%nat in
  skipn (O + member_length) (content f) = repeat x00 k ++ b :: rest ->
  b <> x00 ->
  exists unused f2,
    GZIPHandler.read_until_eof inflate buffer_size f1 = Ok unused f2
    /\ Z.of_nat (pos f2) + (GZIPHandler.GZIP2_FOOTER_LEN - Z.of_nat (length unused))
       = Z.of_nat (O + member_length)
    /\ returns (FileUtils.read_until_past [x00] (at_pos f (O + member_length)))
               (Z.of_nat (O + member_length + k))
    /\ returns (GZIPHandler.calculate_chunk inflate buffer_size (Z.of_nat O) f)
               (Some (mkValidChunk (Z.of_nat O) (Z.of_nat (O + member_length + k)))).
Proof.
  intros Hbs HO Hhdr Hends member_length Hpad Hb.
  destruct (read_header_true f f1 Hhdr) as (_ & Hc1 & Hp1).
  destruct f1 as [bytes1 p1]. cbn [content pos] in *. subst bytes1.
  assert (Hml : (O + member_length = p1 + clen + 8)%nat)
    by (unfold member_length; lia).
  assert (Hlen : (p1 + clen + 8 < length (content f))%nat).
  { apply (f_equal (@length byte)) in Hpad.
    rewrite length_skipn, length_app in Hpad. simpl in Hpad. lia. }
  assert (Hclen : (clen < length (skipn p1 (content f)))%nat)
    by (rewrite length_skipn; lia).
  pose proof (member_ends_at_spec inflate _ clen (Nat.lt_le_incl _ _ Hclen) Hends) as Hspec.
  destruct (read_until_eof_loop_ends inflate buffer_size (content f) p1 clen
              Hbs Hclen Hspec (S (length (content f))) 0%nat)
    as (unused & p2 & Hrun & Hp2); [lia | lia |].
  rewrite Nat.add_0_r in Hrun. cbn [firstn] in Hrun.
  assert (Hloop : GZIPHandler.read_until_eof inflate buffer_size (mkFile (content f) p1)
                  = Ok unused (mkFile (content f) p2))
    by exact Hrun.
  assert (Hskip : FileUtils.read_until_past [x00] (at_pos f (O + member_length))
                  = Ok (Z.of_nat (O + member_length + k))
                       (at_pos f (O + member_length + k))).
  { unfold FileUtils.read_until_past, at_pos. cbn [pos content].
    now rewrite Hpad, skip_run_zeros. }
  exists unused, (mkFile (content f) p2). split; [exact Hloop|]. split; [|split].
  - unfold GZIPHandler.GZIP2_FOOTER_LEN, GZIPHandler.GZIP2_CRC_LEN,
      GZIPHandler.GZIP2_SIZE_LEN. cbn [pos]. lia.
  - eexists. exact Hskip.
  - eexists. unfold GZIPHandler.calculate_chunk.
    rewrite (bind_Ok _ _ _ _ _ Hhdr). cbn [negb].
    rewrite (bind_Ok _ _ _ unused (mkFile (content f) p2))
      by (unfold try_except; now rewrite Hloop).
    rewrite (bind_Ok _ _ _ tt (at_pos f (O + member_length))).
    2:{ unfold GZIPHandler.GZIP2_FOOTER_LEN, GZIPHandler.GZIP2_CRC_LEN,
          GZIPHandler.GZIP2_SIZE_LEN.
        rewrite seek_cur_nonneg by (cbn [pos]; lia).
        unfold at_pos. cbn [pos content]. do 2 f_equal. lia. }
    rewrite (bind_Ok _ _ _ _ _ Hskip), make_chunk_built.
    apply built_nonempty. lia.
Qed.

Lemma skip_run_spec : forall data,
  let n := FileUtils.skip_run [x00] data in
  firstn n data = repeat x00 n
  /\ (forall b, nth_error data n = Some b -> b <> x00).
Proof.
  induction data as [|d ds IH]; cbn [FileUtils.skip_run existsb orb].
  - split; [reflexivity | intros b H; discriminate].
  - rewrite orb_false_r. destruct (Byte.eqb d x00) eqn:E.
    + apply Byte.byte_dec_bl in E. subst d. cbv zeta in IH. destruct IH as [Hz Hn].
      cbn [firstn repeat nth_error]. split; [now rewrite Hz | exact Hn].
    + cbn [firstn repeat nth_error]. split; [reflexivity|].
      intros b H. injection H as <-. intros ->. discriminate.
Qed.

(** What the calculator does once a member has been decoded. *)
Lemma gzip_calculate_chunk_run inflate buffer_size start f f1 unused f2 :
  GZIPHandler.read_header f = Ok true f1 ->
  GZIPHandler.read_until_eof inflate buffer_size f1 = Ok unused f2 ->
  let p := Z.of_nat (pos f2) + (GZIPHandler.GZIP2_FOOTER_LEN - Z.of_nat (length unused)) in
  let n := FileUtils.skip_run [x00] (skipn (Z.to_nat p) (content f)) in
  GZIPHandler.calculate_chunk inflate buffer_size start f
  = built start (p + Z.of_nat n) (at_pos f (Z.to_nat p + n))
  /\ Z.of_nat (pos f) + 18 <= p.
Proof.
  intros Hhdr Hloop p n.
  destruct (read_header_true f f1 Hhdr) as (_ & Hc1 & Hp1).
  assert (Hb : content f2 = content f1 /\ (length unused + pos f1 <= 0 + pos f2)%nat)
    by exact (read_until_eof_loop_bound _ _ _ _ _ _ _ Hloop).
  destruct Hb as [Hc2 Hb].
  assert (Hp : Z.of_nat (pos f) + 18 <= p).
  { unfold p, GZIPHandler.GZIP2_FOOTER_LEN, GZIPHandler.GZIP2_CRC_LEN,
      GZIPHandler.GZIP2_SIZE_LEN. lia. }
  split; [|exact Hp].
  - unfold GZIPHandler.calculate_chunk.
    rewrite (bind_Ok _ _ _ _ _ Hhdr). cbn [negb].
    rewrite (bind_Ok _ _ _ unused f2) by (unfold try_except; now rewrite Hloop).
    assert (Hp0 : 0 <= p) by lia.
    rewrite (bind_Ok _ _ _ _ _ (seek_cur_nonneg _ f2 Hp0)). fold p.
    rewrite (bind_Ok _ _ _ (p + Z.of_nat n) (at_pos f (Z.to_nat p + n))).
    + apply make_chunk_built.
    + unfold FileUtils.read_until_past, at_pos. cbn [pos content].
      rewrite Hc2, Hc1. fold n. do 2 f_equal. lia.
Qed.

(** C2: after one member is decoded the cursor is moved by 8 minus the
    number of unused bytes, and the chunk that the calculator builds ends
    at the first position past the run of zero bytes that starts there;
    that position is at least 18 bytes past the cursor the calculator
    was called with, so that the chunk is returned whenever the cursor
    was at the start offset, and the calculator fails with the format
    error only for a start offset at or past that end.  Hence, for a
    complete member of [member_length] bytes at offset [O] followed by
    [k] zero bytes and a non-zero byte, the chunk is
    [O, O + member_length + k), whatever the size of the buffers pulled
    from the file. *)
Theorem gzip_chunk_covers_member_and_padding
    (inflate : list byte -> GZIPHandler.InflateStatus) (buffer_size : nat)
    (f f1 : File) (start : Z) :
  GZIPHandler.read_header f = Ok true f1 ->
  (forall unused f2,
     GZIPHandler.read_until_eof inflate buffer_size f1 = Ok unused f2 ->
     let p := Z.of_nat (pos f2)
              + (GZIPHandler.GZIP2_FOOTER_LEN - Z.of_nat (length unused)) in
     exists n,
       (start < p + Z.of_nat n ->
        returns (GZIPHandler.calculate_chunk inflate buffer_size start f)
                (Some (mkValidChunk start (p + Z.of_nat n))))
       /\ (p + Z.of_nat n <= start ->
           GZIPHandler.calculate_chunk inflate buffer_size start f
           = Raise InvalidInputFormat)
       /\ Z.of_nat (pos f) + 18 <= p
       /\ firstn n (skipn (Z.to_nat p) (content f)) = repeat x00 n
       /\ (forall b, nth_error (content f) (Z.to_nat p + n) = Some b -> b <> x00))
  /\ (forall (O clen k : nat) (b : byte) (rest : list byte),
        (0 < buffer_size)%nat ->
        pos f = O -> start = Z.of_nat O ->
        member_ends_at inflate (skipn (pos f1) (content f)) clen = true ->
        let member_length := (pos f1 - O + clen + 8)%nat in
        skipn (O + member_length) (content f) = repeat x00 k ++ b :: rest ->
        b <> x00 ->
        exists unused f2,
          GZIPHandler.read_until_eof inflate buffer_size f1 = Ok unused f2
          /\ Z.of_nat (pos f2)
               + (GZIPHandler.GZIP2_FOOTER_LEN - Z.of_nat (length unused))
             = Z.of_nat (O + member_length)
          /\ returns (GZIPHandler.calculate_chunk inflate buffer_size start f)
                     (Some (mkValidChunk start (Z.of_nat (O + member_length + k))))).
Proof.
  intros Hhdr. split.
  - intros unused f2 Hloop p.
    destruct (gzip_calculate_chunk_run inflate buffer_size start f f1 unused f2 Hhdr Hloop)
      as [Hrun Hp].
    fold p in Hrun, Hp.
    exists (FileUtils.skip_run [x00] (skipn (Z.to_nat p) (content f))).
    split; [intros Hlt; eexists; rewrite Hrun; now apply built_nonempty|].
    split; [intros Hge; rewrite Hrun; now apply built_empty|].
    split; [exact Hp|].
    destruct (skip_run_spec (skipn (Z.to_nat p) (content f))) as [Hz Hn].
    split; [exact Hz|]. intros b Hb. apply Hn. now rewrite nth_error_skipn.
  - intros O clen k b rest Hbs HO -> Hends member_length Hpad Hb.
    destruct (gzip_member_then_padding inflate buffer_size f f1 O clen k b rest
                Hbs HO Hhdr Hends Hpad Hb) as (unused & f2 & Hloop & Hseek & _ & Hchunk).
    exists unused, f2. repeat split; assumption.
Qed.

Lemma gzip_chunk_covers_member_and_padding_witness :
  returns (GZIPHandler.calculate_chunk GZIPHandler.stored_inflate 4 3 gzip_sample)
          (Some (mkValidChunk 3 31)).
Proof.
  destruct (gzip_chunk_covers_member_and_padding GZIPHandler.stored_inflate 4
              gzip_sample (at_pos gzip_sample 13) 3 eq_refl) as (_ & Hmember).
  destruct (Hmember 3%nat 7%nat 3%nat x07 [x07])
    as (unused & f2 & _ & _ & Hchunk);
    [lia | reflexivity | reflexivity | vm_compute; reflexivity | reflexivity
     | discriminate | exact Hchunk].
Defined.

Lemma calculate_chunk_no_header inflate buffer_size start f f1 :
  GZIPHandler.read_header f = Ok false f1 ->
  GZIPHandler.calculate_chunk inflate buffer_size start f = Ok None f1.
Proof.
  intros H. unfold GZIPHandler.calculate_chunk. now rewrite (bind_Ok _ _ _ _ _ H).
Qed.

Lemma calculate_chunk_decode_error inflate buffer_size start f f1 e :
  GZIPHandler.read_header f = Ok true f1 ->
  GZIPHandler.read_until_eof inflate buffer_size f1 = Raise e ->
  GZIPHandler.calculate_chunk inflate buffer_size start f =
    if GZIPHandler.is_gzip_error e then Raise InvalidInputFormat else Raise e.
Proof.
  intros Hhdr Hloop. unfold GZIPHandler.calculate_chunk.
  rewrite (bind_Ok _ _ _ _ _ Hhdr). cbn [negb].
  unfold bind, try_except. rewrite Hloop.
  destruct (GZIPHandler.is_gzip_error e); reflexivity.
Qed.

(** C3 (amended): three kinds of failure.  With no byte left at the
    cursor [read_header] reports no header and the calculator returns no
    chunk, without raising; this is the only case in which it does.
    Bytes that are not the gzip magic, and a compression method other
    than deflate, make [read_header] raise [BadGzipFile] outside the
    [try], which leaves the calculator unchanged.  If the header parses
    and the inflate engine rejects one of the buffers fed to it, decoding
    raises [zlib.error] and the calculator raises [InvalidInputFormat]:
    it returns neither no chunk nor a chunk. *)
Theorem gzip_three_failure_kinds
    (inflate : list byte -> GZIPHandler.InflateStatus) (buffer_size : nat)
    (f : File) (start : Z) :
  (peek 2 f = [] ->
     returns (GZIPHandler.read_header f) false
     /\ returns (GZIPHandler.calculate_chunk inflate buffer_size start f) None)
  /\ (returns (GZIPHandler.read_header f) false -> peek 2 f = [])
  /\ (peek 2 f <> [] -> peek 2 f <> [x1f; x8b] ->
      GZIPHandler.read_header f = Raise BadGzipFile
      /\ GZIPHandler.calculate_chunk inflate buffer_size start f = Raise BadGzipFile)
  /\ (forall m,
        peek 2 f = [x1f; x8b] -> available 10 f ->
        slice 2 1 f = [m] -> byte_val m <> 8 ->
        GZIPHandler.calculate_chunk inflate buffer_size start f = Raise BadGzipFile)
  /\ (forall f1,
        GZIPHandler.read_header f = Ok true f1 ->
        GZIPHandler.read_until_eof inflate buffer_size f1 = Raise ZlibError ->
        GZIPHandler.calculate_chunk inflate buffer_size start f = Raise InvalidInputFormat
        /\ forall r, ~ returns (GZIPHandler.calculate_chunk inflate buffer_size start f) r)
  /\ (forall f1 j,
        GZIPHandler.read_header f = Ok true f1 ->
        (0 < buffer_size)%nat ->
        rejected_at inflate buffer_size (skipn (pos f1) (content f)) j ->
        GZIPHandler.read_until_eof inflate buffer_size f1 = Raise ZlibError
        /\ GZIPHandler.calculate_chunk inflate buffer_size start f = Raise InvalidInputFormat
        /\ forall r, ~ returns (GZIPHandler.calculate_chunk inflate buffer_size start f) r).
Proof.
  assert (Hraise : forall f1,
            GZIPHandler.read_header f = Ok true f1 ->
            GZIPHandler.read_until_eof inflate buffer_size f1 = Raise ZlibError ->
            GZIPHandler.calculate_chunk inflate buffer_size start f = Raise InvalidInputFormat
            /\ forall r, ~ returns (GZIPHandler.calculate_chunk inflate buffer_size start f) r).
  { intros f1 Hhdr Hloop.
    assert (Hcalc : GZIPHandler.calculate_chunk inflate buffer_size start f
                    = Raise InvalidInputFormat)
      by now rewrite (calculate_chunk_decode_error _ _ _ _ _ _ Hhdr Hloop).
    split; [exact Hcalc|]. intros r [f' Hr]. rewrite Hcalc in Hr. discriminate. }
  assert (Hpass : forall e, GZIPHandler.read_header f = Raise e ->
                    GZIPHandler.calculate_chunk inflate buffer_size start f = Raise e).
  { intros e H. unfold GZIPHandler.calculate_chunk. now rewrite (bind_Raise _ _ _ _ H). }
  split; [|split; [|split; [|split; [|split]]]].
  - intros Hend. pose proof (read_header_end_of_data f Hend) as Hhdr. split.
    + eexists. exact Hhdr.
    + eexists. apply calculate_chunk_no_header. exact Hhdr.
  - intros [f1 Hhdr]. exact (read_header_false f f1 Hhdr).
  - intros Hne Hmagic. pose proof (read_header_bad_magic f Hne Hmagic) as Hhdr.
    split; [exact Hhdr | now apply Hpass].
  - intros m Hmagic Hav Hm Hne. apply Hpass.
    exact (read_header_bad_method f m Hmagic Hav Hm Hne).
  - exact Hraise.
  - intros f1 j Hhdr Hbs Hrej.
    destruct (read_header_true f f1 Hhdr) as (_ & Hc1 & _).
    destruct f1 as [bytes1 p1]. cbn [content pos] in *. subst bytes1.
    assert (Hloop : GZIPHandler.read_until_eof inflate buffer_size (mkFile (content f) p1)
                    = Raise ZlibError).
    { pose proof (read_until_eof_loop_rejects inflate buffer_size (content f) p1 j
                    Hbs Hrej (S (length (content f))) 0%nat) as H.
      rewrite Nat.mul_0_l, Nat.add_0_r in H. cbn [firstn] in H.
      apply H; lia. }
    split; [exact Hloop|]. exact (Hraise _ Hhdr Hloop).
Qed.

Lemma gzip_three_failure_kinds_witness :
  returns (GZIPHandler.calculate_chunk GZIPHandler.stored_inflate 4 33
             (at_pos gzip_sample 33)) None
  /\ GZIPHandler.calculate_chunk GZIPHandler.stored_inflate 4 0 not_gzip_sample
     = Raise BadGzipFile
  /\ GZIPHandler.calculate_chunk GZIPHandler.stored_inflate 4 0 gzip_corrupt_sample
     = Raise InvalidInputFormat.
Proof.
  split; [|split].
  - destruct (gzip_three_failure_kinds GZIPHandler.stored_inflate 4
                (at_pos gzip_sample 33) 33) as (Hend & _).
    apply Hend. reflexivity.
  - destruct (gzip_three_failure_kinds GZIPHandler.stored_inflate 4 not_gzip_sample 0)
      as (_ & _ & Hmagic & _).
    apply Hmagic; vm_compute; discriminate.
  - destruct (gzip_three_failure_kinds GZIPHandler.stored_inflate 4 gzip_corrupt_sample 0)
      as (_ & _ & _ & _ & _ & Hrej).
    apply (Hrej (at_pos gzip_corrupt_sample 10) 1%nat); [reflexivity | lia |].
    split; [vm_compute; lia|]. split; [|reflexivity].
    intros i Hi. assert (i = 1%nat) as -> by lia. reflexivity.
Defined.

(** C3 as stated fails: twelve bytes that start with 0x1f 0x8c, not the
    gzip magic, do not make the calculator return no chunk; the header
    parser raises [BadGzipFile], which the calculator lets through. *)
Lemma gzip_magic_mismatch_counterexample :
  peek 2 not_gzip_sample <> [x1f; x8b]
  /\ GZIPHandler.read_header not_gzip_sample = Raise BadGzipFile
  /\ GZIPHandler.calculate_chunk GZIPHandler.stored_inflate 4 0 not_gzip_sample
     = Raise BadGzipFile
  /\ ~ returns (GZIPHandler.calculate_chunk GZIPHandler.stored_inflate 4 0 not_gzip_sample)
               None.
Proof.
  split; [vm_compute; discriminate|].
  split; [reflexivity|]. split; [reflexivity|].
  intros [f' H]. vm_compute in H. discriminate.
Qed.

(* ================================================================== *)
(** ** The chunk invariant across the five calculators *)
(* ================================================================== *)

Lemma parse_header_Ok l e f h f' :
  (0 < layout_size l)%nat ->
  parse_header l e f = Ok h f' -> available (layout_size l) f.
Proof.
  intros Hpos H.
  destruct (Nat.le_gt_cases (pos f + layout_size l) (length (content f))) as [Hle|Hgt];
    [exact Hle|].
  rewrite parse_header_truncated in H; [discriminate | exact Hpos |].
  unfold available. lia.
Qed.

Lemma calculate_chunk_parses (l : layout) (e : Endian) {A} (k : Header -> IO A) f a f' :
  (0 < layout_size l)%nat ->
  bind (parse_header l e) k f = Ok a f' -> available (layout_size l) f.
Proof.
  intros Hpos H. unfold bind in H.
  destruct (parse_header l e f) as [h f1| |] eqn:E; try discriminate.
  now apply (parse_header_Ok l e f h f1).
Qed.

Lemma lzh_chunk_bounds f start c :
  returns (LZHHandler.calculate_chunk start f) (Some c) ->
  start_offset c = start
  /\ Z.of_nat (pos f) <= end_offset c
  /\ (field (header_at LZHHandler.HEADER_STRUCT LITTLE f) "level_identifier" <> 2 ->
      Z.of_nat (pos f) < end_offset c)
  /\ start < end_offset c.
Proof.
  intros [f' H].
  assert (Hav : available 21 f).
  { unfold LZHHandler.calculate_chunk in H.
    apply (calculate_chunk_parses LZHHandler.HEADER_STRUCT LITTLE) in H;
      [exact H | simpl; lia]. }
  pose proof (lzh_calculate_chunk_run f start Hav) as Hrun. cbv zeta in Hrun.
  pose proof (lzh_real_header_size_nonneg f) as Hh.
  assert (Hc : 0 <= field (header_at LZHHandler.HEADER_STRUCT LITTLE f) "compressed_size")
    by apply field_nonneg.
  assert (Hlevel : field (header_at LZHHandler.HEADER_STRUCT LITTLE f) "level_identifier" <> 2 ->
                   2 <= LZHHandler.real_header_size (header_at LZHHandler.HEADER_STRUCT LITTLE f)).
  { intros Hne. unfold LZHHandler.real_header_size, LZHHandler.PADDING_LEN.
    destruct (Z.eqb_spec (field (header_at LZHHandler.HEADER_STRUCT LITTLE f)
                                "level_identifier") 2); [contradiction|].
    assert (0 <= field (header_at LZHHandler.HEADER_STRUCT LITTLE f) "header_size")
      by apply field_nonneg.
    lia. }
  remember (LZHHandler.real_header_size (header_at LZHHandler.HEADER_STRUCT LITTLE f)) as hs.
  remember (field (header_at LZHHandler.HEADER_STRUCT LITTLE f) "compressed_size") as cs.
  rewrite Hrun in H. apply built_inversion in H. destruct H as (Hchunk & Hlt & _).
  rewrite Hchunk. cbn [start_offset end_offset]. split; [reflexivity|].
  unfold absorb_terminator in *.
  destruct (Z.eqb_spec (source_length f - (Z.of_nat (pos f) + hs + cs)) 1);
    (split; [lia | split; [intros Hne; specialize (Hlevel Hne); lia | exact Hlt]]).
Qed.

Lemma ntfs_chunk_bounds f start c :
  returns (NTFSHandler.calculate_chunk start f) (Some c) ->
  start_offset c = start /\ start < end_offset c.
Proof.
  intros [f' H].
  assert (Hav : available 512 f).
  { unfold NTFSHandler.calculate_chunk in H.
    apply (calculate_chunk_parses NTFSHandler.HEADER_STRUCT LITTLE) in H;
      [exact H | apply Nat.ltb_lt; reflexivity]. }
  pose proof (ntfs_calculate_chunk_run f start Hav) as Hrun. cbv zeta in Hrun.
  assert (Ht : 0 <= field (header_at NTFSHandler.HEADER_STRUCT LITTLE f) "total_sectors")
    by apply field_nonneg.
  assert (Hb : 0 <= field (header_at NTFSHandler.HEADER_STRUCT LITTLE f) "bytes_per_sector")
    by apply field_nonneg.
  remember (field (header_at NTFSHandler.HEADER_STRUCT LITTLE f) "total_sectors") as ts.
  remember (field (header_at NTFSHandler.HEADER_STRUCT LITTLE f) "bytes_per_sector") as bps.
  rewrite Hrun in H.
  destruct (Z.eqb_spec (ts * bps) 0) as [|Hne]; [discriminate|].
  assert (Hchunk : c = mkValidChunk start (start + 512 + ts * bps)) by congruence.
  rewrite Hchunk. cbn [start_offset end_offset]. split; [reflexivity | nia].
Qed.

Lemma ubifs_chunk_bounds f start c :
  returns (UBIFSHandler.calculate_chunk start f) (Some c) ->
  start_offset c = start
  /\ start < end_offset c
  /\ end_offset c
     = start
       + field (header_at UBIFSHandler.HEADER_STRUCT (chosen_endian f) f) "leb_size"
         * field (header_at UBIFSHandler.HEADER_STRUCT (chosen_endian f) f) "leb_cnt".
Proof.
  intros [f' H].
  assert (Hav : available (layout_size UBIFSHandler.HEADER_STRUCT) f).
  { unfold UBIFSHandler.calculate_chunk in H.
    rewrite (bind_Ok _ _ _ _ _ (get_endian_run f)) in H.
    apply (calculate_chunk_parses UBIFSHandler.HEADER_STRUCT (chosen_endian f)) in H;
      [exact H | apply Nat.ltb_lt; reflexivity]. }
  pose proof (ubifs_calculate_chunk_run f start Hav) as Hrun. cbv zeta in Hrun.
  assert (Hs : 0 <= field (header_at UBIFSHandler.HEADER_STRUCT (chosen_endian f) f) "leb_size")
    by apply field_nonneg.
  assert (Hc : 0 <= field (header_at UBIFSHandler.HEADER_STRUCT (chosen_endian f) f) "leb_cnt")
    by apply field_nonneg.
  remember (field (header_at UBIFSHandler.HEADER_STRUCT (chosen_endian f) f) "leb_size") as ls.
  remember (field (header_at UBIFSHandler.HEADER_STRUCT (chosen_endian f) f) "leb_cnt") as lc.
  rewrite Hrun in H. apply built_inversion in H. destruct H as (Hchunk & Hlt & _).
  rewrite Hchunk. cbn [start_offset end_offset].
  split; [reflexivity|]. split; [exact Hlt | reflexivity].
Qed.

Lemma ubi_chunk_bounds fuel f start c :
  returns (UBIHandler.calculate_chunk fuel start f) (Some c) ->
  start_offset c = start
  /\ start < end_offset c.
Proof.
  intros [f' H].
  destruct (Nat.lt_ge_cases (length (occurrences f)) 2) as [Hfew | Hmany].
  - rewrite (ubi_calculate_chunk_none fuel start f Hfew) in H. discriminate.
  - destruct (guess_peb_size_mode f Hmany) as (stride & _ & Hguess & Hpos).
    destruct (Z.lt_ge_cases start 0) as [Hneg | Hnn].
    + unfold UBIHandler.calculate_chunk, bind at 1, try_except, bind at 1 in H.
      rewrite Hguess in H. unfold ret at 1 in H. unfold bind, seek in H.
      destruct (Z.ltb_spec start 0); [discriminate | lia].
    + rewrite (ubi_calculate_chunk_walk fuel start f stride Hguess Hnn) in H.
      destruct (UBIHandler._walk_ubi fuel stride (at_pos f (Z.to_nat start)))
        as [v f1| |] eqn:E;
        [|rewrite (bind_Raise _ _ _ _ E) in H; discriminate
         |unfold bind in H; rewrite E in H; discriminate].
      rewrite (bind_Ok _ _ _ _ _ E), make_chunk_built in H.
      apply built_inversion in H. destruct H as (-> & Hlt & _).
      cbn [start_offset end_offset]. split; [reflexivity | exact Hlt].
Qed.

Lemma gzip_chunk_bounds inflate buffer_size f start c :
  returns (GZIPHandler.calculate_chunk inflate buffer_size start f) (Some c) ->
  start_offset c = start
  /\ Z.of_nat (pos f) < end_offset c
  /\ start < end_offset c.
Proof.
  intros [f' H].
  destruct (GZIPHandler.read_header f) as [[|] f1| |] eqn:Hhdr.
  - destruct (GZIPHandler.read_until_eof inflate buffer_size f1)
      as [unused f2|e|] eqn:Hloop.
    + destruct (gzip_calculate_chunk_run inflate buffer_size start f f1 unused f2
                  Hhdr Hloop) as [Hrun Hp].
      rewrite Hrun in H. apply built_inversion in H. destruct H as (-> & Hlt & _).
      cbn [start_offset end_offset]. split; [reflexivity|]. split; [lia | exact Hlt].
    + rewrite (calculate_chunk_decode_error _ _ _ _ _ _ Hhdr Hloop) in H.
      destruct (GZIPHandler.is_gzip_error e); discriminate.
    + unfold GZIPHandler.calculate_chunk in H.
      rewrite (bind_Ok _ _ _ _ _ Hhdr) in H. cbn [negb] in H.
      unfold bind at 1, try_except in H. rewrite Hloop in H. discriminate.
  - rewrite (calculate_chunk_no_header _ _ _ _ _ Hhdr) in H. discriminate.
  - unfold GZIPHandler.calculate_chunk in H.
    rewrite (bind_Raise _ _ _ _ Hhdr) in H. discriminate.
  - unfold GZIPHandler.calculate_chunk, bind at 1 in H. rewrite Hhdr in H. discriminate.
Qed.

(** C1 (amended): a chunk returned by any of the five calculators starts
    at the candidate offset and ends strictly after it, since a chunk is
    checked when it is created.  The end is not compared with the length
    of the source. *)
Theorem returned_chunk_is_not_empty
    (inflate : list byte -> GZIPHandler.InflateStatus) (buffer_size fuel : nat)
    (f : File) (start : Z) (c : ValidChunk) :
  (returns (GZIPHandler.calculate_chunk inflate buffer_size start f) (Some c) ->
     start_offset c = start /\ end_offset c > start_offset c)
  /\ (returns (LZHHandler.calculate_chunk start f) (Some c) ->
      start_offset c = start /\ end_offset c > start_offset c)
  /\ (returns (NTFSHandler.calculate_chunk start f) (Some c) ->
      start_offset c = start /\ end_offset c > start_offset c)
  /\ (returns (UBIFSHandler.calculate_chunk start f) (Some c) ->
      start_offset c = start /\ end_offset c > start_offset c)
  /\ (returns (UBIHandler.calculate_chunk fuel start f) (Some c) ->
      start_offset c = start /\ end_offset c > start_offset c).
Proof.
  split; [|split; [|split; [|split]]]; intros H.
  - apply gzip_chunk_bounds in H. destruct H as (Hs & _ & He). split; [exact Hs | lia].
  - apply lzh_chunk_bounds in H. destruct H as (Hs & _ & _ & He).
    split; [exact Hs | lia].
  - apply ntfs_chunk_bounds in H. destruct H as [Hs He]. split; [exact Hs | lia].
  - apply ubifs_chunk_bounds in H. destruct H as (Hs & He & _).
    split; [exact Hs | lia].
  - apply ubi_chunk_bounds in H. destruct H as (Hs & He).
    split; [exact Hs | lia].
Qed.

Lemma returned_chunk_is_not_empty_witness :
  (exists c,
     returns (GZIPHandler.calculate_chunk GZIPHandler.stored_inflate 4 3 gzip_sample) (Some c)
     /\ start_offset c = 3 /\ end_offset c > start_offset c)
  /\ (exists c,
        returns (UBIHandler.calculate_chunk 64 2 ubi_sample) (Some c)
        /\ start_offset c = 2 /\ end_offset c > start_offset c).
Proof.
  split.
  - exists (mkValidChunk 3 31).
    assert (Hret : returns (GZIPHandler.calculate_chunk GZIPHandler.stored_inflate 4 3
                              gzip_sample) (Some (mkValidChunk 3 31)))
      by (eexists; vm_compute; reflexivity).
    split; [exact Hret|].
    destruct (returned_chunk_is_not_empty GZIPHandler.stored_inflate 4 0
                gzip_sample 3 (mkValidChunk 3 31)) as (Hgzip & _).
    exact (Hgzip Hret).
  - exists (mkValidChunk 2 26).
    assert (Hret : returns (UBIHandler.calculate_chunk 64 2 ubi_sample)
                           (Some (mkValidChunk 2 26)))
      by (eexists; vm_compute; reflexivity).
    split; [exact Hret|].
    destruct (returned_chunk_is_not_empty GZIPHandler.stored_inflate 4 64
                ubi_sample 2 (mkValidChunk 2 26)) as (_ & _ & _ & _ & Hubi).
    exact (Hubi Hret).
Defined.

(** C1 as stated fails: a UBIFS superblock with 64 erase blocks of
    0x1f000 bytes in a source of 4096 bytes gives a chunk that ends far
    past the end of the source. *)
Lemma chunk_past_source_counterexample :
  exists c,
    returns (UBIFSHandler.calculate_chunk 0 (ubifs_sample BIG 0x1f000 0x40)) (Some c)
    /\ source_length (ubifs_sample BIG 0x1f000 0x40) = 4096
    /\ end_offset c = 0x7c0000
    /\ ~ (end_offset c > start_offset c
          /\ end_offset c <= source_length (ubifs_sample BIG 0x1f000 0x40)).
Proof.
  exists (mkValidChunk 0 0x7c0000). split; [eexists; vm_compute; reflexivity|].
  split; [reflexivity|]. split; [reflexivity|].
  cbn [start_offset end_offset]. intros [_ H]. vm_compute in H. apply H. reflexivity.
Qed.

(* ================================================================== *)
(** ** Further properties: LZH *)
(* ================================================================== *)

Lemma field_bytes_decode_fields l : forall e data name off n,
  field_offset name l = Some (off, Bytes n) ->
  field_bytes (decode_fields e l data) name = firstn n (skipn off data).
Proof.
  induction l as [|[k t] r IH]; intros e data name off n H; simpl in H; [discriminate|].
  simpl. destruct (String.eqb k name).
  - injection H as <- ->. reflexivity.
  - destruct (field_offset name r) as [[o t']|] eqn:E; [|discriminate].
    injection H as <- ->.
    rewrite (IH e _ name o n E), skipn_skipn.
    now rewrite (Nat.add_comm o).
Qed.

Lemma field_bytes_header_at l e f name off n :
  field_offset name l = Some (off, Bytes n) ->
  (off + n <= layout_size l)%nat ->
  field_bytes (header_at l e f) name = slice off n f.
Proof.
  intros H Hle. unfold header_at.
  rewrite (field_bytes_decode_fields l e _ name off n H).
  now rewrite slice_peek.
Qed.

(** An integer field of [w] bytes is below 256^w. *)
Lemma field_uint_range l e f name off w :
  field_offset name l = Some (off, UInt w) ->
  (off + w <= layout_size l)%nat ->
  0 <= field (header_at l e f) name < 256 ^ Z.of_nat w.
Proof.
  intros H Hle. rewrite (field_header_at l e f name off w H Hle).
  split; [apply decode_uint_nonneg|].
  pose proof (decode_uint_bound e (slice off w f)) as Hb.
  assert (Hl : (length (slice off w f) <= w)%nat) by apply firstn_le_length.
  apply Z.lt_le_trans with (1 := Hb). apply Z.pow_le_mono_r; lia.
Qed.

Lemma le_uint_low_high data :
  le_uint (firstn 2 data)
  = le_uint (firstn 1 data) + Z.shiftl (le_uint (firstn 1 (skipn 1 data))) 8.
Proof.
  destruct data as [|a [|b r]]; cbn [firstn skipn le_uint];
    rewrite ?Z.shiftl_mul_pow2 by lia; change (2 ^ 8) with 256; lia.
Qed.

(** X3: the level-2 trick is a re-parse.  Decoding the same 21 bytes
    with the second structure of C_DEFINITIONS, [level_2_header_t], gives
    as its 16-bit header_size exactly header_size + (header_checksum << 8)
    of the default structure, and the same method id, sizes, timestamp,
    attribute and level; so for level 2 the header size the calculator
    uses is the header_size field of [level_2_header_t]. *)
Theorem lzh_level2_trick_is_reparse (f : File) :
  let h := header_at LZHHandler.lzh_default_header_t LITTLE f in
  let h2 := header_at LZHHandler.level_2_header_t LITTLE f in
  layout_size LZHHandler.level_2_header_t = layout_size LZHHandler.lzh_default_header_t
  /\ field h2 "header_size"
     = field h "header_size" + Z.shiftl (field h "header_checksum") 8
  /\ field_bytes h2 "method_id" = field_bytes h "method_id"
  /\ field h2 "compressed_size" = field h "compressed_size"
  /\ field h2 "uncompressed_size" = field h "uncompressed_size"
  /\ field h2 "timestamp" = field h "timestamp"
  /\ field h2 "fd_attribute" = field h "fd_attribute"
  /\ field h2 "level_identifier" = field h "level_identifier"
  /\ (field h "level_identifier" = 2 ->
      LZHHandler.real_header_size h = field h2 "header_size").
Proof.
  intros h h2.
  assert (Hsize : field h2 "header_size"
                  = field h "header_size" + Z.shiftl (field h "header_checksum") 8).
  { unfold h, h2, header_at.
    change (layout_size LZHHandler.level_2_header_t) with 21%nat.
    change (layout_size LZHHandler.lzh_default_header_t) with 21%nat.
    rewrite (field_decode_fields LZHHandler.level_2_header_t LITTLE _ "header_size" 0 2 eq_refl).
    rewrite (field_decode_fields LZHHandler.lzh_default_header_t LITTLE _ "header_size" 0 1 eq_refl).
    rewrite (field_decode_fields LZHHandler.lzh_default_header_t LITTLE _ "header_checksum" 1 1 eq_refl).
    cbn [skipn decode_uint]. apply le_uint_low_high. }
  assert (Hsame : forall name off w,
            field_offset name LZHHandler.level_2_header_t = Some (off, UInt w) ->
            field_offset name LZHHandler.lzh_default_header_t = Some (off, UInt w) ->
            field h2 name = field h name).
  { intros name off w H2 H0. unfold h, h2, header_at.
    change (layout_size LZHHandler.level_2_header_t) with 21%nat.
    change (layout_size LZHHandler.lzh_default_header_t) with 21%nat.
    now rewrite (field_decode_fields _ LITTLE _ name off w H2),
                (field_decode_fields _ LITTLE _ name off w H0). }
  split; [reflexivity|]. split; [exact Hsize|]. split.
  { unfold h, h2, header_at.
    change (layout_size LZHHandler.level_2_header_t) with 21%nat.
    change (layout_size LZHHandler.lzh_default_header_t) with 21%nat.
    now rewrite (field_bytes_decode_fields LZHHandler.level_2_header_t LITTLE _ "method_id" 2 5 eq_refl),
                (field_bytes_decode_fields LZHHandler.lzh_default_header_t LITTLE _ "method_id" 2 5 eq_refl). }
  split; [apply (Hsame _ 7%nat 4%nat); reflexivity|].
  split; [apply (Hsame _ 11%nat 4%nat); reflexivity|].
  split; [apply (Hsame _ 15%nat 4%nat); reflexivity|].
  split; [apply (Hsame _ 19%nat 1%nat); reflexivity|].
  split; [apply (Hsame _ 20%nat 1%nat); reflexivity|].
  intros Hlevel. unfold LZHHandler.real_header_size. rewrite Hlevel, Hsize. reflexivity.
Qed.

Lemma lzh_level2_trick_is_reparse_witness :
  LZHHandler.real_header_size
    (header_at LZHHandler.lzh_default_header_t LITTLE lzh_level2_sample)
  = field (header_at LZHHandler.level_2_header_t LITTLE lzh_level2_sample) "header_size".
Proof.
  destruct (lzh_level2_trick_is_reparse lzh_level2_sample)
    as (_ & _ & _ & _ & _ & _ & _ & _ & Htrick).
  apply Htrick. reflexivity.
Defined.

(** X4: the LZH result is a function of the cursor, the length of the
    data and four header fields: header_size, header_checksum,
    compressed_size and level_identifier.  The method id, the
    uncompressed size, the timestamp, the attribute and every byte after
    the header, the absorbed last byte included, have no influence: two
    files that agree on the former build the same chunk, returned by both
    when it is not empty and refused with the format error for both when
    it is. *)
Theorem lzh_result_depends_on_four_fields (f g : File) (start : Z) :
  available 21 f -> available 21 g ->
  pos f = pos g ->
  length (content f) = length (content g) ->
  slice 0 1 f = slice 0 1 g ->
  slice 1 1 f = slice 1 1 g ->
  slice 7 4 f = slice 7 4 g ->
  slice 20 1 f = slice 20 1 g ->
  let header := header_at LZHHandler.HEADER_STRUCT LITTLE f in
  let e := absorb_terminator (source_length f)
             (Z.of_nat (pos f) + LZHHandler.real_header_size header
              + field header "compressed_size") in
  yields (LZHHandler.calculate_chunk start f) start e
  /\ yields (LZHHandler.calculate_chunk start g) start e.
Proof.
  intros Hf Hg Hpos Hlen H0 H1 H7 H20.
  assert (Hfield : forall name off w,
            field_offset name LZHHandler.HEADER_STRUCT = Some (off, UInt w) ->
            (off + w <=? 21)%nat = true ->
            slice off w f = slice off w g ->
            field (header_at LZHHandler.HEADER_STRUCT LITTLE f) name
            = field (header_at LZHHandler.HEADER_STRUCT LITTLE g) name).
  { intros name off w Ho Hle Hs. apply Nat.leb_le in Hle.
    rewrite (field_header_at _ LITTLE f name off w Ho) by exact Hle.
    rewrite (field_header_at _ LITTLE g name off w Ho) by exact Hle.
    now rewrite Hs. }
  pose proof (Hfield "header_size"%string 0%nat 1%nat eq_refl eq_refl H0) as Ehs.
  pose proof (Hfield "header_checksum"%string 1%nat 1%nat eq_refl eq_refl H1) as Ecs.
  pose proof (Hfield "compressed_size"%string 7%nat 4%nat eq_refl eq_refl H7) as Ecomp.
  pose proof (Hfield "level_identifier"%string 20%nat 1%nat eq_refl eq_refl H20) as Elev.
  intros header e. split.
  - rewrite (lzh_calculate_chunk_run f start Hf). apply built_yields.
  - rewrite (lzh_calculate_chunk_run g start Hg).
    unfold LZHHandler.real_header_size, source_length.
    rewrite <- Ehs, <- Ecs, <- Ecomp, <- Elev, <- Hpos, <- Hlen. apply built_yields.
Qed.

Lemma lzh_result_depends_on_four_fields_witness :
  returns (LZHHandler.calculate_chunk 2 lzh_level1_sample) (Some (mkValidChunk 2 30))
  /\ returns (LZHHandler.calculate_chunk 2 lzh_level1_variant) (Some (mkValidChunk 2 30)).
Proof.
  assert (Hf : available 21 lzh_level1_sample) by (unfold available; simpl; lia).
  assert (Hg : available 21 lzh_level1_variant) by (unfold available; simpl; lia).
  destruct (lzh_result_depends_on_four_fields lzh_level1_sample lzh_level1_variant 2
              Hf Hg eq_refl eq_refl eq_refl eq_refl eq_refl eq_refl)
    as [[Hchunk _] [Hchunk' _]].
  split; [apply Hchunk | apply Hchunk']; vm_compute; reflexivity.
Defined.

(** X5: sizes of an LZH chunk.  For every level other than 2 (levels 3
    and above are treated like 0 and 1) the header size used is
    header_size + 2, between 2 and 257; for level 2 it is at most 65535.
    The chunk that the calculator builds, returned unless it is empty,
    ends at or after the cursor and at most 65535 + (2^32 - 1) + 1 bytes
    after it. *)
Theorem lzh_chunk_length_bounds (f : File) (start : Z) :
  available 21 f ->
  let header := header_at LZHHandler.HEADER_STRUCT LITTLE f in
  (field header "level_identifier" <> 2 ->
     LZHHandler.real_header_size header = field header "header_size" + 2
     /\ 2 <= LZHHandler.real_header_size header <= 257)
  /\ (field header "level_identifier" = 2 ->
      0 <= LZHHandler.real_header_size header <= 65535)
  /\ (let e := absorb_terminator (source_length f)
                (Z.of_nat (pos f) + LZHHandler.real_header_size header
                 + field header "compressed_size") in
      yields (LZHHandler.calculate_chunk start f) start e
      /\ Z.of_nat (pos f) <= e <= Z.of_nat (pos f) + 4295032831).
Proof.
  intros Hav header.
  assert (Hhs : 0 <= field header "header_size" < 256)
    by (apply (lzh_field_u8 f "header_size" 0); [reflexivity | lia]).
  assert (Hck : 0 <= field header "header_checksum" < 256)
    by (apply (lzh_field_u8 f "header_checksum" 1); [reflexivity | lia]).
  assert (Hcs : 0 <= field header "compressed_size" < 256 ^ Z.of_nat 4)
    by (apply (field_uint_range _ LITTLE f "compressed_size" 7 4); [reflexivity | simpl; lia]).
  change (256 ^ Z.of_nat 4) with 4294967296 in Hcs.
  assert (Hother : field header "level_identifier" <> 2 ->
                   LZHHandler.real_header_size header = field header "header_size" + 2).
  { intros Hne. unfold LZHHandler.real_header_size, LZHHandler.PADDING_LEN.
    destruct (Z.eqb_spec (field header "level_identifier") 2); [contradiction | reflexivity]. }
  assert (Htwo : field header "level_identifier" = 2 ->
                 LZHHandler.real_header_size header
                 = field header "header_size" + 256 * field header "header_checksum").
  { intros He. unfold LZHHandler.real_header_size. rewrite He. simpl (2 =? 2). cbv iota.
    rewrite Z.shiftl_mul_pow2 by lia. change (2 ^ 8) with 256. lia. }
  split; [|split].
  - intros Hne. rewrite (Hother Hne). split; [reflexivity | lia].
  - intros He. rewrite (Htwo He). lia.
  - cbv zeta.
    split; [rewrite (lzh_calculate_chunk_run f start Hav); apply built_yields|].
    assert (Hrange : 0 <= LZHHandler.real_header_size header <= 65535).
    { destruct (Z.eq_dec (field header "level_identifier") 2) as [He | Hne];
        [rewrite (Htwo He) | rewrite (Hother Hne)]; lia. }
    remember (LZHHandler.real_header_size header) as hs.
    remember (field header "compressed_size") as cs.
    unfold absorb_terminator.
    destruct (Z.eqb_spec (source_length f - (Z.of_nat (pos f) + hs + cs)) 1); lia.
Qed.

Lemma lzh_chunk_length_bounds_witness :
  returns (LZHHandler.calculate_chunk 0 lzh_level2_sample) (Some (mkValidChunk 0 264))
  /\ 0 <= 264 <= 4295032831.
Proof.
  assert (Hav : available 21 lzh_level2_sample) by (unfold available; simpl; lia).
  destruct (lzh_chunk_length_bounds lzh_level2_sample 0 Hav) as (_ & _ & [Hret _] & Hb).
  split; [apply Hret; vm_compute; reflexivity | exact Hb].
Defined.

Lemma matches_length p : forall data,
  Yara.matches p data = true -> (length p <= length data)%nat.
Proof.
  induction p as [|a p IH]; intros [|b data] H; simpl in *; try lia; try discriminate.
  apply andb_true_iff in H. destruct H as [_ H]. apply IH in H. lia.
Qed.

Lemma matches_nth_error p : forall data i a,
  Yara.matches p data = true ->
  nth_error p i = Some a ->
  exists b, nth_error data i = Some b /\ Yara.atom_matches a b = true.
Proof.
  induction p as [|a0 p IH]; intros [|b0 data] i a H Hi; simpl in H.
  - destruct i; discriminate.
  - destruct i; discriminate.
  - discriminate.
  - apply andb_true_iff in H. destruct H as [Ha H].
    destruct i as [|i]; simpl in Hi |- *.
    + injection Hi as <-. exists b0. auto.
    + now apply (IH data i a).
Qed.

(** A run of literal bytes matches only themselves. *)
Lemma matches_literals bs : forall rest data,
  Yara.matches (map Yara.Lit bs ++ rest) data = true ->
  firstn (length bs) data = bs /\ Yara.matches rest (skipn (length bs) data) = true.
Proof.
  induction bs as [|b bs IH]; intros rest data H; [split; [reflexivity | exact H]|].
  destruct data as [|d data]; [discriminate|].
  cbn [map app Yara.matches Yara.atom_matches] in H.
  apply andb_true_iff in H. destruct H as [Hb H].
  apply Byte.byte_dec_bl in Hb. subst d.
  destruct (IH rest data H) as [Hf Hr]. cbn [length firstn skipn].
  split; [now rewrite Hf | exact Hr].
Qed.

Lemma firstn_1_skipn {A} (d : A) (l : list A) n :
  (n < length l)%nat -> firstn 1 (skipn n l) = [nth n l d].
Proof.
  revert l. induction n as [|n IH]; intros [|x l] H; simpl in H; try lia.
  - reflexivity.
  - cbn [skipn nth]. apply IH. lia.
Qed.

(** X6: the LZH signature and the header layout agree.  When one of the
    twelve magic strings matches at offset m and the header is parsed at
    m + YARA_MATCH_OFFSET, the magic is the method_id field, and the byte
    the rule's condition compares with 2, the one 18 bytes after the
    magic, is the level_identifier the calculator branches on. *)
Theorem lzh_signature_matches_layout (f : File) (m : nat) (magic : string) :
  In magic LZHHandler.lzh_magics ->
  available 21 f ->
  Z.of_nat (pos f) = Z.of_nat m + LZHHandler.YARA_MATCH_OFFSET ->
  Yara.matches (Yara.text magic) (skipn m (content f)) = true ->
  let header := header_at LZHHandler.HEADER_STRUCT LITTLE f in
  field_bytes header "method_id" = list_byte_of_string magic
  /\ field header "level_identifier"
     = byte_val (nth (Z.to_nat (Z.of_nat m + LZHHandler.level_check_offset))
                     (content f) x00).
Proof.
  intros Hin Hav Hpos Hmatch header.
  unfold LZHHandler.YARA_MATCH_OFFSET in Hpos. unfold LZHHandler.level_check_offset.
  assert (Hm : m = (pos f + 2)%nat) by lia. subst m.
  assert (Hlen5 : length (list_byte_of_string magic) = 5%nat).
  { assert (Hall : Forall (fun s => length (list_byte_of_string s) = 5%nat)
                          LZHHandler.lzh_magics) by (repeat constructor).
    rewrite Forall_forall in Hall. now apply Hall. }
  split.
  - unfold header.
    rewrite (field_bytes_header_at LZHHandler.HEADER_STRUCT LITTLE f "method_id" 2 5 eq_refl)
      by (simpl; lia).
    unfold Yara.text in Hmatch. rewrite <- (app_nil_r (map Yara.Lit _)) in Hmatch.
    apply matches_literals in Hmatch. destruct Hmatch as [Hfirst _].
    rewrite Hlen5 in Hfirst. exact Hfirst.
  - unfold header.
    rewrite (field_header_at LZHHandler.HEADER_STRUCT LITTLE f "level_identifier" 20 1 eq_refl)
      by (simpl; lia).
    unfold slice. unfold available in Hav.
    rewrite (firstn_1_skipn x00) by lia.
    cbn [decode_uint le_uint]. rewrite Z.mul_0_r, Z.add_0_r.
    do 2 f_equal. lia.
Qed.

Lemma lzh_signature_matches_layout_witness :
  field_bytes (header_at LZHHandler.HEADER_STRUCT LITTLE lzh_level1_sample) "method_id"
  = list_byte_of_string "-lh5-"
  /\ field (header_at LZHHandler.HEADER_STRUCT LITTLE lzh_level1_sample) "level_identifier" = 1.
Proof.
  destruct (lzh_signature_matches_layout lzh_level1_sample 4 "-lh5-") as [Hid Hlevel];
    [simpl; tauto | unfold available; simpl; lia | reflexivity | reflexivity |].
  split; [exact Hid | rewrite Hlevel; reflexivity].
Defined.

(* ================================================================== *)
(** ** Further properties: NTFS *)
(* ================================================================== *)

(** X7: the NTFS result is a function of two fields of the boot sector,
    bytes_per_sector and total_sectors, and of [start_offset].  No other
    byte of the boot sector, no byte after it and not the length of the
    source has any influence. *)
Theorem ntfs_result_depends_on_two_fields (f g : File) (start : Z) :
  available 512 f -> available 512 g ->
  slice 11 2 f = slice 11 2 g ->
  slice 40 8 f = slice 40 8 g ->
  exists r,
    returns (NTFSHandler.calculate_chunk start f) r
    /\ returns (NTFSHandler.calculate_chunk start g) r.
Proof.
  intros Hf Hg H11 H40.
  assert (Ebps : field (header_at NTFSHandler.HEADER_STRUCT LITTLE f) "bytes_per_sector"
                 = field (header_at NTFSHandler.HEADER_STRUCT LITTLE g) "bytes_per_sector").
  { rewrite (field_header_at NTFSHandler.HEADER_STRUCT LITTLE f "bytes_per_sector" 11 2 eq_refl)
      by (apply Nat.leb_le; reflexivity).
    rewrite (field_header_at NTFSHandler.HEADER_STRUCT LITTLE g "bytes_per_sector" 11 2 eq_refl)
      by (apply Nat.leb_le; reflexivity).
    now rewrite H11. }
  assert (Ets : field (header_at NTFSHandler.HEADER_STRUCT LITTLE f) "total_sectors"
                = field (header_at NTFSHandler.HEADER_STRUCT LITTLE g) "total_sectors").
  { rewrite (field_header_at NTFSHandler.HEADER_STRUCT LITTLE f "total_sectors" 40 8 eq_refl)
      by (apply Nat.leb_le; reflexivity).
    rewrite (field_header_at NTFSHandler.HEADER_STRUCT LITTLE g "total_sectors" 40 8 eq_refl)
      by (apply Nat.leb_le; reflexivity).
    now rewrite H40. }
  eexists. split.
  - eexists. apply (ntfs_calculate_chunk_run f start Hf).
  - eexists. rewrite (ntfs_calculate_chunk_run g start Hg).
    rewrite <- Ebps, <- Ets. reflexivity.
Qed.

(** X8: an NTFS chunk is longer than the 512-byte boot sector and at most
    512 + (2^64 - 1) * (2^16 - 1) bytes long. *)
Theorem ntfs_chunk_length_bounds (f : File) (start : Z) (c : ValidChunk) :
  returns (NTFSHandler.calculate_chunk start f) (Some c) ->
  start_offset c = start
  /\ 512 < end_offset c - start_offset c
  /\ end_offset c - start_offset c <= 512 + 18446744073709551615 * 65535.
Proof.
  intros [f' H].
  assert (Hav : available 512 f).
  { unfold NTFSHandler.calculate_chunk in H.
    apply (calculate_chunk_parses NTFSHandler.HEADER_STRUCT LITTLE) in H;
      [exact H | apply Nat.ltb_lt; reflexivity]. }
  pose proof (ntfs_calculate_chunk_run f start Hav) as Hrun. cbv zeta in Hrun.
  assert (Ht : 0 <= field (header_at NTFSHandler.HEADER_STRUCT LITTLE f) "total_sectors"
               < 256 ^ Z.of_nat 8)
    by (apply (field_uint_range NTFSHandler.HEADER_STRUCT LITTLE f "total_sectors" 40 8 eq_refl);
        apply Nat.leb_le; reflexivity).
  assert (Hb : 0 <= field (header_at NTFSHandler.HEADER_STRUCT LITTLE f) "bytes_per_sector"
               < 256 ^ Z.of_nat 2)
    by (apply (field_uint_range NTFSHandler.HEADER_STRUCT LITTLE f "bytes_per_sector" 11 2 eq_refl);
        apply Nat.leb_le; reflexivity).
  change (256 ^ Z.of_nat 8) with 18446744073709551616 in Ht.
  change (256 ^ Z.of_nat 2) with 65536 in Hb.
  remember (field (header_at NTFSHandler.HEADER_STRUCT LITTLE f) "total_sectors") as ts.
  remember (field (header_at NTFSHandler.HEADER_STRUCT LITTLE f) "bytes_per_sector") as bps.
  rewrite Hrun in H.
  destruct (Z.eqb_spec (ts * bps) 0) as [|Hne]; [discriminate|].
  assert (Hchunk : c = mkValidChunk start (start + 512 + ts * bps)) by congruence.
  rewrite Hchunk. cbn [start_offset end_offset].
  split; [reflexivity|]. split; nia.
Qed.

Lemma ntfs_chunk_length_bounds_witness :
  512 < end_offset (mkValidChunk 0 2048) - start_offset (mkValidChunk 0 2048)
  /\ returns (NTFSHandler.calculate_chunk 0 (ntfs_sample x03)) (Some (mkValidChunk 0 2048)).
Proof.
  assert (Hret : returns (NTFSHandler.calculate_chunk 0 (ntfs_sample x03))
                         (Some (mkValidChunk 0 2048)))
    by (eexists; vm_compute; reflexivity).
  destruct (ntfs_chunk_length_bounds (ntfs_sample x03) 0 (mkValidChunk 0 2048) Hret)
    as (_ & Hlow & _).
  split; [exact Hlow | exact Hret].
Defined.

Lemma firstn_2_skipn {A} (l : list A) : forall k a b,
  nth_error l k = Some a -> nth_error l (S k) = Some b ->
  firstn 2 (skipn k l) = [a; b].
Proof.
  induction l as [|x l IH]; intros [|k] a b Ha Hb; simpl in Ha, Hb; try discriminate.
  - destruct l as [|y l]; [discriminate|]. simpl in Hb. simpl. congruence.
  - cbn [skipn]. now apply IH.
Qed.

Lemma matches_available p f :
  Yara.matches p (skipn (pos f) (content f)) = true ->
  (0 < length p)%nat ->
  available (length p) f.
Proof.
  intros H Hp. apply matches_length in H. rewrite length_skipn in H.
  unfold available. lia.
Qed.

Lemma matches_byte_at p f i a :
  Yara.matches p (skipn (pos f) (content f)) = true ->
  nth_error p i = Some a ->
  exists b, nth_error (content f) (pos f + i) = Some b /\ Yara.atom_matches a b = true.
Proof.
  intros H Hi. destruct (matches_nth_error p _ i a H Hi) as (b & Hb & Ha).
  exists b. rewrite nth_error_skipn in Hb. auto.
Qed.

(** X9: a candidate of the NTFS signature always parses: the 512 bytes
    are there, the OEM name and the boot-sector magic hold the
    signature's values, and bytes_per_sector is at least 256 because the
    rule wants its high byte non-zero.  So the calculator rejects the
    candidate exactly when total_sectors is 0, and a chunk it returns is
    at least 768 bytes long. *)
Theorem ntfs_signature_candidate (f : File) (start : Z) :
  Yara.matches NTFSHandler.ntfs_magic (skipn (pos f) (content f)) = true ->
  let header := header_at NTFSHandler.HEADER_STRUCT LITTLE f in
  available (layout_size NTFSHandler.HEADER_STRUCT) f
  /\ field_bytes header "oem_id" = list_byte_of_string "NTFS    "
  /\ field header "boot_magic" = 0xAA55
  /\ 256 <= field header "bytes_per_sector"
  /\ (returns (NTFSHandler.calculate_chunk start f) None
      <-> field header "total_sectors" = 0)
  /\ (forall c, returns (NTFSHandler.calculate_chunk start f) (Some c) ->
                768 <= end_offset c - start_offset c).
Proof.
  intros Hmatch header.
  assert (Hav : available 512 f)
    by (apply (matches_available NTFSHandler.ntfs_magic f Hmatch); apply Nat.ltb_lt; reflexivity).
  assert (Hoem : field_bytes header "oem_id" = list_byte_of_string "NTFS    ").
  { unfold header.
    rewrite (field_bytes_header_at NTFSHandler.HEADER_STRUCT LITTLE f "oem_id" 3 8 eq_refl)
      by (apply Nat.leb_le; reflexivity).
    unfold NTFSHandler.ntfs_magic in Hmatch.
    apply matches_literals in Hmatch. destruct Hmatch as [Hfirst _].
    cbn [length] in Hfirst. fold (peek 11 f) in Hfirst.
    rewrite <- (slice_peek 11 3 8 f) by lia. rewrite Hfirst. reflexivity. }
  assert (Hmagic : field header "boot_magic" = 0xAA55).
  { unfold header.
    rewrite (field_header_at NTFSHandler.HEADER_STRUCT LITTLE f "boot_magic" 510 2 eq_refl)
      by (apply Nat.leb_le; reflexivity).
    destruct (matches_byte_at _ f 510 (Yara.Lit x55) Hmatch eq_refl) as (b0 & Hb0 & Ha0).
    destruct (matches_byte_at _ f 511 (Yara.Lit xaa) Hmatch eq_refl) as (b1 & Hb1 & Ha1).
    apply Byte.byte_dec_bl in Ha0, Ha1. subst b0 b1.
    unfold slice. rewrite (firstn_2_skipn _ _ x55 xaa Hb0)
      by (replace (S (pos f + 510)) with (pos f + 511)%nat by lia; exact Hb1).
    reflexivity. }
  assert (Hbps : 256 <= field header "bytes_per_sector").
  { unfold header.
    rewrite (field_header_at NTFSHandler.HEADER_STRUCT LITTLE f "bytes_per_sector" 11 2 eq_refl)
      by (apply Nat.leb_le; reflexivity).
    destruct (matches_byte_at _ f 11 (Yara.Range x00 xff) Hmatch eq_refl) as (b0 & Hb0 & _).
    destruct (matches_byte_at _ f 12 (Yara.Range x01 xff) Hmatch eq_refl) as (b1 & Hb1 & Ha1).
    unfold slice. rewrite (firstn_2_skipn _ _ b0 b1 Hb0)
      by (replace (S (pos f + 11)) with (pos f + 12)%nat by lia; exact Hb1).
    cbn [Yara.atom_matches] in Ha1. apply andb_true_iff in Ha1. destruct Ha1 as [Hlo _].
    apply N.leb_le in Hlo. change (Byte.to_N x01) with 1%N in Hlo.
    cbn [decode_uint le_uint]. pose proof (byte_val_range b0). unfold byte_val in *. lia. }
  assert (Hts : 0 <= field header "total_sectors") by apply field_nonneg.
  pose proof (ntfs_calculate_chunk_run f start Hav) as Hrun.
  cbv zeta in Hrun. fold header in Hrun.
  remember (field header "total_sectors") as ts.
  remember (field header "bytes_per_sector") as bps.
  split; [exact Hav|]. split; [exact Hoem|]. split; [exact Hmagic|].
  split; [exact Hbps|]. split; [split|].
  - intros [f' H]. rewrite Hrun in H.
    destruct (Z.eqb_spec (ts * bps) 0); [nia | discriminate].
  - intros ->. eexists. rewrite Hrun. reflexivity.
  - intros c [f' H]. rewrite Hrun in H.
    destruct (Z.eqb_spec (ts * bps) 0) as [|Hne]; [discriminate|].
    assert (Hchunk : c = mkValidChunk start (start + 512 + ts * bps)) by congruence.
    rewrite Hchunk. cbn [start_offset end_offset].
    assert (Hone : 1 <= ts) by nia.
    assert (Hprod : 1 * 256 <= ts * bps) by (apply Z.mul_le_mono_nonneg; lia).
    lia.
Qed.

Lemma ntfs_signature_candidate_witness :
  returns (NTFSHandler.calculate_chunk 0 (ntfs_sample x00)) None
  /\ 256 <= field (header_at NTFSHandler.HEADER_STRUCT LITTLE (ntfs_sample x03))
                  "bytes_per_sector".
Proof.
  split.
  - destruct (ntfs_signature_candidate (ntfs_sample x00) 0) as (_ & _ & _ & _ & Hiff & _);
      [vm_compute; reflexivity|].
    apply Hiff. reflexivity.
  - destruct (ntfs_signature_candidate (ntfs_sample x03) 0) as (_ & _ & _ & Hbps & _);
      [vm_compute; reflexivity | exact Hbps].
Defined.

Lemma ntfs_result_depends_on_two_fields_witness :
  exists r,
    returns (NTFSHandler.calculate_chunk 0 (ntfs_sample x03)) r
    /\ returns (NTFSHandler.calculate_chunk 0 ntfs_variant) r.
Proof.
  apply (ntfs_result_depends_on_two_fields (ntfs_sample x03) ntfs_variant 0);
    try reflexivity; unfold available; simpl; lia.
Defined.

(* ================================================================== *)
(** ** Further properties: UBIFS *)
(* ================================================================== *)

Lemma chosen_endian_slice f g :
  slice 0 4 f = slice 0 4 g -> chosen_endian f = chosen_endian g.
Proof.
  unfold chosen_endian, peek, slice. rewrite !Nat.add_0_r. now intros ->.
Qed.

(** X10: the UBIFS result is a function of the magic, leb_size and
    leb_cnt (twelve bytes of the superblock) and of [start_offset].  The
    CRC, the node length, the node type and every other field, the bytes
    after the superblock and the length of the source have no
    influence: two sources that agree on the former build the same
    chunk, returned by both when it is not empty and refused with the
    format error for both when it is. *)
Theorem ubifs_result_depends_on_three_fields (f g : File) (start : Z) :
  available (layout_size UBIFSHandler.HEADER_STRUCT) f ->
  available (layout_size UBIFSHandler.HEADER_STRUCT) g ->
  slice 0 4 f = slice 0 4 g ->
  slice 36 4 f = slice 36 4 g ->
  slice 40 4 f = slice 40 4 g ->
  let sb_header := header_at UBIFSHandler.HEADER_STRUCT (chosen_endian f) f in
  let e := start + field sb_header "leb_size" * field sb_header "leb_cnt" in
  yields (UBIFSHandler.calculate_chunk start f) start e
  /\ yields (UBIFSHandler.calculate_chunk start g) start e.
Proof.
  intros Hf Hg H0 H36 H40 sb_header e.
  pose proof (chosen_endian_slice f g H0) as He.
  split.
  - rewrite (ubifs_calculate_chunk_run f start Hf). apply built_yields.
  - rewrite (ubifs_calculate_chunk_run g start Hg). rewrite <- He.
    unfold e, sb_header.
    rewrite (ubifs_field_u32 (chosen_endian f) g "leb_size" 36) by reflexivity.
    rewrite (ubifs_field_u32 (chosen_endian f) g "leb_cnt" 40) by reflexivity.
    rewrite (ubifs_field_u32 (chosen_endian f) f "leb_size" 36) by reflexivity.
    rewrite (ubifs_field_u32 (chosen_endian f) f "leb_cnt" 40) by reflexivity.
    rewrite H36, H40. apply built_yields.
Qed.

Lemma ubifs_result_depends_on_three_fields_witness :
  returns (UBIFSHandler.calculate_chunk 16 (ubifs_sample LITTLE 0x1f000 0x40))
          (Some (mkValidChunk 16 (16 + 0x7c0000)))
  /\ returns (UBIFSHandler.calculate_chunk 16 ubifs_variant)
             (Some (mkValidChunk 16 (16 + 0x7c0000))).
Proof.
  assert (Hf : available (layout_size UBIFSHandler.HEADER_STRUCT)
                        (ubifs_sample LITTLE 0x1f000 0x40)) by available_by_computation.
  assert (Hg : available (layout_size UBIFSHandler.HEADER_STRUCT) ubifs_variant)
    by available_by_computation.
  destruct (ubifs_result_depends_on_three_fields (ubifs_sample LITTLE 0x1f000 0x40)
              ubifs_variant 16 Hf Hg eq_refl eq_refl eq_refl)
    as [[Hchunk _] [Hchunk' _]].
  split; [apply Hchunk | apply Hchunk']; vm_compute; reflexivity.
Defined.

(** X11: a UBIFS chunk is at least one byte and at most (2^32 - 1)^2
    bytes long. *)
Theorem ubifs_chunk_length_bounds (f : File) (start : Z) (c : ValidChunk) :
  returns (UBIFSHandler.calculate_chunk start f) (Some c) ->
  start_offset c = start
  /\ 0 < end_offset c - start_offset c <= 4294967295 * 4294967295.
Proof.
  intros [f' H].
  assert (Hav : available (layout_size UBIFSHandler.HEADER_STRUCT) f).
  { unfold UBIFSHandler.calculate_chunk in H.
    rewrite (bind_Ok _ _ _ _ _ (get_endian_run f)) in H.
    apply (calculate_chunk_parses UBIFSHandler.HEADER_STRUCT (chosen_endian f)) in H;
      [exact H | apply Nat.ltb_lt; reflexivity]. }
  pose proof (ubifs_calculate_chunk_run f start Hav) as Hrun. cbv zeta in Hrun.
  assert (Hs : 0 <= field (header_at UBIFSHandler.HEADER_STRUCT (chosen_endian f) f) "leb_size"
               < 256 ^ Z.of_nat 4)
    by (apply (field_uint_range UBIFSHandler.HEADER_STRUCT _ f "leb_size" 36 4 eq_refl);
        apply Nat.leb_le; reflexivity).
  assert (Hc : 0 <= field (header_at UBIFSHandler.HEADER_STRUCT (chosen_endian f) f) "leb_cnt"
               < 256 ^ Z.of_nat 4)
    by (apply (field_uint_range UBIFSHandler.HEADER_STRUCT _ f "leb_cnt" 40 4 eq_refl);
        apply Nat.leb_le; reflexivity).
  change (256 ^ Z.of_nat 4) with 4294967296 in Hs, Hc.
  remember (field (header_at UBIFSHandler.HEADER_STRUCT (chosen_endian f) f) "leb_size") as ls.
  remember (field (header_at UBIFSHandler.HEADER_STRUCT (chosen_endian f) f) "leb_cnt") as lc.
  rewrite Hrun in H. apply built_inversion in H. destruct H as (Hchunk & Hlt & _).
  rewrite Hchunk. cbn [start_offset end_offset]. split; [reflexivity|].
  assert (Hprod : ls * lc <= 4294967295 * 4294967295)
    by (apply Z.mul_le_mono_nonneg; lia).
  split; lia.
Qed.

Lemma ubifs_chunk_length_bounds_witness :
  returns (UBIFSHandler.calculate_chunk 7 (ubifs_sample LITTLE 0x1f000 0x40))
          (Some (mkValidChunk 7 8126471))
  /\ 0 < end_offset (mkValidChunk 7 8126471) - start_offset (mkValidChunk 7 8126471).
Proof.
  assert (Hret : returns (UBIFSHandler.calculate_chunk 7 (ubifs_sample LITTLE 0x1f000 0x40))
                         (Some (mkValidChunk 7 8126471)))
    by (eexists; vm_compute; reflexivity).
  destruct (ubifs_chunk_length_bounds (ubifs_sample LITTLE 0x1f000 0x40) 7
              (mkValidChunk 7 8126471) Hret)
    as (_ & Hlow & _).
  split; [exact Hret | exact Hlow].
Defined.

Lemma ubifs_signature_fields (e : Endian) (f : File) (magic : list byte) :
  available (layout_size UBIFSHandler.HEADER_STRUCT) f ->
  length magic = 4%nat ->
  Yara.matches (map Yara.Lit magic ++ Yara.jump 16
                ++ [Yara.Lit x06; Yara.OneOf [x00; x01; x02]; Yara.Lit x00; Yara.Lit x00])
               (skipn (pos f) (content f)) = true ->
  slice 0 4 f = magic
  /\ field (header_at UBIFSHandler.HEADER_STRUCT e f) "ch.node_type" = 6
  /\ 0 <= field (header_at UBIFSHandler.HEADER_STRUCT e f) "ch.group_type" <= 2.
Proof.
  intros Hav Hlen Hmatch.
  assert (Hp : forall i a,
            nth_error (Yara.jump 16
                       ++ [Yara.Lit x06; Yara.OneOf [x00; x01; x02]; Yara.Lit x00; Yara.Lit x00])
                      i = Some a ->
            exists b, nth_error (content f) (pos f + (4 + i)) = Some b
                      /\ Yara.atom_matches a b = true).
  { intros i a Hi. apply (matches_byte_at _ f (4 + i) a Hmatch).
    rewrite nth_error_app2 by (rewrite length_map; lia).
    rewrite length_map, Hlen. replace (4 + i - 4)%nat with i by lia. exact Hi. }
  pose proof Hmatch as Hlit. apply matches_literals in Hlit. destruct Hlit as [Hfirst _].
  rewrite Hlen in Hfirst.
  assert (Hlt : (pos f + 24 <= length (content f))%nat).
  { apply matches_length in Hmatch. rewrite length_skipn, length_app, length_map, Hlen in Hmatch.
    simpl in Hmatch. lia. }
  split; [unfold slice; now rewrite Nat.add_0_r|].
  destruct (Hp 16%nat (Yara.Lit x06) eq_refl) as (b20 & Hb20 & Ha20).
  destruct (Hp 17%nat (Yara.OneOf [x00; x01; x02]) eq_refl) as (b21 & Hb21 & Ha21).
  apply Byte.byte_dec_bl in Ha20. subst b20.
  change (4 + 16)%nat with 20%nat in Hb20. change (4 + 17)%nat with 21%nat in Hb21.
  split.
  - rewrite (field_header_at UBIFSHandler.HEADER_STRUCT e f "ch.node_type" 20 1 eq_refl)
      by (apply Nat.leb_le; reflexivity).
    unfold slice. rewrite (firstn_1_skipn x00) by lia.
    rewrite (nth_error_nth _ _ x00 Hb20). destruct e; reflexivity.
  - rewrite (field_header_at UBIFSHandler.HEADER_STRUCT e f "ch.group_type" 21 1 eq_refl)
      by (apply Nat.leb_le; reflexivity).
    unfold slice. rewrite (firstn_1_skipn x00) by lia.
    rewrite (nth_error_nth _ _ x00 Hb21).
    cbn [Yara.atom_matches existsb] in Ha21. rewrite orb_false_r in Ha21.
    apply orb_true_iff in Ha21. destruct Ha21 as [Ha | Ha];
      [|apply orb_true_iff in Ha; destruct Ha as [Ha | Ha]];
      apply Byte.byte_dec_bl in Ha; subst b21; destruct e; vm_compute; split; discriminate.
Qed.

(** X12: a candidate of the UBIFS signature is decoded in the byte order
    of the magic that matched: for the little-endian string the chosen
    order is little-endian, for the big-endian string big-endian, and in
    the order chosen the parsed header has the superblock magic, node
    type 6 and a group type of at most 2. *)
Theorem ubifs_signature_candidate (f : File) :
  available (layout_size UBIFSHandler.HEADER_STRUCT) f ->
  Yara.matches UBIFSHandler.ubifs_superblock_magic_le (skipn (pos f) (content f)) = true
  \/ Yara.matches UBIFSHandler.ubifs_superblock_magic_be (skipn (pos f) (content f)) = true ->
  let sb_header := header_at UBIFSHandler.HEADER_STRUCT (chosen_endian f) f in
  (Yara.matches UBIFSHandler.ubifs_superblock_magic_le (skipn (pos f) (content f)) = true ->
     returns (FileUtils.get_endian UBIFSHandler._BIG_ENDIAN_MAGIC f) LITTLE)
  /\ (Yara.matches UBIFSHandler.ubifs_superblock_magic_be (skipn (pos f) (content f)) = true ->
      returns (FileUtils.get_endian UBIFSHandler._BIG_ENDIAN_MAGIC f) BIG)
  /\ field sb_header "ch.magic" = UBIFSHandler._BIG_ENDIAN_MAGIC
  /\ field sb_header "ch.node_type" = 6
  /\ 0 <= field sb_header "ch.group_type" <= 2.
Proof.
  intros Hav Hsig sb_header.
  assert (Hle : Yara.matches UBIFSHandler.ubifs_superblock_magic_le
                             (skipn (pos f) (content f)) = true ->
                chosen_endian f = LITTLE
                /\ slice 0 4 f = [x31; x18; x10; x06]).
  { intros H. destruct (ubifs_signature_fields LITTLE f [x31; x18; x10; x06] Hav eq_refl H)
      as (Hs & _).
    split; [|exact Hs]. unfold chosen_endian.
    replace (peek 4 f) with (slice 0 4 f) by (unfold peek, slice; now rewrite Nat.add_0_r).
    rewrite Hs. reflexivity. }
  assert (Hbe : Yara.matches UBIFSHandler.ubifs_superblock_magic_be
                             (skipn (pos f) (content f)) = true ->
                chosen_endian f = BIG
                /\ slice 0 4 f = [x06; x10; x18; x31]).
  { intros H. destruct (ubifs_signature_fields BIG f [x06; x10; x18; x31] Hav eq_refl H)
      as (Hs & _).
    split; [|exact Hs]. unfold chosen_endian.
    replace (peek 4 f) with (slice 0 4 f) by (unfold peek, slice; now rewrite Nat.add_0_r).
    rewrite Hs. reflexivity. }
  split; [|split].
  - intros H. destruct (Hle H) as [He _]. exists f. now rewrite get_endian_run, He.
  - intros H. destruct (Hbe H) as [He _]. exists f. now rewrite get_endian_run, He.
  - unfold sb_header. destruct Hsig as [H | H].
    + destruct (Hle H) as [He Hs]. rewrite He.
      destruct (ubifs_signature_fields LITTLE f [x31; x18; x10; x06] Hav eq_refl H)
        as (_ & Hnode & Hgroup).
      split; [|split; assumption].
      rewrite (ubifs_field_u32 LITTLE f "ch.magic" 0) by reflexivity.
      rewrite Hs. reflexivity.
    + destruct (Hbe H) as [He Hs]. rewrite He.
      destruct (ubifs_signature_fields BIG f [x06; x10; x18; x31] Hav eq_refl H)
        as (_ & Hnode & Hgroup).
      split; [|split; assumption].
      rewrite (ubifs_field_u32 BIG f "ch.magic" 0) by reflexivity.
      rewrite Hs. reflexivity.
Qed.

Lemma ubifs_signature_candidate_witness :
  returns (FileUtils.get_endian UBIFSHandler._BIG_ENDIAN_MAGIC (ubifs_sample BIG 0x1f000 0x40)) BIG
  /\ field (header_at UBIFSHandler.HEADER_STRUCT BIG (ubifs_sample BIG 0x1f000 0x40))
           "ch.node_type" = 6.
Proof.
  assert (Hav : available (layout_size UBIFSHandler.HEADER_STRUCT)
                          (ubifs_sample BIG 0x1f000 0x40)) by available_by_computation.
  destruct (ubifs_signature_candidate (ubifs_sample BIG 0x1f000 0x40) Hav)
    as (_ & Hbe & _ & Hnode & _); [right; vm_compute; reflexivity|].
  split; [apply Hbe; vm_compute; reflexivity | exact Hnode].
Defined.

(* ================================================================== *)
(** ** Further properties: UBI *)
(* ================================================================== *)

Lemma marker_at_bytes f z :
  marker_at f z = true ->
  0 <= z
  /\ forall j, (j < 4)%nat ->
       nth_error (content f) (Z.to_nat z + j) = nth_error UBIHandler._UBI_EC_HEADER j.
Proof.
  unfold marker_at. rewrite andb_true_iff, bytes_eqb_eq. intros [Hz Hw].
  apply Z.leb_le in Hz. split; [exact Hz|]. intros j Hj.
  rewrite <- Hw. unfold peek, at_pos. cbn [pos content].
  rewrite nth_error_firstn, nth_error_skipn.
  destruct (Nat.ltb_spec j 4); [reflexivity | lia].
Qed.

(** Two occurrences of the marker cannot overlap. *)
Lemma markers_apart f a b :
  marker_at f a = true -> marker_at f b = true -> a < b -> a + 4 <= b.
Proof.
  intros Ha Hb Hlt.
  destruct (marker_at_bytes f a Ha) as [Ha0 Hbytes].
  destruct (marker_at_bytes f b Hb) as [Hb0 Hbytes'].
  destruct (Z.lt_ge_cases b (a + 4)) as [Hnear|]; [exfalso | lia].
  pose proof (Hbytes' 0%nat ltac:(lia)) as Hu. rewrite Nat.add_0_r in Hu.
  assert (Hk : exists j, (0 < j < 4)%nat /\ Z.to_nat b = (Z.to_nat a + j)%nat)
    by (exists (Z.to_nat (b - a)); lia).
  destruct Hk as (j & Hj & Hbj). rewrite Hbj, (Hbytes j) in Hu by lia.
  destruct j as [|[|[|[|j]]]]; try lia; discriminate.
Qed.

(** X13: when the PEB size can be inferred it is at least 4, the length
    of the marker: it is the distance between two occurrences of the
    marker, and occurrences cannot overlap. *)
Theorem ubi_guessed_peb_size_at_least_marker (f : File) (stride : Z) :
  returns (UBIHandler._guess_peb_size f) stride ->
  4 <= stride
  /\ exists a b, In a (occurrences f) /\ In b (occurrences f) /\ stride = b - a.
Proof.
  intros [f' H].
  destruct (Nat.lt_ge_cases (length (occurrences f)) 2) as [Hfew | Hmany].
  { rewrite (guess_peb_size_none f Hfew) in H. discriminate. }
  destruct (guess_peb_size_mode f Hmany) as (m & Hmode & Hguess & Hpos).
  rewrite Hguess in H. injection H as <- _.
  destruct (mode_most_common _ _ Hmode) as [Hin _].
  destruct (In_nth _ _ 0 Hin) as (i & Hi & Hnth).
  rewrite get_intervals_length in Hi.
  rewrite get_intervals_nth in Hnth by lia.
  assert (Ha : In (nth i (occurrences f) 0) (occurrences f)) by (apply nth_In; lia).
  assert (Hb : In (nth (S i) (occurrences f) 0) (occurrences f)) by (apply nth_In; lia).
  split.
  - apply occurrences_marker_at in Ha, Hb.
    pose proof (markers_apart f _ _ Ha Hb) as Hgap. lia.
  - exists (nth i (occurrences f) 0), (nth (S i) (occurrences f) 0). auto.
Qed.

Lemma ubi_guessed_peb_size_at_least_marker_witness :
  returns (UBIHandler._guess_peb_size ubi_sample) 8 /\ 4 <= 8.
Proof.
  assert (Hret : returns (UBIHandler._guess_peb_size ubi_sample) 8)
    by (eexists; vm_compute; reflexivity).
  destruct (ubi_guessed_peb_size_at_least_marker ubi_sample 8 Hret) as [Hfour _].
  split; [exact Hret | exact Hfour].
Defined.

(** X14: the UBI calculator returns no chunk exactly when the source
    holds fewer than two occurrences of the marker, whatever the start
    offset: with two or more it returns a chunk or fails, and never
    returns nothing. *)
Theorem ubi_no_chunk_iff_fewer_than_two_markers (f : File) (start : Z) (fuel : nat) :
  returns (UBIHandler.calculate_chunk fuel start f) None
  <-> (length (occurrences f) < 2)%nat.
Proof.
  split.
  - intros [f' H].
    destruct (Nat.lt_ge_cases (length (occurrences f)) 2) as [Hfew | Hmany]; [exact Hfew|].
    exfalso.
    destruct (guess_peb_size_mode f Hmany) as (stride & _ & Hguess & _).
    destruct (Z.lt_ge_cases start 0) as [Hneg | Hnn].
    + unfold UBIHandler.calculate_chunk, bind at 1, try_except, bind at 1 in H.
      rewrite Hguess in H. unfold ret at 1 in H. unfold bind, seek in H.
      destruct (Z.ltb_spec start 0); [discriminate | lia].
    + rewrite (ubi_calculate_chunk_walk fuel start f stride Hguess Hnn) in H.
      destruct (UBIHandler._walk_ubi fuel stride (at_pos f (Z.to_nat start)))
        as [v f1| |] eqn:E;
        [|rewrite (bind_Raise _ _ _ _ E) in H; discriminate
         |unfold bind in H; rewrite E in H; discriminate].
      rewrite (bind_Ok _ _ _ _ _ E), make_chunk_built in H. unfold built in H.
      destruct (start <? v); discriminate.
  - intros Hfew. exists f. now apply ubi_calculate_chunk_none.
Qed.

Lemma ubi_no_chunk_iff_fewer_than_two_markers_witness :
  returns (UBIHandler.calculate_chunk 64 (-5) ubi_single_sample) None.
Proof.
  apply (ubi_no_chunk_iff_fewer_than_two_markers ubi_single_sample (-5) 64).
  simpl. lia.
Defined.

(** X15: the walk ends for every positive PEB size, within one iteration
    per byte left in the source and one more; with a PEB size of 0 it
    never ends when the cursor is on a marker, since it reads the same
    window again and again. *)
Theorem walk_ubi_termination (f : File) (peb_size : Z) :
  (0 < peb_size ->
     forall fuel, (length (content f) - pos f < fuel)%nat ->
       exists end_offset, returns (UBIHandler._walk_ubi fuel peb_size f) end_offset)
  /\ (peb_size = 0 -> marker_at f (Z.of_nat (pos f)) = true ->
      forall fuel, UBIHandler._walk_ubi fuel peb_size f = OutOfFuel).
Proof.
  split.
  - intros Hpos fuel Hfuel.
    destruct (walk_ubi_spec peb_size Hpos fuel f Hfuel) as (n & Hret & _).
    eexists. exact Hret.
  - intros -> Hm fuel. induction fuel as [|fuel IH]; [reflexivity|].
    rewrite walk_ubi_step by (try exact Hm; lia).
    rewrite Z.add_0_r, Nat2Z.id, at_pos_same. exact IH.
Qed.

Lemma walk_ubi_termination_witness :
  UBIHandler._walk_ubi 1000 0 (at_pos ubi_sample 2) = OutOfFuel
  /\ exists end_offset, returns (UBIHandler._walk_ubi 64 8 (at_pos ubi_sample 2)) end_offset.
Proof.
  destruct (walk_ubi_termination (at_pos ubi_sample 2) 0) as [_ Hzero].
  destruct (walk_ubi_termination (at_pos ubi_sample 2) 8) as [Hpos _].
  split.
  - apply Hzero; reflexivity.
  - apply Hpos; [lia | simpl; lia].
Defined.

(** A walk that returns has gone over markers only and stopped at the
    first window without one, whatever its iteration budget was. *)
Lemma walk_ubi_Ok_spec peb_size :
  0 < peb_size ->
  forall fuel f v f',
    UBIHandler._walk_ubi fuel peb_size f = Ok v f' ->
    exists n,
      v = Z.of_nat (pos f) + Z.of_nat n * peb_size
      /\ (forall i, (i < n)%nat ->
                    marker_at f (Z.of_nat (pos f) + Z.of_nat i * peb_size) = true)
      /\ marker_at f (Z.of_nat (pos f) + Z.of_nat n * peb_size) = false.
Proof.
  intros Hpeb. induction fuel as [|fuel IH]; intros f v f' H; [discriminate|].
  destruct (marker_at f (Z.of_nat (pos f))) eqn:Hm.
  - rewrite walk_ubi_step in H by (try exact Hm; lia).
    apply IH in H. destruct H as (n & Hv & Hall & Hstop).
    unfold at_pos in Hv, Hall, Hstop. cbn [pos] in Hv, Hall, Hstop.
    rewrite Z2Nat.id in Hv, Hall, Hstop by lia.
    exists (S n). split; [lia|]. split.
    + intros [|i] Hi; [now rewrite Z.mul_0_l, Z.add_0_r|].
      replace (Z.of_nat (pos f) + Z.of_nat (S i) * peb_size)
        with (Z.of_nat (pos f) + peb_size + Z.of_nat i * peb_size) by lia.
      rewrite <- (marker_at_at_pos f (Z.to_nat (Z.of_nat (pos f) + peb_size))).
      apply Hall. lia.
    + replace (Z.of_nat (pos f) + Z.of_nat (S n) * peb_size)
        with (Z.of_nat (pos f) + peb_size + Z.of_nat n * peb_size) by lia.
      rewrite <- (marker_at_at_pos f (Z.to_nat (Z.of_nat (pos f) + peb_size))).
      exact Hstop.
  - destruct (walk_ubi_stop fuel peb_size f Hm) as [f'' Hstop].
    rewrite Hstop in H. injection H as <- _.
    exists 0%nat. rewrite Z.mul_0_l, Z.add_0_r.
    split; [reflexivity|]. split; [intros i Hi; lia | exact Hm].
Qed.

(** What a returned chunk says about the run of the calculator. *)
Lemma ubi_chunk_inversion fuel f start c :
  returns (UBIHandler.calculate_chunk fuel start f) (Some c) ->
  exists stride n,
    UBIHandler._guess_peb_size f = Ok stride f
    /\ 4 <= stride /\ 0 <= start
    /\ c = mkValidChunk start (start + Z.of_nat n * stride)
    /\ (forall i, (i < n)%nat -> marker_at f (start + Z.of_nat i * stride) = true)
    /\ marker_at f (start + Z.of_nat n * stride) = false
    /\ (0 < n)%nat.
Proof.
  intros [f' H].
  destruct (Nat.lt_ge_cases (length (occurrences f)) 2) as [Hfew | Hmany].
  { rewrite (ubi_calculate_chunk_none fuel start f Hfew) in H. discriminate. }
  destruct (guess_peb_size_mode f Hmany) as (stride & Hmode & Hguess & Hpos).
  assert (Hfour : 4 <= stride).
  { destruct (mode_most_common _ _ Hmode) as [Hin _].
    destruct (In_nth _ _ 0 Hin) as (i & Hi & Hnth).
    rewrite get_intervals_length in Hi. rewrite get_intervals_nth in Hnth by lia.
    assert (Ha : In (nth i (occurrences f) 0) (occurrences f)) by (apply nth_In; lia).
    assert (Hb : In (nth (S i) (occurrences f) 0) (occurrences f)) by (apply nth_In; lia).
    apply occurrences_marker_at in Ha, Hb.
    pose proof (markers_apart f _ _ Ha Hb). lia. }
  destruct (Z.lt_ge_cases start 0) as [Hneg | Hnn].
  { unfold UBIHandler.calculate_chunk, bind at 1, try_except, bind at 1 in H.
    rewrite Hguess in H. unfold ret at 1 in H. unfold bind, seek in H.
    destruct (Z.ltb_spec start 0); [discriminate | lia]. }
  rewrite (ubi_calculate_chunk_walk fuel start f stride Hguess Hnn) in H.
  destruct (UBIHandler._walk_ubi fuel stride (at_pos f (Z.to_nat start)))
    as [v f1| |] eqn:E;
    [|rewrite (bind_Raise _ _ _ _ E) in H; discriminate
     |unfold bind in H; rewrite E in H; discriminate].
  rewrite (bind_Ok _ _ _ _ _ E), make_chunk_built in H.
  apply built_inversion in H. destruct H as (Hc & Hlt & _).
  apply (walk_ubi_Ok_spec stride Hpos) in E. destruct E as (n & Hv & Hall & Hstop).
  unfold at_pos in Hv, Hall, Hstop. cbn [pos] in Hv, Hall, Hstop.
  rewrite Z2Nat.id in Hv, Hall, Hstop by exact Hnn.
  exists stride, n.
  split; [exact Hguess|]. split; [exact Hfour|]. split; [exact Hnn|].
  split; [now rewrite Hc, Hv|]. split; [exact Hall|]. split; [exact Hstop|].
  destruct n as [|n]; lia.
Qed.

Lemma ubi_signature_marker f start :
  0 <= start ->
  Yara.matches UBIHandler.ubi_magic (skipn (Z.to_nat start) (content f)) = true ->
  marker_at f start = true.
Proof.
  intros Hs Hmatch. unfold UBIHandler.ubi_magic in Hmatch.
  change [x55; x42; x49; x23; x01] with ([x55; x42; x49; x23] ++ [x01]) in Hmatch.
  rewrite map_app in Hmatch. apply matches_literals in Hmatch.
  destruct Hmatch as [Hfirst _]. cbn [length] in Hfirst.
  unfold marker_at, peek, at_pos. cbn [pos content].
  rewrite Hfirst. apply andb_true_iff. split; [now apply Z.leb_le | reflexivity].
Qed.

(** X16: a chunk returned for a candidate of the UBI signature holds at
    least one erase block, and its last block starts inside the source:
    start + stride <= end_offset <= source length + stride - 4, where
    the stride is the inferred PEB size.  The chunk can overrun the
    source by less than one stride. *)
Theorem ubi_signature_candidate_bounds (f : File) (start : Z) (fuel : nat) (c : ValidChunk) :
  0 <= start ->
  Yara.matches UBIHandler.ubi_magic (skipn (Z.to_nat start) (content f)) = true ->
  returns (UBIHandler.calculate_chunk fuel start f) (Some c) ->
  exists stride,
    returns (UBIHandler._guess_peb_size f) stride
    /\ start_offset c = start
    /\ start + stride <= end_offset c
    /\ end_offset c <= source_length f + stride - 4.
Proof.
  intros Hs Hsig Hret.
  pose proof (ubi_signature_marker f start Hs Hsig) as Hm.
  destruct (ubi_chunk_inversion fuel f start c Hret)
    as (stride & n & Hguess & Hfour & _ & -> & Hall & Hstop & _).
  exists stride. split; [exists f; exact Hguess|]. cbn [start_offset end_offset].
  split; [reflexivity|].
  destruct n as [|n].
  - rewrite Z.mul_0_l, Z.add_0_r in Hstop. congruence.
  - pose proof (Hall n ltac:(lia)) as Hlast.
    apply marker_at_inside in Hlast. split; nia.
Qed.

Lemma ubi_signature_candidate_bounds_witness :
  exists stride,
    returns (UBIHandler._guess_peb_size ubi_sample) stride
    /\ 2 + stride <= 26
    /\ 26 <= source_length ubi_sample + stride - 4.
Proof.
  destruct (ubi_signature_candidate_bounds ubi_sample 2 64 (mkValidChunk 2 26))
    as (stride & Hguess & _ & Hlow & Hhigh);
    [lia | reflexivity | eexists; vm_compute; reflexivity |].
  exists stride. repeat split; assumption.
Defined.

(** X17: every block start inside a chunk gives the same end.  If the
    calculator returns a chunk of n blocks from [start], then called at
    start + i * stride, for any i below n, it returns the chunk from
    there to the same end offset; called at the end offset itself, where
    no marker is, it builds an empty chunk and fails with the format
    error. *)
Theorem ubi_chunk_end_from_any_block (f : File) (start : Z) (fuel : nat) (c : ValidChunk) :
  (length (content f) < fuel)%nat ->
  returns (UBIHandler.calculate_chunk fuel start f) (Some c) ->
  exists stride n,
    returns (UBIHandler._guess_peb_size f) stride
    /\ (0 < n)%nat
    /\ end_offset c = start + Z.of_nat n * stride
    /\ (forall i, (i < n)%nat ->
          returns (UBIHandler.calculate_chunk fuel (start + Z.of_nat i * stride) f)
                  (Some (mkValidChunk (start + Z.of_nat i * stride) (end_offset c))))
    /\ UBIHandler.calculate_chunk fuel (end_offset c) f = Raise InvalidInputFormat.
Proof.
  intros Hfuel Hret.
  destruct (ubi_chunk_inversion fuel f start c Hret)
    as (stride & n & Hguess & Hfour & Hs & -> & Hall & Hstop & Hn).
  cbn [end_offset].
  assert (Hany : forall i, (i <= n)%nat ->
            exists f', UBIHandler.calculate_chunk fuel (start + Z.of_nat i * stride) f
                       = built (start + Z.of_nat i * stride)
                               (start + Z.of_nat n * stride) f').
  { intros i Hi.
    assert (Hsi : 0 <= start + Z.of_nat i * stride) by nia.
    destruct (walk_ubi_spec stride ltac:(lia) fuel
                (at_pos f (Z.to_nat (start + Z.of_nat i * stride))))
      as (k & [f' Hwalk] & Hkall & Hkstop).
    { unfold at_pos. cbn [pos content]. lia. }
    unfold at_pos in Hwalk, Hkall, Hkstop. cbn [pos] in Hwalk, Hkall, Hkstop.
    rewrite Z2Nat.id in Hwalk, Hkall, Hkstop by exact Hsi.
    assert (Hkall' : forall j, (j < k)%nat ->
              marker_at f (start + Z.of_nat i * stride + Z.of_nat j * stride) = true)
      by (intros j Hj; exact (Hkall j Hj)).
    assert (Hkstop' : marker_at f (start + Z.of_nat i * stride + Z.of_nat k * stride) = false)
      by exact Hkstop.
    clear Hkall Hkstop.
    assert (Hk : (i + k = n)%nat).
    { destruct (Nat.lt_trichotomy (i + k) n) as [Hlt | [Heq | Hgt]]; [|exact Heq|].
      - specialize (Hall (i + k)%nat Hlt).
        replace (start + Z.of_nat (i + k) * stride)
          with (start + Z.of_nat i * stride + Z.of_nat k * stride) in Hall by lia.
        congruence.
      - specialize (Hkall' (n - i)%nat ltac:(lia)).
        replace (start + Z.of_nat i * stride + Z.of_nat (n - i) * stride)
          with (start + Z.of_nat n * stride) in Hkall' by nia.
        congruence. }
    exists f'. rewrite (ubi_calculate_chunk_walk fuel _ f stride Hguess Hsi).
    rewrite (bind_Ok _ _ _ _ _ Hwalk), make_chunk_built. f_equal. subst n. lia. }
  exists stride, n. split; [exists f; exact Hguess|].
  split; [exact Hn|]. split; [reflexivity|]. split.
  - intros i Hi. destruct (Hany i ltac:(lia)) as [f' Hrun].
    exists f'. rewrite Hrun. apply built_nonempty. nia.
  - destruct (Hany n ltac:(lia)) as [f' Hrun].
    rewrite Hrun. apply built_empty. lia.
Qed.

Lemma ubi_chunk_end_from_any_block_witness :
  returns (UBIHandler.calculate_chunk 64 10 ubi_sample) (Some (mkValidChunk 10 26))
  /\ UBIHandler.calculate_chunk 64 26 ubi_sample = Raise InvalidInputFormat.
Proof.
  destruct (ubi_chunk_end_from_any_block ubi_sample 2 64 (mkValidChunk 2 26))
    as (stride & n & [f' Hguess] & _ & Hend & Hany & Hlast);
    [simpl; lia | eexists; vm_compute; reflexivity |].
  assert (Hstride : stride = 8) by (vm_compute in Hguess; congruence).
  subst stride. cbn [end_offset] in Hend, Hany, Hlast.
  assert (Hn : n = 3%nat) by lia. subst n.
  split; [apply (Hany 1%nat); lia | exact Hlast].
Defined.

(* ================================================================== *)
(** ** Further properties: gzip *)
(* ================================================================== *)

(** X18: the gzip calculator translates exactly two exceptions.  What
    [read_header] raises leaves the calculator as it is, since the call
    is outside the [try]; of what decoding raises, [BadGzipFile] and
    [zlib.error] become [InvalidInputFormat] and every other exception
    (an end-of-file error on a truncated member among them) passes
    unchanged. *)
Theorem gzip_exception_translation
    (inflate : list byte -> GZIPHandler.InflateStatus) (buffer_size : nat)
    (f : File) (start : Z) (e : Exn) :
  (GZIPHandler.read_header f = Raise e ->
     GZIPHandler.calculate_chunk inflate buffer_size start f = Raise e)
  /\ (forall f1,
        GZIPHandler.read_header f = Ok true f1 ->
        GZIPHandler.read_until_eof inflate buffer_size f1 = Raise e ->
        (e = BadGzipFile \/ e = ZlibError ->
           GZIPHandler.calculate_chunk inflate buffer_size start f = Raise InvalidInputFormat)
        /\ (e <> BadGzipFile -> e <> ZlibError ->
            GZIPHandler.calculate_chunk inflate buffer_size start f = Raise e)).
Proof.
  split.
  - intros H. unfold GZIPHandler.calculate_chunk. now rewrite (bind_Raise _ _ _ _ H).
  - intros f1 Hhdr Hloop.
    rewrite (calculate_chunk_decode_error _ _ _ _ _ _ Hhdr Hloop).
    split.
    + intros [-> | ->]; reflexivity.
    + intros H1 H2. destruct e; try reflexivity; congruence.
Qed.

Lemma gzip_exception_translation_witness :
  GZIPHandler.calculate_chunk GZIPHandler.stored_inflate 4 0 gzip_truncated_sample
  = Raise EOFError.
Proof.
  destruct (gzip_exception_translation GZIPHandler.stored_inflate 4
              gzip_truncated_sample 0 EOFError) as [_ Hdecode].
  destruct (Hdecode (at_pos gzip_truncated_sample 10)) as [_ Hpass];
    [reflexivity | reflexivity |].
  apply Hpass; discriminate.
Defined.
